(** * certs_to_crlite: reconciliation of known and revoked serials, key-list
    cache, false-positive policy and the build driver.

    A shallow embedding of [create_filter_cascade/certs_to_crlite.py].
    Python sets are [gset string] (iteration order is the one [elements]
    gives: the source relies on no particular order), dicts are [gmap],
    floats are the kernel's binary64 floats, files are strings of characters
    and the run is a function on an explicit world. *)

From Stdlib Require Import Floats ZArith Uint63 Ascii String.
From stdpp Require Import gmap strings list fin_maps pretty.

Open Scope Z_scope.

(** ** Strings and paths (POSIX [os.path]) *)

Definition LF : ascii := Ascii.ascii_of_nat 10.
Definition CR : ascii := Ascii.ascii_of_nat 13.
Definition slash : ascii := Ascii.ascii_of_nat 47.
Definition dot : ascii := Ascii.ascii_of_nat 46.

(** [s.endswith(c)] for one character. *)
Fixpoint endswith_char (c : ascii) (s : string) : bool :=
  match s with
  | EmptyString => false
  | String a EmptyString => Ascii.eqb a c
  | String _ t => endswith_char c t
  end.

(** [s.startswith(c)] for one character. *)
Definition startswith_char (c : ascii) (s : string) : bool :=
  match s with
  | String a _ => Ascii.eqb a c
  | EmptyString => false
  end.

(** [os.path.join(a, b)]. *)
Definition path_join (a b : string) : string :=
  if startswith_char slash b then b
  else if orb (String.eqb a "") (endswith_char slash a) then a +:+ b
  else a +:+ String slash b.

(** [s.rfind(c)], with the index counted from [i] at the head of [s]. *)
Fixpoint rfind_from (c : ascii) (s : string) (i : nat) : option nat :=
  match s with
  | EmptyString => None
  | String a t =>
      match rfind_from c t (S i) with
      | Some j => Some j
      | None => if Ascii.eqb a c then Some i else None
      end
  end.

Definition rfind (c : ascii) (s : string) : option nat := rfind_from c s 0.

(** [os.path.splitext(p)[0]]: the extension starts at the last dot, unless
    only dots stand between the last separator and it. *)
Definition splitext_root (p : string) : string :=
  match rfind dot p with
  | None => p
  | Some d =>
      let start := match rfind slash p with None => 0%nat | Some i => S i end in
      if existsb
           (fun i => match String.get i p with
                     | Some a => negb (Ascii.eqb a dot)
                     | None => false
                     end)
           (seq start (d - start))
      then String.substring 0 d p
      else p
  end.

(** ** The statistics object

    [stats] is a dict with string keys; the value under "AKIs" is a dict of
    per-issuer dicts, which [initAKIStats] always creates with the same five
    keys. *)

Record AKIStats := mkAKIStats {
  aki_known : Z;
  aki_revoked : Z;
  aki_knownnotrevoked : Z;
  aki_knownrevoked : Z;
  aki_crl : bool
}.

Inductive value :=
  | VInt (n : Z)
  | VFloats (l : list float)
  | VAKIs (m : gmap string AKIStats).

Abbreviation Stats := (gmap string value).

(** [stats[k]] read as an integer. *)
Definition stat_int (k : string) (stats : Stats) : Z :=
  match stats !! k with
  | Some (VInt n) => n
  | _ => 0
  end.

(** [stats[k] += n]. [genCertLists] assigns every counter before it adds to
    one, so the key is present wherever this is used. *)
Definition stat_add (k : string) (n : Z) (stats : Stats) : Stats :=
  <[k := VInt (stat_int k stats + n)]> stats.

(** [stats['AKIs']] read as a map. *)
Definition stat_akis (stats : Stats) : gmap string AKIStats :=
  match stats !! "AKIs" with
  | Some (VAKIs m) => m
  | _ => ∅
  end.

(** [stats['AKIs'][aki][field] = v], as an update [f] of the issuer's entry;
    the entry exists because [initAKIStats] ran for [aki] just before. *)
Definition aki_update (aki : string) (f : AKIStats → AKIStats) (stats : Stats) : Stats :=
  <["AKIs" := VAKIs (alter f aki (stat_akis stats))]> stats.

Definition set_known (n : Z) (a : AKIStats) : AKIStats :=
  mkAKIStats n (aki_revoked a) (aki_knownnotrevoked a) (aki_knownrevoked a) (aki_crl a).
Definition set_revoked (n : Z) (a : AKIStats) : AKIStats :=
  mkAKIStats (aki_known a) n (aki_knownnotrevoked a) (aki_knownrevoked a) (aki_crl a).
Definition set_knownnotrevoked (n : Z) (a : AKIStats) : AKIStats :=
  mkAKIStats (aki_known a) (aki_revoked a) n (aki_knownrevoked a) (aki_crl a).
Definition set_knownrevoked (n : Z) (a : AKIStats) : AKIStats :=
  mkAKIStats (aki_known a) (aki_revoked a) (aki_knownnotrevoked a) n (aki_crl a).
Definition set_crl (b : bool) (a : AKIStats) : AKIStats :=
  mkAKIStats (aki_known a) (aki_revoked a) (aki_knownnotrevoked a) (aki_knownrevoked a) b.

Definition initAKIStats (stats : Stats) (aki : string) : Stats :=
  <["AKIs" := VAKIs (<[aki := mkAKIStats 0 0 0 0 false]> (stat_akis stats))]> stats.

(** ** The file system *)

(** Regular files by path, and what [os.walk(top)] reports: for every
    directory it visits, the directory's path and the names of the files in
    it. *)
Record FileSystem := mkFS {
  fs_files : gmap string string;
  fs_walk : string → list (string * list string)
}.

(** ** The command line *)

Record Args := mkArgs {
  id_ : string;
  previd : option string;
  certPath : string;
  outDirName : string;
  knownPath : string;
  revokedPath : string;
  capacity : float;
  excludeaki : list string;
  cachekeys : bool;
  noVerify : bool;
  diffMetaFile : option string;
  diffBaseFile : option string;
  patchFile : option string;
  outFile : string;
  metaFile : string;
  revokedKeys : string;
  validKeys : string
}.

(** ** Reconciliation *)

Section Reconcile.
(** [json.load(f)] followed by [str(s) for s in serials]: the serials of the
    document in order, or [None] when either step raises. *)
Variable json_serials : string → option (list string).

Definition getCertList (fs : FileSystem) (certpath aki : string) : option (gset string) :=
  match fs_files fs !! certpath with
  | Some text =>
      match json_serials text with
      | Some serials => Some (list_to_set ((λ s, aki +:+ s) <$> serials))
      | None => None
      end
  | None => None
  end.

(** Truth value of [None] or a set: a set is true when it is not empty. *)
Definition truthy (certlist : option (gset string)) : bool :=
  match certlist with
  | Some s => negb (bool_decide (s = ∅))
  | None => false
  end.

(** The set a variable holds after [if certlist: ... else: certlist = set()]. *)
Definition or_empty (certlist : option (gset string)) : gset string :=
  default ∅ certlist.

(** The variables the two loops of [genCertLists] update. *)
Record CertLists := mkCertLists {
  stats_of : Stats;
  revoked_certs : list string;
  nonrevoked_certs : list string;
  processedAKIs : gset string
}.

(** Body of the loop over the files of the known directory. *)
Definition known_file (args : Args) (fs : FileSystem) (path filename : string)
    (st : CertLists) : CertLists :=
  let aki := splitext_root filename in
  if bool_decide (aki ∈ excludeaki args) then st
  else
    let stats := initAKIStats (stats_of st) aki in
    let knownpath := path_join path filename in
    let knownlist := getCertList fs knownpath aki in
    let stats := if truthy knownlist
                 then stat_add "known" (Z.of_nat (size (or_empty knownlist))) stats
                 else stats in
    let knownlist := or_empty knownlist in
    let stats := aki_update aki (set_known (Z.of_nat (size knownlist))) stats in
    let revokedpath := path_join (revokedPath args) (aki +:+ ".revoked") in
    let revlist := getCertList fs revokedpath aki in
    let stats := if truthy revlist
                 then aki_update aki (set_crl true)
                        (stat_add "revoked" (Z.of_nat (size (or_empty revlist))) stats)
                 else stat_add "nocrl" 1 stats in
    let revlist := or_empty revlist in
    let stats := aki_update aki (set_revoked (Z.of_nat (size revlist))) stats in
    let processed := {[aki]} ∪ processedAKIs st in
    let knownNotRevoked := knownlist ∖ revlist in
    let knownRevoked := knownlist ∩ revlist in
    let stats := stat_add "knownnotrevoked" (Z.of_nat (size knownNotRevoked)) stats in
    let stats := stat_add "knownrevoked" (Z.of_nat (size knownRevoked)) stats in
    let stats := aki_update aki (set_knownnotrevoked (Z.of_nat (size knownNotRevoked))) stats in
    let stats := aki_update aki (set_knownrevoked (Z.of_nat (size knownRevoked))) stats in
    mkCertLists stats
      (revoked_certs st ++ elements knownRevoked)
      (nonrevoked_certs st ++ elements knownNotRevoked)
      processed.

(** Body of the loop over the files of the revoked directory. *)
Definition revoked_file (args : Args) (fs : FileSystem) (path filename : string)
    (st : CertLists) : CertLists :=
  let aki := splitext_root filename in
  if bool_decide (aki ∈ excludeaki args) then st
  else if bool_decide (aki ∈ processedAKIs st) then st
  else
    let stats := initAKIStats (stats_of st) aki in
    let revokedpath := path_join path filename in
    match getCertList fs revokedpath aki with
    | None =>
        mkCertLists (stat_add "nocrl" 1 stats)
          (revoked_certs st) (nonrevoked_certs st) (processedAKIs st)
    | Some revlist =>
        let stats := stat_add "revoked" (Z.of_nat (size revlist)) stats in
        let stats := aki_update aki (set_crl true) stats in
        let stats := aki_update aki (set_revoked (Z.of_nat (size revlist))) stats in
        mkCertLists stats (revoked_certs st) (nonrevoked_certs st) (processedAKIs st)
    end.

(** [for path, dirs, files in os.walk(top): for filename in files: body]. *)
Definition walk_loop (body : string → string → CertLists → CertLists)
    (walk : list (string * list string)) (st : CertLists) : CertLists :=
  foldl (λ st dir, foldl (λ st filename, body dir.1 filename st) st dir.2) st walk.

Definition init_stats (stats : Stats) : Stats :=
  <["AKIs" := VAKIs ∅]>
    (<["nocrl" := VInt 0]>
       (<["known" := VInt 0]>
          (<["revoked" := VInt 0]>
             (<["knownnotrevoked" := VInt 0]>
                (<["knownrevoked" := VInt 0]> stats))))).

(** [genCertLists]: the two lists are extended in place, so they are taken
    and returned along with [stats]. *)
Definition genCertLists (args : Args) (fs : FileSystem) (stats : Stats)
    (revoked nonrevoked : list string) : CertLists :=
  let st := mkCertLists (init_stats stats) revoked nonrevoked ∅ in
  let st := walk_loop (known_file args fs) (fs_walk fs (knownPath args)) st in
  walk_loop (revoked_file args fs) (fs_walk fs (revokedPath args)) st.

End Reconcile.

(** ** The key-list cache *)

(** What [for k in keys: f.write("%s\n" % k)] leaves in the file. *)
Definition keys_text (keys : list string) : string :=
  foldr (λ k text, k +:+ String LF text) "" keys.

(** [for line in file] on a file opened in text mode: a line ends at LF, CR
    or CR LF, and the terminator is handed over as a single LF; characters
    after the last terminator form a last line without one. [cur] is the line
    read so far. *)
Fixpoint readlines (cur : string) (text : string) : list string :=
  match text with
  | EmptyString => if String.eqb cur "" then [] else [cur]
  | String c rest =>
      if Ascii.eqb c LF then (cur +:+ String LF "") :: readlines "" rest
      else if Ascii.eqb c CR then
        match rest with
        | String c' rest' =>
            if Ascii.eqb c' LF then (cur +:+ String LF "") :: readlines "" rest'
            else (cur +:+ String LF "") :: readlines "" rest
        | EmptyString => (cur +:+ String LF "") :: readlines "" rest
        end
      else readlines (cur +:+ String c "") rest
  end.

(** [line[:-1]]. *)
Definition chop (line : string) : string :=
  String.substring 0 (String.length line - 1) line.

(** What [for line in file: keys.append(line[:-1])] appends. *)
Definition text_keys (text : string) : list string :=
  chop <$> readlines "" text.

(** ** The false-positive policy *)

Inductive exn :=
  | ZeroDivisionError
  | OverflowError
  | ValueError
  | FileNotFoundError (path : string)
  | TypeError
  | CascadeError
  | VerificationError.

Inductive Result (A : Type) :=
  | Ok (a : A)
  | Raise (e : exn).
Arguments Ok {A} a.
Arguments Raise {A} e.

(** An [int] converted to [float]; a length is below [2^63]. *)
Definition float_of_int (n : Z) : float := PrimFloat.of_uint63 (Uint63.of_Z n).

(** [int(x)] of a float. *)
Definition int_of_float (x : float) : Result Z :=
  match Prim2SF x with
  | S754_zero _ => Ok 0
  | S754_finite s m e =>
      let v := if 0 <=? e then Zpos m * 2 ^ e else Zpos m / 2 ^ (- e) in
      Ok (if s then - v else v)
  | S754_infinity _ => Raise OverflowError
  | S754_nan => Raise ValueError
  end.

(** Float division as Python does it: a zero divisor raises. *)
Definition float_div (a b : float) : Result float :=
  if PrimFloat.eqb b 0%float then Raise ZeroDivisionError else Ok (PrimFloat.div a b).

Definition getFPRs (revoked nonrevoked : list string) : Result (list float) :=
  match float_div (float_of_int (Z.of_nat (length revoked)))
          (PrimFloat.mul (PrimFloat.sqrt 2%float)
             (float_of_int (Z.of_nat (length nonrevoked)))) with
  | Ok fpr => Ok [fpr; 0.5%float]
  | Raise e => Raise e
  end.

(** ** The world of a run, and computations that change it or raise *)

Inductive event :=
  | Wrote (path : string)
  | Checked.

(** The file system and what the run has done so far, oldest first. *)
Record World := mkWorld {
  w_fs : FileSystem;
  w_log : list event
}.

Definition M (A : Type) : Type := World → World * Result A.

#[export] Instance M_ret : MRet M := λ A a w, (w, Ok a).
#[export] Instance M_bind : MBind M := λ A B f m w,
  match m w with
  | (w', Ok a) => f a w'
  | (w', Raise e) => (w', Raise e)
  end.

Definition raise {A} (e : exn) : M A := λ w, (w, Raise e).

Definition lift {A} (r : Result A) : M A := λ w, (w, r).

Definition get_fs : M FileSystem := λ w, (w, Ok (w_fs w)).

Definition emit (e : event) : M unit :=
  λ w, (mkWorld (w_fs w) (w_log w ++ [e]), Ok tt).

(** [os.path.isfile(path)]. *)
Definition isfile (fs : FileSystem) (path : string) : bool :=
  bool_decide (is_Some (fs_files fs !! path)).

(** [open(path, 'r')] and reading all of it. *)
Definition read_file (path : string) : M string :=
  λ w, match fs_files (w_fs w) !! path with
       | Some text => (w, Ok text)
       | None => (w, Raise (FileNotFoundError path))
       end.

(** The world after [path] has been opened for writing, given [text] and
    closed; missing directories were made before. *)
Definition written (path text : string) (w : World) : World :=
  mkWorld (mkFS (<[path := text]> (fs_files (w_fs w))) (fs_walk (w_fs w)))
    (w_log w ++ [Wrote path]).

Definition write_file (path text : string) : M unit :=
  λ w, (written path text w, Ok tt).

(** ** What the program imports *)

Class Externals := {
  (** [json.load] and the iteration over its result, see [getCertList]. *)
  json_serials : string → option (list string);
  (** [json.dumps]. *)
  json_dumps : Stats → string;
  (** [filtercascade.FilterCascade]; [None] stands for a call that raises. *)
  cascade : Type;
  cascade_with_characteristics : Z → list float → option cascade;
  loadDiffMeta : string → option cascade;
  set_error_rates : list float → cascade → cascade;
  set_version : Z → cascade → cascade;
  version : cascade → Z;
  initialize : list string → list string → cascade → option cascade;
  layerCount : cascade → Z;
  bitCount : cascade → Z;
  check : list string → list string → cascade → bool;
  tofile : cascade → string;
  saveDiffMeta : cascade → string;
  (** [bsdiff4]: the patch from the first content to the second. *)
  file_diff : string → string → string
}.

(** The namespace [argparse] returns. *)
Record Cli := mkCli {
  cli_id : string;
  cli_previd : option string;
  cli_certPath : string;
  cli_outDirName : string;
  cli_knownPath : option string;
  cli_revokedPath : option string;
  cli_capacity : float;
  cli_excludeaki : list string;
  cli_cachekeys : bool;
  cli_noVerify : bool
}.

Definition parseArgs (c : Cli) : Args :=
  let out := path_join (path_join (cli_certPath c) (cli_id c)) (cli_outDirName c) in
  mkArgs (cli_id c) (cli_previd c) (cli_certPath c) (cli_outDirName c)
    (default (path_join (path_join (cli_certPath c) (cli_id c)) "known") (cli_knownPath c))
    (default (path_join (path_join (cli_certPath c) (cli_id c)) "revoked") (cli_revokedPath c))
    (cli_capacity c) (cli_excludeaki c) (cli_cachekeys c) (cli_noVerify c)
    None None None
    (path_join out "filter") (path_join out "filter.meta")
    (path_join out "keys-revoked") (path_join out "keys-valid").

Definition stats_path (args : Args) : string :=
  path_join (path_join (path_join (certPath args) (id_ args)) (outDirName args)) "stats.json".

(** The part of [main] that looks for the previous build. *)
Definition diff_setup (args : Args) (fs : FileSystem) : Args :=
  match previd args with
  | Some prev =>
      let dir := path_join (path_join (certPath args) prev) (outDirName args) in
      let diffMetaPath := path_join dir "filter.meta" in
      let diffBasePath := path_join dir "filter" in
      if isfile fs diffMetaPath && isfile fs diffBasePath then
        mkArgs (id_ args) (previd args) (certPath args) (outDirName args)
          (knownPath args) (revokedPath args) (capacity args) (excludeaki args)
          (cachekeys args) (noVerify args)
          (Some diffMetaPath) (Some diffBasePath)
          (Some (path_join (path_join (path_join (certPath args) (id_ args)) (outDirName args))
                   ("filter." +:+ prev +:+ ".patch")))
          (outFile args) (metaFile args) (revokedKeys args) (validKeys args)
      else args
  | None => args
  end.

Section Pipeline.
Context {E : Externals}.

Definition saveCertLists (args : Args) (revoked nonrevoked : list string) : M unit :=
  _ ← write_file (revokedKeys args) (keys_text revoked);
  write_file (validKeys args) (keys_text nonrevoked).

(** The two lists are cleared and filled in place; the model returns them. *)
Definition loadCertLists (args : Args) : M (list string * list string) :=
  revtext ← read_file (revokedKeys args);
  validtext ← read_file (validKeys args);
  mret (text_keys revtext, text_keys validtext).

Definition generateMLBF (args : Args) (stats : Stats) (revoked nonrevoked : list string)
    : M (Stats * cascade) :=
  fprs ← lift (getFPRs revoked nonrevoked);
  mlbf ← match diffMetaFile args with
          | Some path =>
              meta ← read_file path;
              match loadDiffMeta meta with
              | Some c => mret (set_error_rates fprs c)
              | None => raise CascadeError
              end
          | None =>
              n ← lift (int_of_float
                          (PrimFloat.mul (float_of_int (Z.of_nat (length revoked)))
                             (capacity args)));
              match cascade_with_characteristics n fprs with
              | Some c => mret c
              | None => raise CascadeError
              end
          end;
  match initialize revoked nonrevoked (set_version 1 mlbf) with
  | Some mlbf =>
      let stats := <["mlbf_fprs" := VFloats fprs]> stats in
      let stats := <["mlbf_version" := VInt (version mlbf)]> stats in
      let stats := <["mlbf_layers" := VInt (layerCount mlbf)]> stats in
      let stats := <["mlbf_bits" := VInt (bitCount mlbf)]> stats in
      mret (stats, mlbf)
  | None => raise CascadeError
  end.

Definition verifyMLBF (args : Args) (mlbf : cascade) (revoked nonrevoked : list string)
    : M unit :=
  if noVerify args then mret tt
  else
    _ ← emit Checked;
    if check revoked nonrevoked mlbf then mret tt else raise VerificationError.

(** [os.stat(path).st_size] of a file just written is the length of what
    was written. *)
Definition saveMLBF (args : Args) (stats : Stats) (mlbf : cascade) : M Stats :=
  _ ← write_file (outFile args) (tofile mlbf);
  let stats := <["mlbf_filesize" := VInt (Z.of_nat (String.length (tofile mlbf)))]> stats in
  _ ← write_file (metaFile args) (saveDiffMeta mlbf);
  let stats :=
    <["mlbf_metafilesize" := VInt (Z.of_nat (String.length (saveDiffMeta mlbf)))]> stats in
  match diffBaseFile args with
  | Some base =>
      old ← read_file base;
      new ← read_file (outFile args);
      let patch := file_diff old new in
      match patchFile args with
      | Some path =>
          _ ← write_file path patch;
          mret (<["mlbf_diffsize" := VInt (Z.of_nat (String.length patch))]> stats)
      | None => raise TypeError
      end
  | None => mret stats
  end.

Definition saveStats (args : Args) (stats : Stats) : M unit :=
  write_file (stats_path args) (json_dumps stats).

(** The first part of [main]: the key lists, loaded from the cache or
    reconciled (and then cached when asked). *)
Definition certs_phase (args : Args) (stats : Stats) : M (Stats * list string * list string) :=
  fs ← get_fs;
  if cachekeys args && isfile fs (revokedKeys args) && isfile fs (validKeys args) then
    '(revoked, nonrevoked) ← loadCertLists args;
    mret (stats, revoked, nonrevoked)
  else
    let st := genCertLists json_serials args fs stats [] [] in
    _ ← (if cachekeys args
         then saveCertLists args (revoked_certs st) (nonrevoked_certs st)
         else mret tt);
    mret (stats_of st, revoked_certs st, nonrevoked_certs st).

(** [main] up to and including the construction of the filter. *)
Definition build (c : Cli) : M (Args * Stats * list string * list string * cascade) :=
  let args := parseArgs c in
  '(stats, revoked, nonrevoked) ← certs_phase args ∅;
  fs ← get_fs;
  let args := diff_setup args fs in
  '(stats, mlbf) ← generateMLBF args stats revoked nonrevoked;
  mret (args, stats, revoked, nonrevoked, mlbf).

(** [main]; the model returns the [stats] object the run ends with. *)
Definition main (c : Cli) : M Stats :=
  '(args, stats, revoked, nonrevoked, mlbf) ← build c;
  stats ← (if 0 <? bitCount mlbf then
             _ ← verifyMLBF args mlbf revoked nonrevoked;
             saveMLBF args stats mlbf
           else mret stats);
  _ ← saveStats args stats;
  mret stats.

End Pipeline.

(** * Notions the properties are stated with *)

(** The files a walk hands to the loop body, in order. *)
Definition walk_files (walk : list (string * list string)) : list (string * string) :=
  dir ← walk; (λ filename, (dir.1, filename)) <$> dir.2.

Section Notions.
Variable json_serials : string → option (list string).
Variables (args : Args) (fs : FileSystem).

(** The issuer a file of either directory stands for. *)
Definition file_aki (file : string * string) : string := splitext_root file.2.

Definition excluded (file : string * string) : bool :=
  bool_decide (file_aki file ∈ excludeaki args).

(** The known set of the issuer of a file of the known directory, empty
    when the file does not load. *)
Definition known_of (file : string * string) : gset string :=
  or_empty (getCertList json_serials fs (path_join file.1 file.2) (file_aki file)).

(** The revoked set of that issuer, empty when [<aki>.revoked] does not
    load. *)
Definition revoked_of (file : string * string) : gset string :=
  or_empty (getCertList json_serials fs
              (path_join (revokedPath args) (file_aki file +:+ ".revoked")) (file_aki file)).

(** The files of the known directory whose issuer is not excluded. *)
Definition known_issuers : list (string * string) :=
  filter (λ file, excluded file = false) (walk_files (fs_walk fs (knownPath args))).

End Notions.

(** No string of the list is a prefix of one at another position; in
    particular the strings are pairwise different. Identifiers of one length
    that are pairwise different have this property. *)
Fixpoint prefix_free (l : list string) : bool :=
  match l with
  | [] => true
  | a :: l' =>
      forallb (λ b, negb (String.prefix a b) && negb (String.prefix b a)) l' && prefix_free l'
  end.

(** What [os.path.join(a, b)] puts before a relative [b]. *)
Definition path_pre (a : string) : string :=
  if orb (String.eqb a "") (endswith_char slash a) then a else a +:+ String slash "".

(** [c in s]. *)
Fixpoint has_char (c : ascii) (s : string) : bool :=
  match s with
  | EmptyString => false
  | String a t => Ascii.eqb a c || has_char c t
  end.

(** A key that holds no line terminator of text-mode reading. *)
Definition one_line (key : string) : Prop :=
  has_char LF key = false ∧ has_char CR key = false.

(** The directory the outputs of a run go to. *)
Definition out_dir (c : Cli) : string :=
  path_join (path_join (cli_certPath c) (cli_id c)) (cli_outDirName c).

(** The files [saveMLBF] writes for [args]. *)
Definition artifact (args : Args) (path : string) : Prop :=
  path = outFile args ∨ path = metaFile args ∨ patchFile args = Some path.

(** The keys the filter phases add to [stats]. *)
Definition mlbf_keys : list string :=
  ["mlbf_fprs"; "mlbf_version"; "mlbf_layers"; "mlbf_bits";
   "mlbf_filesize"; "mlbf_metafilesize"; "mlbf_diffsize"].

(** The counters of [genCertLists] are all in [stats] when it returns. *)
Definition reconcile_keys : list string :=
  ["knownrevoked"; "knownnotrevoked"; "revoked"; "known"; "nocrl"; "AKIs"].

(** [main] after the key lists are there. *)
Definition after_certs {E : Externals} (args : Args) (stats : Stats)
    (revoked nonrevoked : list string) : M Stats :=
  fs ← get_fs;
  let args := diff_setup args fs in
  '(stats, mlbf) ← generateMLBF args stats revoked nonrevoked;
  stats ← (if 0 <? bitCount mlbf then
             _ ← verifyMLBF args mlbf revoked nonrevoked;
             saveMLBF args stats mlbf
           else mret stats);
  _ ← saveStats args stats;
  mret stats.

(** [args] with caching switched off. *)
Definition uncached (args : Args) : Args :=
  mkArgs (id_ args) (previd args) (certPath args) (outDirName args) (knownPath args)
    (revokedPath args) (capacity args) (excludeaki args) false (noVerify args)
    (diffMetaFile args) (diffBaseFile args) (patchFile args) (outFile args)
    (metaFile args) (revokedKeys args) (validKeys args).

(** The command line with [-cachekeys] left out. *)
Definition no_cache (c : Cli) : Cli :=
  mkCli (cli_id c) (cli_previd c) (cli_certPath c) (cli_outDirName c) (cli_knownPath c)
    (cli_revokedPath c) (cli_capacity c) (cli_excludeaki c) false (cli_noVerify c).

(** What a run that ended well holds under a key of its statistics. *)
Definition final_stat (k : string) (run : World * Result Stats) : option (option value) :=
  match run.2 with
  | Ok stats => Some (stats !! k)
  | Raise _ => None
  end.

(** ** Notions for the statistics of a reconciliation *)

(** A per-issuer record whose counts agree with one another. *)
Definition aki_consistent (a : AKIStats) : Prop :=
  aki_known a = aki_knownnotrevoked a + aki_knownrevoked a ∧
  0 <= aki_knownnotrevoked a ∧
  0 <= aki_knownrevoked a <= aki_revoked a ∧
  (aki_crl a = false → aki_revoked a = 0).

(** The files of the revoked directory whose issuer is not excluded. *)
Definition revoked_issuers (args : Args) (fs : FileSystem) : list (string * string) :=
  filter (λ file, excluded args file = false) (walk_files (fs_walk fs (revokedPath args))).

(** The record the first loop leaves for the issuer of a known file. *)
Definition known_entry (json_serials : string → option (list string)) (args : Args)
    (fs : FileSystem) (file : string * string) : AKIStats :=
  let known := known_of json_serials fs file in
  let rev := revoked_of json_serials args fs file in
  mkAKIStats (Z.of_nat (size known)) (Z.of_nat (size rev))
    (Z.of_nat (size (known ∖ rev))) (Z.of_nat (size (known ∩ rev)))
    (negb (bool_decide (rev = ∅))).

(** The record the second loop leaves for the issuer of a revoked file. *)
Definition revoked_entry (json_serials : string → option (list string))
    (fs : FileSystem) (file : string * string) : AKIStats :=
  match getCertList json_serials fs (path_join file.1 file.2) (file_aki file) with
  | Some revlist => mkAKIStats 0 (Z.of_nat (size revlist)) 0 0 true
  | None => mkAKIStats 0 0 0 0 false
  end.

(** [args] without exclusions. *)
Definition include_all (args : Args) : Args :=
  mkArgs (id_ args) (previd args) (certPath args) (outDirName args) (knownPath args)
    (revokedPath args) (capacity args) [] (cachekeys args) (noVerify args)
    (diffMetaFile args) (diffBaseFile args) (patchFile args) (outFile args)
    (metaFile args) (revokedKeys args) (validKeys args).

(** The file system in which no walk lists a file of an excluded issuer. *)
Definition prune (args : Args) (fs : FileSystem) : FileSystem :=
  mkFS (fs_files fs)
    (λ top,
       (λ dir, (dir.1, filter (λ filename, splitext_root filename ∉ excludeaki args) dir.2))
         <$> fs_walk fs top).

(** The counters and the lengths of the two lists, taken together. *)
Record Totals := mkTotals {
  t_known : Z;
  t_revoked : Z;
  t_knownnotrevoked : Z;
  t_knownrevoked : Z;
  t_nocrl : Z;
  t_revoked_certs : Z;
  t_nonrevoked_certs : Z
}.

Definition totals (st : CertLists) : Totals :=
  mkTotals (stat_int "known" (stats_of st)) (stat_int "revoked" (stats_of st))
    (stat_int "knownnotrevoked" (stats_of st)) (stat_int "knownrevoked" (stats_of st))
    (stat_int "nocrl" (stats_of st))
    (Z.of_nat (length (revoked_certs st))) (Z.of_nat (length (nonrevoked_certs st))).

(** What one issuer's record adds to the totals; [nocrl] counts the records
    without a CRL. *)
Definition add_entry (a : AKIStats) (t : Totals) : Totals :=
  mkTotals (t_known t + aki_known a) (t_revoked t + aki_revoked a)
    (t_knownnotrevoked t + aki_knownnotrevoked a) (t_knownrevoked t + aki_knownrevoked a)
    (t_nocrl t + (if aki_crl a then 0 else 1))
    (t_revoked_certs t + aki_knownrevoked a) (t_nonrevoked_certs t + aki_knownnotrevoked a).

(** The files of the revoked directory the second loop makes a record for:
    those of an issuer that is not excluded and has no file in the known
    directory. *)
Definition revoked_only (args : Args) (fs : FileSystem) : list (string * string) :=
  filter (λ file, file_aki file ∉ file_aki <$> known_issuers args fs) (revoked_issuers args fs).

(** The per-issuer records in the order in which [genCertLists] assigns
    them. *)
Definition aki_entries (json_serials : string → option (list string)) (args : Args)
    (fs : FileSystem) : list (string * AKIStats) :=
  ((λ file, (file_aki file, known_entry json_serials args fs file)) <$> known_issuers args fs) ++
  ((λ file, (file_aki file, revoked_entry json_serials fs file)) <$> revoked_only args fs).

(** [akis[e.1] = e.2]. *)
Definition assign (akis : gmap string AKIStats) (e : string * AKIStats) : gmap string AKIStats :=
  <[e.1 := e.2]> akis.

(** The totals of the records of a per-issuer map, on top of [t]. *)
Definition sum_entries (t : Totals) (akis : gmap string AKIStats) : Totals :=
  map_fold (λ _ a acc, add_entry a acc) t akis.

(** The sum of one field over the records of a per-issuer map. *)
Definition sum_akis (f : AKIStats → Z) (akis : gmap string AKIStats) : Z :=
  map_fold (λ _ a acc, acc + f a) 0 akis.

(** The relations among the totals that every consistent record keeps. *)
Definition totals_consistent (r0 n0 : Z) (t : Totals) : Prop :=
  t_known t = t_knownnotrevoked t + t_knownrevoked t ∧
  0 <= t_knownnotrevoked t ∧
  0 <= t_knownrevoked t <= t_revoked t ∧
  0 <= t_nocrl t ∧
  t_revoked_certs t = r0 + t_knownrevoked t ∧
  t_nonrevoked_certs t = n0 + t_knownnotrevoked t.


(** ** Notions for what a run does to the world *)

(** The names of the files a run may write in its output directory. *)
Definition output_names (c : Cli) : list string :=
  ["keys-revoked"; "keys-valid"; "filter"; "filter.meta"; "stats.json"] ++
  match cli_previd c with
  | Some prev => ["filter." +:+ prev +:+ ".patch"]
  | None => []
  end.

Definition outputs (c : Cli) : list string := path_join (out_dir c) <$> output_names c.

(** [w'] comes from [w] by events of [allowed] only: the directory listings
    are the same, a file is changed only if writing it is allowed, no file
    is removed, and the log has grown by allowed events. *)
Definition touches (allowed : list event) (w w' : World) : Prop :=
  fs_walk (w_fs w') = fs_walk (w_fs w) ∧
  (∀ path, Wrote path ∉ allowed →
     fs_files (w_fs w') !! path = fs_files (w_fs w) !! path) ∧
  (∀ path, is_Some (fs_files (w_fs w) !! path) → is_Some (fs_files (w_fs w') !! path)) ∧
  ∃ evs, w_log w' = w_log w ++ evs ∧ ∀ e, e ∈ evs → e ∈ allowed.


(** The world after [verifyMLBF] has called [check]. *)
Definition checked (w : World) : World := mkWorld (w_fs w) (w_log w ++ [Checked]).

(** The statistics a run ends with. *)
Definition final_stats (run : World * Result Stats) : Stats :=
  match run.2 with
  | Ok stats => stats
  | Raise _ => ∅
  end.

(** The error a run ends with, if any. *)
Definition final_error (run : World * Result Stats) : option exn :=
  match run.2 with
  | Ok _ => None
  | Raise e => Some e
  end.

(** [args] with another capacity, and the command line with another
    [-capacity]. *)
Definition args_capacity (x : float) (args : Args) : Args :=
  mkArgs (id_ args) (previd args) (certPath args) (outDirName args) (knownPath args)
    (revokedPath args) x (excludeaki args) (cachekeys args) (noVerify args)
    (diffMetaFile args) (diffBaseFile args) (patchFile args) (outFile args)
    (metaFile args) (revokedKeys args) (validKeys args).

Definition set_capacity (x : float) (c : Cli) : Cli :=
  mkCli (cli_id c) (cli_previd c) (cli_certPath c) (cli_outDirName c) (cli_knownPath c)
    (cli_revokedPath c) x (cli_excludeaki c) (cli_cachekeys c) (cli_noVerify c).

(** The files a run reads when it takes the key lists from the cache: the
    two cache files and, with [-previd], the two files of that build. *)
Definition cache_reads (c : Cli) : list string :=
  [revokedKeys (parseArgs c); validKeys (parseArgs c)] ++
  match cli_previd c with
  | Some prev =>
      let dir := path_join (path_join (cli_certPath c) prev) (cli_outDirName c) in
      [path_join dir "filter.meta"; path_join dir "filter"]
  | None => []
  end.

(** Two runs, started in [w] and [w'], have come to [w1] and [w1'] by the
    same events, every file they wrote holds the same in both, and so does
    every file that did at the start. *)
Definition sync (w w' w1 w1' : World) : Prop :=
  (∀ path, fs_files (w_fs w) !! path = fs_files (w_fs w') !! path →
     fs_files (w_fs w1) !! path = fs_files (w_fs w1') !! path) ∧
  ∃ evs, w_log w1 = w_log w ++ evs ∧ w_log w1' = w_log w' ++ evs ∧
         ∀ path, Wrote path ∈ evs →
           fs_files (w_fs w1) !! path = fs_files (w_fs w1') !! path.

(** * A small instance to run the program on

    The theorems below hold for every instance of [Externals]; the examples
    need one. [parse_serials] is [json.load] on the documents the examples
    use, arrays of string literals without escapes; it refuses the rest. The
    cascade keeps what it was given and counts eight bits per included key. *)

Definition dquote : ascii := Ascii.ascii_of_nat 34.

(** The JSON text of an array of strings. *)
Definition json_array (items : list string) : string :=
  "[" +:+ String.concat "," ((λ s, String dquote (s +:+ String dquote "")) <$> items) +:+ "]".

(** The characters up to the closing quote, and what follows it. *)
Fixpoint read_literal (acc text : string) : option (string * string) :=
  match text with
  | EmptyString => None
  | String c rest =>
      if Ascii.eqb c dquote then Some (acc, rest)
      else if Ascii.eqb c (Ascii.ascii_of_nat 92) then None
      else read_literal (acc +:+ String c "") rest
  end.

(** The items of an array from its first literal on. *)
Fixpoint read_items (fuel : nat) (text : string) : option (list string) :=
  match fuel, text with
  | S fuel, String q rest =>
      if Ascii.eqb q dquote then
        match read_literal "" rest with
        | Some (item, String c rest') =>
            if String.eqb (String c rest') "]" then Some [item]
            else if Ascii.eqb c (Ascii.ascii_of_nat 44)
                 then (item ::.) <$> read_items fuel rest'
                 else None
        | _ => None
        end
      else None
  | _, _ => None
  end.

Definition parse_serials (text : string) : option (list string) :=
  match text with
  | String c rest =>
      if Ascii.eqb c (Ascii.ascii_of_nat 91) then
        if String.eqb rest "]" then Some [] else read_items (String.length rest) rest
      else None
  | EmptyString => None
  end.

Record toy_cascade := mkToy {
  toy_size : Z;
  toy_rates : list float;
  toy_version : Z;
  toy_include : list string;
  toy_exclude : list string
}.

(** A stand-in for [json.dumps]: keys come in the order of the map and not
    of insertion, and a float is written as mantissa and binary exponent. *)
Definition quoted (s : string) : string := String dquote (s +:+ String dquote "").

Definition print_object (fields : list (string * string)) : string :=
  "{" +:+ String.concat ", " ((λ kv, quoted kv.1 +:+ ": " +:+ kv.2) <$> fields) +:+ "}".

Definition print_float (x : float) : string :=
  match Prim2SF x with
  | S754_zero s => if s then "-0.0" else "0.0"
  | S754_infinity s => if s then "-Infinity" else "Infinity"
  | S754_nan => "NaN"
  | S754_finite s m e => (if s then "-" else "") +:+ pretty (Zpos m) +:+ "p" +:+ pretty e
  end.

Definition print_aki (a : AKIStats) : string :=
  print_object
    [("known", pretty (aki_known a)); ("revoked", pretty (aki_revoked a));
     ("knownnotrevoked", pretty (aki_knownnotrevoked a));
     ("knownrevoked", pretty (aki_knownrevoked a));
     ("crl", if aki_crl a then "true" else "false")].

Definition print_value (v : value) : string :=
  match v with
  | VInt n => pretty n
  | VFloats l => "[" +:+ String.concat ", " (print_float <$> l) +:+ "]"
  | VAKIs m => print_object (prod_map id print_aki <$> map_to_list m)
  end.

Definition print_stats (stats : Stats) : string :=
  print_object (prod_map id print_value <$> map_to_list stats).

Definition toy_externals : Externals := {|
  json_serials := parse_serials;
  json_dumps := print_stats;
  cascade := toy_cascade;
  cascade_with_characteristics n fprs := Some (mkToy n fprs 0 [] []);
  loadDiffMeta meta := Some (mkToy (Z.of_nat (String.length meta)) [] 0 [] []);
  set_error_rates fprs c := mkToy (toy_size c) fprs (toy_version c) (toy_include c) (toy_exclude c);
  set_version v c := mkToy (toy_size c) (toy_rates c) v (toy_include c) (toy_exclude c);
  version := toy_version;
  initialize inc exc c := Some (mkToy (toy_size c) (toy_rates c) (toy_version c) inc exc);
  layerCount c := if bool_decide (toy_include c = []) then 0 else 1;
  bitCount c := 8 * Z.of_nat (length (toy_include c));
  check inc exc c := bool_decide (inc = toy_include c ∧ exc = toy_exclude c);
  tofile c := keys_text (toy_include c);
  saveDiffMeta c := keys_text (toy_exclude c);
  file_diff old new := new
|}.

(** A file system holding [files], with the listed names under [known] and
    [revoked]. *)
Definition store (files : list (string * string)) (known revoked : list string) : FileSystem :=
  mkFS (list_to_map files)
    (λ top, if String.eqb top "known" then [("known", known)]
            else if String.eqb top "revoked" then [("revoked", revoked)]
            else []).

(** The command line [run -certPath . -knownPath known -revokedPath revoked
    -capacity 1.5], with [-cachekeys] when [cache] is set. *)
Definition example_cli (cache : bool) : Cli :=
  mkCli "run" None "." "mlbf" (Some "known") (Some "revoked") 1.5%float [] cache false.

(** The variables of [genCertLists] as its first loop finds them when [main]
    calls it. *)
Definition start : CertLists := mkCertLists (init_stats ∅) [] [] ∅.

Definition example_args : Args := parseArgs (example_cli false).

(** Issuer [A] has two known serials and an empty revocation list. *)
Definition store_empty_crl : FileSystem :=
  store [("known/A.known", json_array ["1"; "2"]); ("revoked/A.revoked", json_array [])]
    ["A.known"] ["A.revoked"].

(** Issuer [A] has two known serials and no revoked file. *)
Definition store_known_only : FileSystem :=
  store [("known/A.known", json_array ["1"; "2"])] ["A.known"] [].

(** Issuer [A2] has one revocation and no known file. *)
Definition store_revoked_only : FileSystem :=
  store [("revoked/A2.revoked", json_array ["9"])] [] ["A2.revoked"].

(** Issuers [A] and [A1]: serial 12 of the first and serial 2 of the second
    give one fingerprint; [A1] revokes its serial 2. *)
Definition store_collision : FileSystem :=
  store [("known/A.known", json_array ["12"]); ("known/A1.known", json_array ["2"]);
         ("revoked/A1.revoked", json_array ["2"])]
    ["A.known"; "A1.known"] ["A1.revoked"].

(** Issuer [A] has one known serial, and it is revoked. *)
Definition store_all_revoked : FileSystem :=
  store [("known/A.known", json_array ["1"]); ("revoked/A.revoked", json_array ["1"])]
    ["A.known"] ["A.revoked"].

(** The filter the stand-in builds from the keys of [store_known_only]: no
    key is revoked, so it has no bits. *)
Definition empty_filter : toy_cascade :=
  mkToy 0 [0%float; 0.5%float] 1 [] ["A1"; "A2"].

Definition empty_filter_stats : Stats :=
  <["mlbf_bits" := VInt 0]>
    (<["mlbf_layers" := VInt 0]>
       (<["mlbf_version" := VInt 1]>
          (<["mlbf_fprs" := VFloats [0%float; 0.5%float]]>
             (stats_of (genCertLists parse_serials example_args store_known_only ∅ [] []))))).

(** Issuer [A] has three known serials, one of them revoked; issuer [A2]
    has a revocation and no known file. *)
Definition store_two_issuers : FileSystem :=
  store [("known/A.known", json_array ["1"; "2"; "3"]); ("revoked/A.revoked", json_array ["2"]);
         ("revoked/A2.revoked", json_array ["9"])]
    ["A.known"] ["A.revoked"; "A2.revoked"].

(** The world a first run with [-cachekeys] over [store_two_issuers] leaves:
    both cache files are there. *)
Definition world_cached : World :=
  (main (E := toy_externals) (example_cli true) (mkWorld store_two_issuers [])).1.

(** Issuer [A] has a known file in each of two subdirectories of [known]. *)
Definition store_two_dirs : FileSystem :=
  mkFS (list_to_map [("known/a/A.known", json_array ["1"]);
                     ("known/b/A.known", json_array ["2"; "3"])])
    (λ top, if String.eqb top "known"
            then [("known", []); ("known/a", ["A.known"]); ("known/b", ["A.known"])]
            else []).

(** The command line [run -previd run -certPath . -knownPath known
    -revokedPath revoked -capacity 1.5]: the previous build is the build
    itself. *)
Definition example_cli_rebuild : Cli :=
  mkCli "run" (Some "run") "." "mlbf" (Some "known") (Some "revoked") 1.5%float [] false false.

(** [store_two_issuers] with the filter files of an earlier build. *)
Definition store_rebuild : FileSystem :=
  store [("known/A.known", json_array ["1"; "2"; "3"]); ("revoked/A.revoked", json_array ["2"]);
         ("./run/mlbf/filter", "old filter"); ("./run/mlbf/filter.meta", "old meta")]
    ["A.known"] ["A.revoked"].

(** The run over [store_two_issuers]. *)
Abbreviation run_two_issuers :=
  (main (E := toy_externals) (example_cli false) (mkWorld store_two_issuers [])).

(** The run with [-cachekeys] over [store_all_revoked]. *)
Abbreviation run_all_revoked :=
  (main (E := toy_externals) (example_cli true) (mkWorld store_all_revoked [])).

(** The run over [store_rebuild] that names itself as the previous build. *)
Abbreviation run_rebuild :=
  (main (E := toy_externals) example_cli_rebuild (mkWorld store_rebuild [])).

(** [world_cached] without the file of the known directory and with empty
    directory listings. *)
Definition world_cached_no_inputs : World :=
  mkWorld (mkFS (delete "known/A.known" (fs_files (w_fs world_cached))) (λ _, [])) [].

(** The filter the stand-in builds from the keys of [store_two_issuers], and
    the statistics [main] has after building it. *)
Definition filter_two_issuers : toy_cascade :=
  mkToy 1 [PrimFloat.div 1 (PrimFloat.mul (PrimFloat.sqrt 2) 2); 0.5%float] 1
    ["A2"] ["A3"; "A1"].

Definition stats_two_issuers : Stats :=
  <["mlbf_bits" := VInt 8]>
    (<["mlbf_layers" := VInt 1]>
       (<["mlbf_version" := VInt 1]>
          (<["mlbf_fprs" := VFloats (toy_rates filter_two_issuers)]>
             (stats_of (genCertLists parse_serials example_args store_two_issuers ∅ [] []))))).

(** [store_two_issuers] with a cache file for the revoked keys only. *)
Definition store_half_cached : FileSystem :=
  store [("known/A.known", json_array ["1"; "2"; "3"]); ("revoked/A.revoked", json_array ["2"]);
         ("./run/mlbf/keys-revoked", "stale")]
    ["A.known"] ["A.revoked"].

(** * Properties *)

(** ** Reading the statistics after an update *)

Section StatsLemmas.
Implicit Types (stats : Stats) (k aki : string) (f : AKIStats → AKIStats).

Lemma lookup_stat_add_eq stats k n m :
  stats !! k = Some (VInt n) → stat_add k m stats !! k = Some (VInt (n + m)).
Proof. intros H. unfold stat_add, stat_int. by rewrite H, lookup_insert_eq. Qed.

Lemma lookup_stat_add_ne stats k k' m :
  k' ≠ k → stat_add k' m stats !! k = stats !! k.
Proof. intros H. unfold stat_add. by rewrite lookup_insert_ne. Qed.

Lemma lookup_aki_update_ne stats k aki f :
  k ≠ "AKIs" → aki_update aki f stats !! k = stats !! k.
Proof. intros H. unfold aki_update. by rewrite lookup_insert_ne. Qed.

Lemma lookup_initAKIStats_ne stats k aki :
  k ≠ "AKIs" → initAKIStats stats aki !! k = stats !! k.
Proof. intros H. unfold initAKIStats. by rewrite lookup_insert_ne. Qed.

Lemma stat_akis_stat_add stats k m :
  k ≠ "AKIs" → stat_akis (stat_add k m stats) = stat_akis stats.
Proof. intros H. unfold stat_akis, stat_add. by rewrite lookup_insert_ne. Qed.

Lemma stat_akis_aki_update stats aki f :
  stat_akis (aki_update aki f stats) = alter f aki (stat_akis stats).
Proof. unfold aki_update. unfold stat_akis at 1. by rewrite lookup_insert_eq. Qed.

Lemma stat_akis_initAKIStats stats aki :
  stat_akis (initAKIStats stats aki) = <[aki := mkAKIStats 0 0 0 0 false]> (stat_akis stats).
Proof. unfold initAKIStats. unfold stat_akis at 1. by rewrite lookup_insert_eq. Qed.
End StatsLemmas.

(** Pushes a lookup of a counter, or of the per-issuer map, through the
    updates of a loop body. *)
Ltac stats_simpl :=
  repeat first
    [ rewrite lookup_stat_add_ne by discriminate
    | rewrite lookup_aki_update_ne by discriminate
    | rewrite lookup_initAKIStats_ne by discriminate
    | rewrite stat_akis_aki_update
    | rewrite stat_akis_stat_add by discriminate
    | rewrite stat_akis_initAKIStats
    | rewrite lookup_alter_eq
    | rewrite lookup_insert_eq ].

(** ** The two loops *)

Lemma walk_loop_files body walk st :
  walk_loop body walk st = foldl (λ st file, body file.1 file.2 st) st (walk_files walk).
Proof.
  unfold walk_loop, walk_files. revert st.
  induction walk as [|[path files] walk IH]; intros st; [done|].
  cbn [foldl mbind list_bind]. rewrite foldl_app, IH. f_equal.
  generalize st. clear. induction files as [|f files IH]; intros st; [done|].
  cbn. apply IH.
Qed.

Section ReconcileProps.
Variable json_serials : string → option (list string).
Variables (args : Args) (fs : FileSystem).

Lemma or_empty_truthy certlist :
  (if truthy certlist then or_empty certlist else ∅) = or_empty certlist.
Proof.
  destruct certlist as [s|]; [|done]. cbn.
  case_bool_decide; by subst.
Qed.

Lemma known_file_revoked_certs path filename st :
  revoked_certs (known_file json_serials args fs path filename st) =
  revoked_certs st ++
    (if excluded args (path, filename) then []
     else elements (known_of json_serials fs (path, filename) ∩
                    revoked_of json_serials args fs (path, filename))).
Proof.
  unfold known_file, excluded, file_aki, known_of, revoked_of. cbn [fst snd].
  case_bool_decide; [by rewrite app_nil_r|done].
Qed.

Lemma known_file_nonrevoked_certs path filename st :
  nonrevoked_certs (known_file json_serials args fs path filename st) =
  nonrevoked_certs st ++
    (if excluded args (path, filename) then []
     else elements (known_of json_serials fs (path, filename) ∖
                    revoked_of json_serials args fs (path, filename))).
Proof.
  unfold known_file, excluded, file_aki, known_of, revoked_of. cbn [fst snd].
  case_bool_decide; [by rewrite app_nil_r|done].
Qed.

Lemma revoked_file_lists path filename st :
  revoked_certs (revoked_file json_serials args fs path filename st) = revoked_certs st ∧
  nonrevoked_certs (revoked_file json_serials args fs path filename st) = nonrevoked_certs st.
Proof.
  unfold revoked_file. repeat case_bool_decide; try done.
  by destruct (getCertList _ _ _ _).
Qed.

Lemma revoked_loop_lists walk st :
  revoked_certs (walk_loop (revoked_file json_serials args fs) walk st) = revoked_certs st ∧
  nonrevoked_certs (walk_loop (revoked_file json_serials args fs) walk st) = nonrevoked_certs st.
Proof.
  rewrite walk_loop_files. revert st.
  induction (walk_files walk) as [|[path filename] files IH]; intros st; [done|].
  cbn [foldl fst snd]. destruct (IH (revoked_file json_serials args fs path filename st)) as [-> ->].
  apply revoked_file_lists.
Qed.

Lemma known_loop_lists files st :
  let st' := foldl (λ st file, known_file json_serials args fs file.1 file.2 st) st files in
  let kept := filter (λ file, excluded args file = false) files in
  let known := known_of json_serials fs in
  let rev := revoked_of json_serials args fs in
  revoked_certs st' =
    revoked_certs st ++ (file ← kept; elements (known file ∩ rev file)) ∧
  nonrevoked_certs st' =
    nonrevoked_certs st ++ (file ← kept; elements (known file ∖ rev file)).
Proof.
  cbn zeta. revert st. induction files as [|[path filename] files IH]; intros st.
  { cbn. by rewrite !app_nil_r. }
  cbn [foldl fst snd]. destruct (IH (known_file json_serials args fs path filename st)) as [-> ->].
  rewrite known_file_revoked_certs, known_file_nonrevoked_certs, filter_cons.
  destruct (excluded args (path, filename)) eqn:Hex.
  - rewrite decide_False by done. by rewrite !app_nil_r.
  - rewrite decide_True by done. cbn [mbind list_bind]. by rewrite <- !app_assoc.
Qed.

End ReconcileProps.

(** ** Reconciliation: what enters the two sequences *)

Lemma genCertLists_lists
    (json_serials : string → option (list string)) (args : Args) (fs : FileSystem)
    (stats : Stats) (revoked nonrevoked : list string) :
  let st := genCertLists json_serials args fs stats revoked nonrevoked in
  let known := known_of json_serials fs in
  let rev := revoked_of json_serials args fs in
  revoked_certs st =
    revoked ++ (file ← known_issuers args fs; elements (known file ∩ rev file)) ∧
  nonrevoked_certs st =
    nonrevoked ++ (file ← known_issuers args fs; elements (known file ∖ rev file)).
Proof.
  cbn zeta. unfold genCertLists.
  match goal with
  | |- context [walk_loop (revoked_file _ _ _) ?w ?s] =>
      destruct (revoked_loop_lists json_serials args fs w s) as [-> ->]
  end.
  rewrite walk_loop_files.
  match goal with
  | |- context [foldl _ ?s ?l] =>
      destruct (known_loop_lists json_serials args fs l s) as [-> ->]
  end.
  done.
Qed.

(** C1: the revoked sequence [genCertLists] leaves is the one it was given
    followed by, for every file of the known directory whose issuer is not
    excluded and in the order of the walk, the members of known ∩ revoked of
    that issuer; the non-revoked sequence is extended in the same way by the
    members of known − revoked (a set that does not load counting as empty).
    Nothing else enters either sequence. *)
Theorem genCertLists_sequences
    (json_serials : string → option (list string)) (args : Args) (fs : FileSystem)
    (stats : Stats) (revoked nonrevoked : list string) :
  let st := genCertLists json_serials args fs stats revoked nonrevoked in
  let known := known_of json_serials fs in
  let rev := revoked_of json_serials args fs in
  (revoked_certs st =
     revoked ++ (file ← known_issuers args fs; elements (known file ∩ rev file)) ∧
   nonrevoked_certs st =
     nonrevoked ++ (file ← known_issuers args fs; elements (known file ∖ rev file))) ∧
  (∀ x, x ∈ revoked_certs st ↔
        x ∈ revoked ∨
        ∃ file, file ∈ known_issuers args fs ∧ x ∈ known file ∧ x ∈ rev file) ∧
  (∀ x, x ∈ nonrevoked_certs st ↔
        x ∈ nonrevoked ∨
        ∃ file, file ∈ known_issuers args fs ∧ x ∈ known file ∧ x ∉ rev file).
Proof.
  cbn zeta.
  destruct (genCertLists_lists json_serials args fs stats revoked nonrevoked) as [-> ->].
  split; [done|].
  split; intros x; rewrite elem_of_app, list_elem_of_bind.
  - split; (intros [?|[file H]]; [by left|right; exists file]).
    + rewrite elem_of_elements, elem_of_intersection in H. tauto.
    + rewrite elem_of_elements, elem_of_intersection. tauto.
  - split; (intros [?|[file H]]; [by left|right; exists file]).
    + rewrite elem_of_elements, elem_of_difference in H. tauto.
    + rewrite elem_of_elements, elem_of_difference. tauto.
Qed.

(** ** Reconciliation: issuers without a usable revocation list *)

Section KnownFile.
Variable json_serials : string → option (list string).
Variables (args : Args) (fs : FileSystem) (path filename : string) (st : CertLists).

Let aki := splitext_root filename.
Let st' := known_file json_serials args fs path filename st.
Let known := known_of json_serials fs (path, filename).

(** What the loop body does when the revoked list is false in the test
    [if revlist:], that is for [None] and for the empty set. *)
Lemma known_file_falsy_revlist n :
  aki ∉ excludeaki args →
  truthy (getCertList json_serials fs
            (path_join (revokedPath args) (aki +:+ ".revoked")) aki) = false →
  stats_of st !! "nocrl" = Some (VInt n) →
  stats_of st' !! "nocrl" = Some (VInt (n + 1)) ∧
  stat_akis (stats_of st') !! aki =
    Some (mkAKIStats (Z.of_nat (size known)) 0 (Z.of_nat (size known)) 0 false) ∧
  revoked_certs st' = revoked_certs st ∧
  nonrevoked_certs st' = nonrevoked_certs st ++ elements known ∧
  aki ∈ processedAKIs st'.
Proof.
  intros Hex Hrev Hn. subst st' known. unfold known_file, known_of.
  cbn [fst snd file_aki]. fold aki. rewrite bool_decide_eq_false_2 by done.
  cbn zeta. rewrite Hrev.
  assert (or_empty (getCertList json_serials fs
            (path_join (revokedPath args) (aki +:+ ".revoked")) aki) = ∅) as ->.
  { destruct (getCertList _ _ _ aki) as [s|]; [|done]. cbn in Hrev |- *.
    by case_bool_decide. }
  cbn [stats_of revoked_certs nonrevoked_certs processedAKIs].
  rewrite intersection_empty_r_L, difference_empty_L, elements_empty, app_nil_r, size_empty.
  split_and!; [| |done|done|set_solver].
  - destruct (truthy (getCertList _ _ (path_join path filename) _)); stats_simpl;
      by rewrite (lookup_stat_add_eq _ _ n) by (by stats_simpl).
  - by destruct (truthy (getCertList _ _ (path_join path filename) _)); stats_simpl.
Qed.
End KnownFile.

(** C3, on the code: an issuer of the known directory whose revoked file
    exists and parses to an empty list is recorded without a CRL. The
    per-issuer [crl] stays [False] and [nocrl] grows by one; the revoked count
    is 0 and the whole known set goes to the non-revoked sequence. *)
Theorem known_file_empty_revoked_list
    (json_serials : string → option (list string)) (args : Args) (fs : FileSystem)
    (path filename text : string) (st : CertLists) (n : Z) :
  let aki := splitext_root filename in
  let st' := known_file json_serials args fs path filename st in
  let known := known_of json_serials fs (path, filename) in
  aki ∉ excludeaki args →
  fs_files fs !! path_join (revokedPath args) (aki +:+ ".revoked") = Some text →
  json_serials text = Some [] →
  stats_of st !! "nocrl" = Some (VInt n) →
  aki_crl <$> stat_akis (stats_of st') !! aki = Some false ∧
  aki_revoked <$> stat_akis (stats_of st') !! aki = Some 0 ∧
  stats_of st' !! "nocrl" = Some (VInt (n + 1)) ∧
  nonrevoked_certs st' = nonrevoked_certs st ++ elements known.
Proof.
  cbn zeta. intros Hex Hfile Hparse Hn.
  destruct (known_file_falsy_revlist json_serials args fs path filename st n)
    as (H1 & H2 & _ & H4 & _); [done| |done|].
  { unfold getCertList. by rewrite Hfile, Hparse. }
  by rewrite H2.
Qed.

(** C4: an issuer of the known directory whose revoked set does not load
    adds exactly one to [nocrl], is reconciled against the empty set, so that
    its whole known set is appended to the non-revoked sequence and nothing
    to the revoked one, and is marked processed, after which the loop over
    the revoked directory does nothing for it. *)
Theorem known_file_without_crl
    (json_serials : string → option (list string)) (args : Args) (fs : FileSystem)
    (path filename : string) (st : CertLists) (n : Z) :
  let aki := splitext_root filename in
  let st' := known_file json_serials args fs path filename st in
  let known := known_of json_serials fs (path, filename) in
  aki ∉ excludeaki args →
  getCertList json_serials fs (path_join (revokedPath args) (aki +:+ ".revoked")) aki = None →
  stats_of st !! "nocrl" = Some (VInt n) →
  stats_of st' !! "nocrl" = Some (VInt (n + 1)) ∧
  revoked_certs st' = revoked_certs st ∧
  nonrevoked_certs st' = nonrevoked_certs st ++ elements known ∧
  (∀ x, x ∈ known → x ∈ nonrevoked_certs st') ∧
  aki ∈ processedAKIs st' ∧
  (∀ path2 filename2 st2,
     splitext_root filename2 = aki → aki ∈ processedAKIs st2 →
     revoked_file json_serials args fs path2 filename2 st2 = st2).
Proof.
  cbn zeta. intros Hex Hrev Hn.
  destruct (known_file_falsy_revlist json_serials args fs path filename st n)
    as (H1 & _ & H3 & H4 & H5); [done| |done|].
  { by rewrite Hrev. }
  split_and!; try done.
  - intros x Hx. rewrite H4, elem_of_app, elem_of_elements. by right.
  - intros path2 filename2 st2 Haki Hin. unfold revoked_file. rewrite Haki.
    case_bool_decide; [done|]. by rewrite bool_decide_eq_true_2.
Qed.

(** C5: a file of the revoked directory whose issuer was not processed in
    the first loop (it has no known file) and is not excluded changes
    neither sequence. When it loads, its size is added to [revoked] and the
    issuer's [crl] is set; when it does not, [nocrl] grows by one. The whole
    second loop leaves both sequences as the first loop left them. *)
Theorem revoked_file_without_known
    (json_serials : string → option (list string)) (args : Args) (fs : FileSystem)
    (path filename : string) (st : CertLists) (r n : Z) :
  let aki := splitext_root filename in
  let st' := revoked_file json_serials args fs path filename st in
  aki ∉ excludeaki args →
  aki ∉ processedAKIs st →
  stats_of st !! "revoked" = Some (VInt r) →
  stats_of st !! "nocrl" = Some (VInt n) →
  (revoked_certs st' = revoked_certs st ∧ nonrevoked_certs st' = nonrevoked_certs st) ∧
  match getCertList json_serials fs (path_join path filename) aki with
  | Some revlist =>
      stats_of st' !! "revoked" = Some (VInt (r + Z.of_nat (size revlist))) ∧
      stats_of st' !! "nocrl" = Some (VInt n) ∧
      stat_akis (stats_of st') !! aki =
        Some (mkAKIStats 0 (Z.of_nat (size revlist)) 0 0 true)
  | None =>
      stats_of st' !! "revoked" = Some (VInt r) ∧
      stats_of st' !! "nocrl" = Some (VInt (n + 1)) ∧
      stat_akis (stats_of st') !! aki = Some (mkAKIStats 0 0 0 0 false)
  end ∧
  (∀ walk st0,
     let st1 := walk_loop (revoked_file json_serials args fs) walk st0 in
     revoked_certs st1 = revoked_certs st0 ∧ nonrevoked_certs st1 = nonrevoked_certs st0).
Proof.
  cbn zeta. intros Hex Hproc Hr Hn.
  split; [apply revoked_file_lists|].
  split; [|intros walk st0; apply revoked_loop_lists].
  unfold revoked_file.
  rewrite !bool_decide_eq_false_2 by done.
  destruct (getCertList json_serials fs (path_join path filename) _) as [revlist|];
    cbn [stats_of].
  - split_and!; stats_simpl; try done.
    by rewrite (lookup_stat_add_eq _ _ r) by (by stats_simpl).
  - split_and!; stats_simpl; try done.
    by rewrite (lookup_stat_add_eq _ _ n) by (by stats_simpl).
Qed.

(** *** Concrete runs of the loop bodies *)

Lemma known_file_empty_revoked_list_witness :
  let st' := known_file parse_serials example_args store_empty_crl "known" "A.known" start in
  aki_crl <$> stat_akis (stats_of st') !! "A" = Some false ∧
  stats_of st' !! "nocrl" = Some (VInt 1).
Proof.
  cbn zeta.
  destruct (known_file_empty_revoked_list parse_serials example_args store_empty_crl
              "known" "A.known" (json_array []) start 0) as (H1 & _ & H3 & _).
  - apply not_elem_of_nil.
  - reflexivity.
  - reflexivity.
  - reflexivity.
  - split; [exact H1|exact H3].
Defined.

(** The whole of [genCertLists] on that store: [A] is listed without a CRL
    although [A.revoked] exists. *)
Example genCertLists_empty_crl :
  let st := genCertLists parse_serials example_args store_empty_crl ∅ [] [] in
  stat_akis (stats_of st) !! "A" = Some (mkAKIStats 2 0 2 0 false) ∧
  stats_of st !! "nocrl" = Some (VInt 1).
Proof. by vm_compute. Qed.

(** The second loop tells an empty list from no list: the same empty file
    under an issuer without a known file is recorded as a CRL. *)
Example genCertLists_empty_crl_revoked_only :
  let fs := store [("revoked/A.revoked", json_array [])] [] ["A.revoked"] in
  let st := genCertLists parse_serials example_args fs ∅ [] [] in
  stat_akis (stats_of st) !! "A" = Some (mkAKIStats 0 0 0 0 true) ∧
  stats_of st !! "nocrl" = Some (VInt 0).
Proof. by vm_compute. Qed.

Lemma known_file_without_crl_witness :
  let st' := known_file parse_serials example_args store_known_only "known" "A.known" start in
  stats_of st' !! "nocrl" = Some (VInt 1) ∧
  revoked_certs st' = [] ∧
  "A1" ∈ nonrevoked_certs st' ∧ "A2" ∈ nonrevoked_certs st'.
Proof.
  cbn zeta.
  destruct (known_file_without_crl parse_serials example_args store_known_only
              "known" "A.known" start 0) as (H1 & H2 & _ & H4 & _).
  - apply not_elem_of_nil.
  - reflexivity.
  - reflexivity.
  - split_and!; [exact H1|exact H2| |]; apply H4; apply (bool_decide_unpack _); by vm_compute.
Defined.

Lemma revoked_file_without_known_witness :
  let st' := revoked_file parse_serials example_args store_revoked_only
               "revoked" "A2.revoked" start in
  revoked_certs st' = [] ∧ nonrevoked_certs st' = [] ∧
  stats_of st' !! "revoked" = Some (VInt 1) ∧
  stat_akis (stats_of st') !! "A2" = Some (mkAKIStats 0 1 0 0 true).
Proof.
  cbn zeta.
  destruct (revoked_file_without_known parse_serials example_args store_revoked_only
              "revoked" "A2.revoked" start 0 0) as ((H1 & H2) & H3 & _).
  - apply not_elem_of_nil.
  - apply not_elem_of_empty.
  - reflexivity.
  - reflexivity.
  - change (getCertList parse_serials store_revoked_only
              (path_join "revoked" "A2.revoked") (splitext_root "A2.revoked"))
      with (Some ({["A29"]} : gset string)) in H3.
    destruct H3 as (H3 & _ & H5).
    split_and!; [exact H1|exact H2|exact H3|exact H5].
Defined.

(** ** Reconciliation: disjoint sequences without duplicates *)

Lemma append_cons (c : ascii) (a s : string) : String c a +:+ s = String c (a +:+ s).
Proof. reflexivity. Qed.

Lemma append_nil_l (s : string) : "" +:+ s = s.
Proof. reflexivity. Qed.

Lemma append_nil_r (s : string) : s +:+ "" = s.
Proof. induction s as [|c s IH]; [done|]. by rewrite append_cons, IH. Qed.

Lemma prefix_append (a s : string) : String.prefix a (a +:+ s) = true.
Proof.
  induction a as [|c a IH]; [by destruct s|].
  rewrite append_cons. cbn. destruct (Ascii.ascii_dec c c); [apply IH|done].
Qed.

Lemma append_eq_prefix (a1 a2 s1 s2 : string) :
  a1 +:+ s1 = a2 +:+ s2 → String.prefix a1 a2 = true ∨ String.prefix a2 a1 = true.
Proof.
  revert a2. induction a1 as [|c1 a1 IH]; intros a2 H; [left; by destruct a2|].
  destruct a2 as [|c2 a2]; [by right|].
  rewrite !append_cons in H. injection H as -> H. cbn.
  destruct (Ascii.ascii_dec c2 c2); [by apply IH|done].
Qed.

Lemma prefix_free_inj {A} (key : A → string) (l : list A) :
  prefix_free (key <$> l) = true →
  NoDup l ∧
  ∀ x1 x2, x1 ∈ l → x2 ∈ l → String.prefix (key x1) (key x2) = true → x1 = x2.
Proof.
  induction l as [|x l IH]; cbn [fmap list_fmap prefix_free].
  { intros _. split; [constructor|]. intros ?? H. by apply elem_of_nil in H. }
  intros [Hall Hfree]%andb_prop. destruct (IH Hfree) as [Hnd Hinj].
  rewrite forallb_forall in Hall.
  assert (∀ y, y ∈ l →
            String.prefix (key x) (key y) = false ∧ String.prefix (key y) (key x) = false)
    as Hx.
  { intros y Hy.
    assert (In (key y) (key <$> l)) as Hin.
    { apply list_elem_of_In, list_elem_of_fmap. by exists y. }
    apply Hall in Hin. apply andb_prop in Hin as [H1 H2].
    by destruct (String.prefix (key x) (key y)), (String.prefix (key y) (key x)). }
  split.
  - constructor; [|done]. intros Hin. destruct (Hx x Hin) as [H _].
    pose proof (prefix_append (key x) "") as Hp.
    rewrite append_nil_r in Hp. congruence.
  - intros x1 x2 [->|H1]%elem_of_cons [->|H2]%elem_of_cons Hp; [done| | |by apply Hinj].
    + destruct (Hx x2 H2). congruence.
    + destruct (Hx x1 H1). congruence.
Qed.

Section Disjoint.
Variable json_serials : string → option (list string).
Variables (args : Args) (fs : FileSystem).

Lemma getCertList_prefix certpath aki s x :
  getCertList json_serials fs certpath aki = Some s → x ∈ s → ∃ serial, x = aki +:+ serial.
Proof.
  unfold getCertList. destruct (fs_files fs !! certpath) as [text|]; [|done].
  destruct (json_serials text) as [serials|]; [|done].
  intros [= <-]. rewrite elem_of_list_to_set, list_elem_of_fmap.
  intros (serial & -> & _). by exists serial.
Qed.

Lemma known_of_prefix file x :
  x ∈ known_of json_serials fs file → ∃ serial, x = file_aki file +:+ serial.
Proof.
  unfold known_of, or_empty.
  destruct (getCertList _ _ _ _) as [s|] eqn:H; cbn; [|by intros ?%not_elem_of_empty].
  by apply getCertList_prefix with (1 := H).
Qed.

(** A fingerprint found in the known sets of two listed files comes from one
    file when no identifier is a prefix of another. *)
Lemma known_of_owner files f1 f2 x :
  prefix_free (file_aki <$> files) = true →
  f1 ∈ files → f2 ∈ files →
  x ∈ known_of json_serials fs f1 → x ∈ known_of json_serials fs f2 → f1 = f2.
Proof.
  intros [_ Hinj]%prefix_free_inj H1 H2 (s1 & ->)%known_of_prefix (s2 & Heq)%known_of_prefix.
  destruct (append_eq_prefix _ _ _ _ Heq); [by apply Hinj|symmetry; by apply Hinj].
Qed.
End Disjoint.

(** C2, as the code has it: when no issuer identifier enumerated from the
    known directory (and not excluded) is a prefix of another one's, which
    includes that no identifier is listed twice, the two sequences
    reconciled from empty ones have no duplicates and share no
    fingerprint. *)
Theorem genCertLists_disjoint_nodup
    (json_serials : string → option (list string)) (args : Args) (fs : FileSystem)
    (stats : Stats) :
  prefix_free (file_aki <$> known_issuers args fs) = true →
  let st := genCertLists json_serials args fs stats [] [] in
  NoDup (revoked_certs st) ∧
  NoDup (nonrevoked_certs st) ∧
  ∀ x, x ∈ revoked_certs st → x ∉ nonrevoked_certs st.
Proof.
  intros Hfree. cbn zeta.
  destruct (genCertLists_lists json_serials args fs stats [] []) as [-> ->].
  cbn [app]. pose proof (prefix_free_inj _ _ Hfree) as [Hnd _].
  split_and!.
  - apply NoDup_bind; [|intros; apply NoDup_elements|done].
    intros f1 f2 x H1 H2 [Hx1 _]%elem_of_elements%elem_of_intersection
      [Hx2 _]%elem_of_elements%elem_of_intersection.
    by eapply known_of_owner.
  - apply NoDup_bind; [|intros; apply NoDup_elements|done].
    intros f1 f2 x H1 H2 [Hx1 _]%elem_of_elements%elem_of_difference
      [Hx2 _]%elem_of_elements%elem_of_difference.
    by eapply known_of_owner.
  - intros x (f1 & [Hx1 Hr1]%elem_of_elements%elem_of_intersection & H1)%list_elem_of_bind
      (f2 & [Hx2 Hr2]%elem_of_elements%elem_of_difference & H2)%list_elem_of_bind.
    assert (f1 = f2) as -> by by eapply known_of_owner.
    done.
Qed.

(** C2 fails as stated: on [store_collision] the fingerprint [A12] is in
    both sequences. *)
Lemma genCertLists_not_disjoint :
  ¬ (∀ (json_serials : string → option (list string)) (args : Args) (fs : FileSystem),
       let st := genCertLists json_serials args fs ∅ [] [] in
       NoDup (revoked_certs st) ∧ NoDup (nonrevoked_certs st) ∧
       ∀ x, x ∈ revoked_certs st → x ∉ nonrevoked_certs st).
Proof.
  intros H. destruct (H parse_serials example_args store_collision) as (_ & _ & Hdisj).
  apply (Hdisj "A12"); apply (bool_decide_unpack _); by vm_compute.
Qed.

(** Nor are duplicates excluded: with serial 12 of [A] and serial 2 of [A1]
    both unrevoked, the non-revoked sequence holds [A12] twice. *)
Example genCertLists_duplicate :
  let fs := store [("known/A.known", json_array ["12"]); ("known/A1.known", json_array ["2"])]
              ["A.known"; "A1.known"] [] in
  nonrevoked_certs (genCertLists parse_serials example_args fs ∅ [] []) = ["A12"; "A12"].
Proof. by vm_compute. Qed.

Lemma genCertLists_disjoint_nodup_witness :
  let fs := store [("known/AA.known", json_array ["1"; "2"]); ("known/AB.known", json_array ["1"]);
                   ("revoked/AA.revoked", json_array ["2"])]
              ["AA.known"; "AB.known"] ["AA.revoked"] in
  let st := genCertLists parse_serials example_args fs ∅ [] [] in
  NoDup (revoked_certs st) ∧ NoDup (nonrevoked_certs st) ∧
  ∀ x, x ∈ revoked_certs st → x ∉ nonrevoked_certs st.
Proof.
  cbn zeta. apply genCertLists_disjoint_nodup. by vm_compute.
Defined.

(** ** Paths of the output files *)

Lemma append_assoc (a b c : string) : (a +:+ b) +:+ c = a +:+ (b +:+ c).
Proof. induction a as [|x a IH]; [done|]. by rewrite !append_cons, IH. Qed.

Lemma append_inv_head (a b b' : string) : a +:+ b = a +:+ b' → b = b'.
Proof.
  induction a as [|x a IH]; [done|]. rewrite !append_cons. intros [= H]. by apply IH.
Qed.

Lemma path_join_relative (a b : string) :
  startswith_char slash b = false → path_join a b = path_pre a +:+ b.
Proof.
  intros H. unfold path_join, path_pre. rewrite H.
  destruct (orb _ _); [done|]. by rewrite append_assoc.
Qed.

Lemma path_join_ne (a b b' : string) :
  startswith_char slash b = false → startswith_char slash b' = false →
  b ≠ b' → path_join a b ≠ path_join a b'.
Proof.
  intros H H' Hne. rewrite !path_join_relative by done.
  intros Heq. by apply Hne, (append_inv_head (path_pre a)).
Qed.

Lemma keys_paths_differ (c : Cli) : revokedKeys (parseArgs c) ≠ validKeys (parseArgs c).
Proof. cbn. by apply path_join_ne. Qed.

(** ** Running computations *)

Lemma bind_run {A B} (m : M A) (f : A → M B) (w : World) :
  (m ≫= f) w =
  match m w with
  | (w', Ok a) => f a w'
  | (w', Raise e) => (w', Raise e)
  end.
Proof. reflexivity. Qed.

Lemma bind_ok {A B} (m : M A) (f : A → M B) (w w' : World) (a : A) :
  m w = (w', Ok a) → (m ≫= f) w = f a w'.
Proof. intros H. by rewrite bind_run, H. Qed.

Lemma bind_raise {A B} (m : M A) (f : A → M B) (w w' : World) (e : exn) :
  m w = (w', Raise e) → (m ≫= f) w = (w', Raise e).
Proof. intros H. by rewrite bind_run, H. Qed.

Lemma read_file_some (path text : string) (w : World) :
  fs_files (w_fs w) !! path = Some text → read_file path w = (w, Ok text).
Proof. intros H. unfold read_file. by rewrite H. Qed.

Lemma write_file_run (path text : string) (w : World) :
  write_file path text w = (written path text w, Ok ()).
Proof. reflexivity. Qed.

(** Unfolds the plumbing of [M] in the goal. *)
Ltac run :=
  cbv [mbind M_bind mret M_ret read_file write_file lift get_fs raise emit].

Lemma saveCertLists_run (args : Args) (revoked nonrevoked : list string) (w : World) :
  saveCertLists args revoked nonrevoked w =
  (written (validKeys args) (keys_text nonrevoked)
     (written (revokedKeys args) (keys_text revoked) w), Ok ()).
Proof. reflexivity. Qed.

(** ** The key-list cache reads back what was written *)

Lemma readlines_key (cur key rest : string) :
  one_line key →
  readlines cur (key +:+ String LF rest) = (cur +:+ key +:+ String LF "") :: readlines "" rest.
Proof.
  revert cur. induction key as [|c key IH]; intros cur [Hlf Hcr].
  - by rewrite !append_nil_l.
  - cbn in Hlf, Hcr. apply orb_false_elim in Hlf as [Hc1 Hlf], Hcr as [Hc2 Hcr].
    rewrite append_cons. cbn [readlines]. rewrite Hc1, Hc2.
    rewrite IH by done. by rewrite !append_assoc.
Qed.

Lemma length_append (a b : string) :
  String.length (a +:+ b) = (String.length a + String.length b)%nat.
Proof. induction a as [|x a IH]; [done|]. rewrite append_cons. cbn. by rewrite IH. Qed.

Lemma chop_line (key : string) : chop (key +:+ String LF "") = key.
Proof.
  unfold chop. induction key as [|c key IH]; [done|].
  rewrite append_cons. cbn [String.length].
  replace (S (String.length (key +:+ String LF "")) - 1)%nat
    with (S (String.length (key +:+ String LF "") - 1)).
  - cbn [substring]. by rewrite IH.
  - rewrite length_append. cbn. lia.
Qed.

Lemma text_keys_keys_text (keys : list string) :
  Forall one_line keys → text_keys (keys_text keys) = keys.
Proof.
  unfold text_keys. induction 1 as [|key keys Hkey _ IH]; [done|].
  cbn [keys_text foldr]. rewrite readlines_key by done.
  rewrite append_nil_l, fmap_cons, chop_line. f_equal. apply IH.
Qed.

(** C6: for keys that hold no line terminator (LF or CR, the ones reading in
    text mode ends a line at), what [loadCertLists] reads from the two files
    [saveCertLists] wrote is the two sequences that were saved, element for
    element and in order. *)
Theorem cache_round_trip (c : Cli) (revoked nonrevoked : list string) (w : World) :
  Forall one_line revoked →
  Forall one_line nonrevoked →
  let args := parseArgs c in
  let saved := saveCertLists args revoked nonrevoked w in
  (text_keys (keys_text revoked) = revoked ∧
   text_keys (keys_text nonrevoked) = nonrevoked) ∧
  saved.2 = Ok () ∧
  loadCertLists args saved.1 = (saved.1, Ok (revoked, nonrevoked)).
Proof.
  intros Hr Hn. cbn zeta.
  split; [by split; apply text_keys_keys_text|].
  split; [done|].
  rewrite saveCertLists_run. cbn [fst snd]. unfold loadCertLists.
  erewrite bind_ok.
  2:{ apply read_file_some. cbn.
      rewrite lookup_insert_ne by (symmetry; apply keys_paths_differ).
      apply lookup_insert_eq. }
  erewrite bind_ok by apply read_file_some, lookup_insert_eq.
  by rewrite !text_keys_keys_text.
Qed.

Lemma cache_round_trip_witness :
  let args := parseArgs (example_cli true) in
  let saved := saveCertLists args ["A12"; ""] ["A11"; "A13"] (mkWorld store_known_only []) in
  loadCertLists args saved.1 = (saved.1, Ok (["A12"; ""], ["A11"; "A13"])).
Proof.
  cbn zeta.
  apply (cache_round_trip (example_cli true) ["A12"; ""] ["A11"; "A13"]
           (mkWorld store_known_only [])).
  - repeat constructor.
  - repeat constructor.
Defined.

(** A key with a carriage return does not survive: it is read back as two
    keys. *)
Example cache_splits_at_CR :
  text_keys (keys_text ["A" +:+ String CR "1"]) = ["A"; "1"].
Proof. reflexivity. Qed.

(** ** Binary64 arithmetic: a product that is not zero

    The kernel's floats are specified by [SpecFloat]; the lemmas of this
    section follow a positive mantissa through the rounding of
    [binary_round_aux]. *)

Section Rounding.
Variables prec emax : Z.
Hypothesis prec_pos : 0 < prec.

Lemma shr_1_half (mrs : shr_record) :
  0 <= shr_m mrs -> shr_m (shr_1 mrs) = shr_m mrs / 2.
Proof.
  destruct mrs as [[|[p|p|]|p] r s]; cbn [shr_1 shr_m]; intros H; try lia.
  - reflexivity.
  - rewrite (Pos2Z.inj_xI p). apply Z.div_unique with 1; lia.
  - rewrite (Pos2Z.inj_xO p). apply Z.div_unique with 0; lia.
  - reflexivity.
Qed.

Lemma shr_iter (p : positive) (mrs : shr_record) :
  0 <= shr_m mrs -> shr_m (SpecFloat.iter_pos shr_1 p mrs) = shr_m mrs / 2 ^ Zpos p.
Proof.
  revert mrs. induction p as [p IH|p IH|]; intros mrs H; cbn [SpecFloat.iter_pos].
  - assert (0 <= shr_m (shr_1 mrs)) as H1 by (rewrite shr_1_half by done; apply Z.div_pos; lia).
    assert (0 <= shr_m (SpecFloat.iter_pos shr_1 p (shr_1 mrs))) as H2
      by (rewrite IH by done; apply Z.div_pos; [done|apply Z.pow_pos_nonneg; lia]).
    rewrite IH, IH, shr_1_half by done.
    rewrite !Z.div_div by (try apply Z.pow_pos_nonneg; lia).
    f_equal. rewrite (Pos2Z.inj_xI p).
    replace (2 * Zpos p + 1) with (1 + Zpos p + Zpos p) by lia.
    rewrite !Z.pow_add_r by lia. lia.
  - assert (0 <= shr_m (SpecFloat.iter_pos shr_1 p mrs)) as H2
      by (rewrite IH by done; apply Z.div_pos; [done|apply Z.pow_pos_nonneg; lia]).
    rewrite IH, IH by done.
    rewrite !Z.div_div by (try apply Z.pow_pos_nonneg; lia).
    f_equal. rewrite (Pos2Z.inj_xO p).
    replace (2 * Zpos p) with (Zpos p + Zpos p) by lia.
    rewrite !Z.pow_add_r by lia. lia.
  - rewrite shr_1_half by done. done.
Qed.

Lemma digits2_lower (m : positive) : 2 ^ (Zpos (digits2_pos m) - 1) <= Zpos m.
Proof.
  induction m as [m IH|m IH|]; cbn [digits2_pos]; [| |done].
  - rewrite Pos2Z.inj_succ, (Pos2Z.inj_xI m).
    replace (Z.succ (Zpos (digits2_pos m)) - 1) with (1 + (Zpos (digits2_pos m) - 1)) by lia.
    rewrite Z.pow_add_r by lia. lia.
  - rewrite Pos2Z.inj_succ, (Pos2Z.inj_xO m).
    replace (Z.succ (Zpos (digits2_pos m)) - 1) with (1 + (Zpos (digits2_pos m) - 1)) by lia.
    rewrite Z.pow_add_r by lia. lia.
Qed.

Lemma shr_record_of_loc_m (m : Z) (l : location) : shr_m (shr_record_of_loc m l) = m.
Proof. by destruct l as [|[]]. Qed.

(** Shifting a positive mantissa to its format exponent leaves it positive
    when the exponent is not below the least one. *)
Lemma shr_fexp_positive (m : positive) (e : Z) (l : location) :
  SpecFloat.emin prec emax <= e ->
  exists m' r s e',
    shr_fexp prec emax (Zpos m) e l = (Build_shr_record (Zpos m') r s, e') /\ e <= e'.
Proof.
  intros He. unfold shr_fexp, shr. cbn [Zdigits2].
  set (n := fexp prec emax (Zpos (digits2_pos m) + e) - e).
  assert (n < Zpos (digits2_pos m)) as Hn by (subst n; unfold fexp; lia).
  destruct n as [|p|p] eqn:En.
  - exists m. destruct l as [|[]]; cbn; do 3 eexists; (split; [reflexivity|lia]).
  - pose proof (shr_iter p (shr_record_of_loc (Zpos m) l)) as Hm.
    rewrite shr_record_of_loc_m in Hm. specialize (Hm ltac:(lia)).
    assert (0 < Zpos m / 2 ^ Zpos p) as Hpos.
    { apply Z.div_str_pos. split; [apply Z.pow_pos_nonneg; lia|].
      etransitivity; [|apply digits2_lower]. apply Z.pow_le_mono_r; lia. }
    destruct (SpecFloat.iter_pos shr_1 p (shr_record_of_loc (Zpos m) l)) as [m' r s].
    cbn [shr_m] in Hm. destruct m' as [|m'|m']; try lia.
    exists m', r, s, (e + Zpos p). split; [reflexivity|lia].
  - exists m. destruct l as [|[]]; cbn; do 3 eexists; (split; [reflexivity|lia]).
Qed.

Lemma round_nearest_even_positive (m : positive) (l : location) :
  exists m', round_nearest_even (Zpos m) l = Zpos m'.
Proof.
  destruct l as [|[]]; cbn [round_nearest_even]; try (destruct (Z.even (Zpos m)));
    first [by exists m | by exists (m + 1)%positive].
Qed.

(** Rounding a positive mantissa whose exponent is not below the least one
    gives a finite number with an exponent that is not smaller, or an
    infinity; never a zero. *)
Lemma binary_round_aux_positive (sx : bool) (m : positive) (e : Z) (l : location) :
  SpecFloat.emin prec emax <= e ->
  (exists m' e', binary_round_aux prec emax sx (Zpos m) e l = S754_finite sx m' e' /\ e <= e') \/
  binary_round_aux prec emax sx (Zpos m) e l = S754_infinity sx.
Proof.
  intros He. unfold binary_round_aux.
  destruct (shr_fexp_positive m e l He) as (m1 & r1 & s1 & e1 & -> & He1).
  cbn [shr_m].
  destruct (round_nearest_even_positive m1 (loc_of_shr_record (Build_shr_record (Zpos m1) r1 s1)))
    as [m2 ->].
  destruct (shr_fexp_positive m2 e1 loc_Exact ltac:(lia)) as (m3 & r3 & s3 & e3 & -> & He3).
  cbn [shr_m]. destruct (e3 <=? emax - prec); [left|by right].
  exists m3, e3. split; [done|lia].
Qed.
End Rounding.

(** The float of a positive integer below [2^63] is finite with an exponent
    of at least -52, or infinite. *)
Lemma float_of_int_positive (n : Z) :
  0 < n < 2 ^ 63 →
  (∃ m e, Prim2SF (float_of_int n) = S754_finite false m e ∧ -52 <= e) ∨
  Prim2SF (float_of_int n) = S754_infinity false.
Proof.
  intros Hn. unfold float_of_int. rewrite of_uint63_spec, Uint63.of_Z_spec.
  rewrite Z.mod_small by (change wB with (2 ^ 63); lia).
  destruct n as [|p|p]; try lia. cbn [binary_normalize]. unfold binary_round.
  assert (-52 <= fexp prec emax (Zpos (digits2_pos p) + 0)) as Hf
    by (unfold fexp, prec, emax, SpecFloat.emin; lia).
  unfold shl_align.
  destruct (fexp prec emax (Zpos (digits2_pos p) + 0) - 0) as [|d|d] eqn:Hd.
  - destruct (binary_round_aux_positive prec emax eq_refl false p 0 loc_Exact)
      as [(m & e & -> & He)| ->]; [done| |by right].
    left. exists m, e. split; [done|lia].
  - destruct (binary_round_aux_positive prec emax eq_refl false p 0 loc_Exact)
      as [(m & e & -> & He)| ->]; [done| |by right].
    left. exists m, e. split; [done|lia].
  - destruct (binary_round_aux_positive prec emax eq_refl false (Pos.iter xO p d)
                (fexp prec emax (Zpos (digits2_pos p) + 0)) loc_Exact)
      as [(m & e & -> & He)| ->]; [change (SpecFloat.emin prec emax) with (-1074); lia| |by right].
    left. exists m, e. split; [done|lia].
Qed.

(** [math.sqrt(2) * n] is not zero for a length [n] that is not. *)
Lemma sqrt2_times_positive (n : Z) :
  0 < n < 2 ^ 63 →
  PrimFloat.eqb (PrimFloat.mul (PrimFloat.sqrt 2%float) (float_of_int n)) 0%float = false.
Proof.
  intros Hn. rewrite FloatAxioms.eqb_spec, FloatAxioms.mul_spec.
  change (Prim2SF (PrimFloat.sqrt 2%float)) with (S754_finite false 6369051672525773 (-52)).
  change (Prim2SF 0%float) with (S754_zero false).
  destruct (float_of_int_positive n Hn) as [(m & e & -> & He)| ->]; [|done].
  unfold SF64mul, SFmul.
  destruct (binary_round_aux_positive prec emax eq_refl (xorb false false)
              (6369051672525773 * m) (-52 + e) loc_Exact)
    as [(m' & e' & -> & _)| ->]; [change (SpecFloat.emin prec emax) with (-1074); lia| |]; done.
Qed.

(** ** The false-positive policy *)

(** C7, as the code has it: for sequences of [r] revoked and [n > 0]
    non-revoked keys (a length is below [2^63]) [getFPRs] raises nothing and
    returns the two floats [r / (sqrt(2) * n)] and [0.5], each operation
    rounded as binary64 arithmetic does; for [r = 10] and [n = 100] the first
    of them is 0.07071067811865475. *)
Theorem getFPRs_value (revoked nonrevoked : list string) :
  (0 < length nonrevoked)%nat →
  Z.of_nat (length nonrevoked) < 2 ^ 63 →
  getFPRs revoked nonrevoked =
    Ok [PrimFloat.div (float_of_int (Z.of_nat (length revoked)))
          (PrimFloat.mul (PrimFloat.sqrt 2%float)
             (float_of_int (Z.of_nat (length nonrevoked))));
        0.5%float] ∧
  (length revoked = 10%nat → length nonrevoked = 100%nat →
   getFPRs revoked nonrevoked = Ok [0x1.21a1851ff630ap-4%float; 0.5%float]).
Proof.
  intros Hpos Hlt. split.
  - unfold getFPRs, float_div. by rewrite sqrt2_times_positive by lia.
  - intros Hr Hn. unfold getFPRs. rewrite Hr, Hn. by vm_compute.
Qed.

Lemma getFPRs_value_witness :
  getFPRs (replicate 10 "k") (replicate 100 "k") = Ok [0x1.21a1851ff630ap-4%float; 0.5%float].
Proof.
  apply (getFPRs_value (replicate 10 "k") (replicate 100 "k")).
  - cbn. lia.
  - by vm_compute.
  - reflexivity.
  - reflexivity.
Defined.

(** C7 fails as stated: for 10 revoked and 100 non-revoked keys the first
    rate is not 0.1414...; it is below 0.1414 (whose nearest float is the
    literal below). *)
Lemma getFPRs_10_100_below_01414 :
  ¬ ∃ x, getFPRs (replicate 10 "k") (replicate 100 "k") = Ok [x; 0.5%float] ∧
         PrimFloat.leb 0x1.219652bd3c361p-3%float x = true.
Proof. intros (x & [= <-] & Hx). by vm_compute in Hx. Qed.

(** ** The build driver *)

Section Driver.
Context {E : Externals}.

Lemma bind_inv_ok {A B} (m : M A) (f : A → M B) (w w' : World) (b : B) :
  (m ≫= f) w = (w', Ok b) → ∃ w1 a, m w = (w1, Ok a) ∧ f a w1 = (w', Ok b).
Proof.
  rewrite bind_run. destruct (m w) as [w1 [a|e]]; [|done]. intros H. by exists w1, a.
Qed.

(** The cache files are the only thing the first part of [main] may write. *)
Lemma certs_phase_world (args : Args) (stats : Stats) (w w1 : World)
    (r : Result (Stats * list string * list string)) :
  certs_phase args stats w = (w1, r) →
  w1 = w ∨
  ∃ revoked nonrevoked,
    w1 = written (validKeys args) (keys_text nonrevoked)
           (written (revokedKeys args) (keys_text revoked) w).
Proof.
  unfold certs_phase, loadCertLists, saveCertLists. run.
  destruct (cachekeys args && isfile (w_fs w) (revokedKeys args) &&
            isfile (w_fs w) (validKeys args)).
  - destruct (fs_files (w_fs w) !! revokedKeys args); [|intros ?; simplify_eq; by left].
    destruct (fs_files (w_fs w) !! validKeys args); intros ?; simplify_eq; by left.
  - destruct (cachekeys args); intros ?; simplify_eq; [right; eauto|by left].
Qed.

(** Constructing the filter reads files and writes none. *)
Lemma generateMLBF_world (args : Args) (stats : Stats) (revoked nonrevoked : list string)
    (w w1 : World) (r : Result (Stats * cascade)) :
  generateMLBF args stats revoked nonrevoked w = (w1, r) → w1 = w.
Proof.
  unfold generateMLBF. run.
  destruct (getFPRs revoked nonrevoked) as [fprs|e]; [|by intros ?; simplify_eq].
  destruct (diffMetaFile args) as [path|].
  - destruct (fs_files (w_fs w) !! path) as [meta|]; [|by intros ?; simplify_eq].
    destruct (loadDiffMeta meta) as [c|]; [|by intros ?; simplify_eq].
    destruct (initialize _ _ _); by intros ?; simplify_eq.
  - destruct (int_of_float _) as [n|e]; [|by intros ?; simplify_eq].
    destruct (cascade_with_characteristics n fprs) as [c|]; [|by intros ?; simplify_eq].
    destruct (initialize _ _ _); by intros ?; simplify_eq.
Qed.

(** With no non-revoked key the rate cannot be computed. *)
Lemma getFPRs_no_nonrevoked (revoked : list string) :
  getFPRs revoked [] = Raise ZeroDivisionError.
Proof. unfold getFPRs, float_div. by vm_compute (PrimFloat.eqb _ _). Qed.

Lemma generateMLBF_no_nonrevoked (args : Args) (stats : Stats) (revoked : list string)
    (w : World) :
  generateMLBF args stats revoked [] w = (w, Raise ZeroDivisionError).
Proof.
  unfold generateMLBF. run. by rewrite getFPRs_no_nonrevoked.
Qed.

Lemma diff_setup_paths (c : Cli) (fs : FileSystem) :
  let args := diff_setup (parseArgs c) fs in
  revokedKeys args = path_join (out_dir c) "keys-revoked" ∧
  validKeys args = path_join (out_dir c) "keys-valid" ∧
  stats_path args = path_join (out_dir c) "stats.json" ∧
  outFile args = path_join (out_dir c) "filter" ∧
  metaFile args = path_join (out_dir c) "filter.meta" ∧
  (∀ path, patchFile args = Some path →
     ∃ prev, path = path_join (out_dir c) ("filter." +:+ prev +:+ ".patch")).
Proof.
  cbn zeta. unfold diff_setup, out_dir. cbn [previd parseArgs].
  destruct (cli_previd c) as [prev|]; [|by split_and!].
  destruct (isfile _ _ && isfile _ _); [|by split_and!].
  split_and!; try done. intros path [= <-]. by exists prev.
Qed.

(** The cache files and the statistics file are not artifacts. *)
Lemma artifact_not_cache_or_stats (c : Cli) (fs : FileSystem) (path : string) :
  let args := diff_setup (parseArgs c) fs in
  artifact args path →
  path ≠ revokedKeys args ∧ path ≠ validKeys args ∧ path ≠ stats_path args.
Proof.
  cbn zeta. destruct (diff_setup_paths c fs) as (-> & -> & -> & Hout & Hmeta & Hpatch).
  intros [->|[->|(prev & ->)%Hpatch]]; rewrite ?Hout, ?Hmeta;
    split_and!; by apply path_join_ne.
Qed.

Lemma build_inv (c : Cli) (w w1 : World) (args : Args) (stats : Stats)
    (revoked nonrevoked : list string) (mlbf : cascade) :
  build c w = (w1, Ok (args, stats, revoked, nonrevoked, mlbf)) →
  ∃ stats0,
    certs_phase (parseArgs c) ∅ w = (w1, Ok (stats0, revoked, nonrevoked)) ∧
    args = diff_setup (parseArgs c) (w_fs w1) ∧
    generateMLBF args stats0 revoked nonrevoked w1 = (w1, Ok (stats, mlbf)).
Proof.
  unfold build. intros (wc & [[stats0 rev] non] & Hc & H)%bind_inv_ok.
  apply bind_inv_ok in H as (? & fs & [= <- <-] & H).
  apply bind_inv_ok in H as (wg & [stats' mlbf'] & Hg & [= <- <- <- <- <- <-]).
  apply generateMLBF_world in Hg as Hw. subst wg. by exists stats0.
Qed.

(** C9: when the filter that was built has no bits, [main] ends without an
    error right after writing the statistics file. Since the run began, the
    only writes are those of the two cache files (if any) followed by the
    statistics file, which is the last; nothing was verified and no
    artifact, metadata or patch file was written or changed. *)
Theorem main_empty_filter (c : Cli) (w w1 : World) (args : Args) (stats : Stats)
    (revoked nonrevoked : list string) (mlbf : cascade) :
  build c w = (w1, Ok (args, stats, revoked, nonrevoked, mlbf)) →
  bitCount mlbf <= 0 →
  let w2 := written (stats_path args) (json_dumps stats) w1 in
  main c w = (w2, Ok stats) ∧
  (∃ evs,
     w_log w2 = w_log w ++ evs ++ [Wrote (stats_path args)] ∧
     (∀ e, e ∈ evs → e = Wrote (revokedKeys args) ∨ e = Wrote (validKeys args)) ∧
     (Checked ∉ evs ++ [Wrote (stats_path args)]) ∧
     ∀ path, artifact args path → Wrote path ∉ evs ++ [Wrote (stats_path args)]) ∧
  (∀ path, artifact args path →
     fs_files (w_fs w2) !! path = fs_files (w_fs w) !! path) ∧
  fs_files (w_fs w2) !! stats_path args = Some (json_dumps stats).
Proof.
  intros Hbuild Hbits. cbn zeta.
  destruct (build_inv _ _ _ _ _ _ _ _ Hbuild) as (stats0 & Hc & Hargs & _).
  split_and!.
  - unfold main. rewrite (bind_ok _ _ _ _ _ Hbuild).
    assert ((0 <? bitCount mlbf) = false) as -> by (apply Z.ltb_ge; lia).
    unfold saveStats. by run.
  - assert (∃ evs, w_log w1 = w_log w ++ evs ∧
              ∀ e, e ∈ evs → e = Wrote (revokedKeys args) ∨ e = Wrote (validKeys args))
      as (evs & Hlog & Hevs).
    { destruct (diff_setup_paths c (w_fs w1)) as (Hrk & Hvk & _).
      rewrite <- Hargs in Hrk, Hvk. cbn in Hrk, Hvk. clear Hargs Hbuild.
      destruct (certs_phase_world _ _ _ _ _ Hc) as [->|(rev & non & ->)].
      - exists []. rewrite app_nil_r. split; [done|]. by intros e ?%elem_of_nil.
      - exists [Wrote (revokedKeys args); Wrote (validKeys args)].
        split; [|intros e; rewrite !elem_of_cons, elem_of_nil; tauto].
        cbn. rewrite <- app_assoc. by rewrite Hrk, Hvk. }
    exists evs. cbn [w_log written]. rewrite Hlog, <- app_assoc.
    split_and!; [done|done| |].
    + rewrite elem_of_app, list_elem_of_singleton. intros [[?|?]%Hevs|?]; done.
    + intros path Hart. subst args.
      destruct (artifact_not_cache_or_stats _ _ _ Hart) as (H1 & H2 & H3).
      rewrite elem_of_app, list_elem_of_singleton. intros [[?|?]%Hevs|?]; congruence.
  - intros path Hart. subst args.
    destruct (artifact_not_cache_or_stats _ _ _ Hart) as (H1 & H2 & H3).
    cbn [written w_fs fs_files]. rewrite lookup_insert_ne by done.
    destruct (diff_setup_paths c (w_fs w1)) as (Hrk & Hvk & _).
    rewrite Hrk in H1. rewrite Hvk in H2. clear Hrk Hvk H3 Hart Hbuild.
    destruct (certs_phase_world _ _ _ _ _ Hc) as [->|(rev & non & ->)]; [done|].
    cbn [written w_fs fs_files].
    by rewrite !lookup_insert_ne by done.
  - cbn [written w_fs fs_files]. apply lookup_insert_eq.
Qed.

(** C8, on the code: [generateMLBF] calls [getFPRs] without looking at the
    number of non-revoked keys, and [main] calls [generateMLBF] without
    looking either. With no non-revoked key the division by zero is
    evaluated and the run ends with [ZeroDivisionError]; no statistics file
    is written. [store_all_revoked] below is such a store. *)
Theorem generateMLBF_unguarded (args : Args) (stats : Stats) (revoked : list string)
    (c : Cli) (w : World) :
  getFPRs revoked [] = Raise ZeroDivisionError ∧
  generateMLBF args stats revoked [] w = (w, Raise ZeroDivisionError) ∧
  ∀ w1 stats0, certs_phase (parseArgs c) ∅ w = (w1, Ok (stats0, revoked, [])) →
    main c w = (w1, Raise ZeroDivisionError).
Proof.
  split_and!; [apply getFPRs_no_nonrevoked|apply generateMLBF_no_nonrevoked|].
  intros w1 stats0 Hc. unfold main, build.
  rewrite bind_run, bind_run, Hc. cbn iota beta. rewrite bind_run. cbn [get_fs].
  rewrite bind_run, generateMLBF_no_nonrevoked. done.
Qed.

(** *** The cached run and the reconciling run *)

Lemma main_after_certs (c : Cli) (w : World) :
  main c w =
  match certs_phase (parseArgs c) ∅ w with
  | (w1, Ok (stats, revoked, nonrevoked)) =>
      after_certs (parseArgs c) stats revoked nonrevoked w1
  | (w1, Raise e) => (w1, Raise e)
  end.
Proof.
  unfold main, build, after_certs. run.
  destruct (certs_phase (parseArgs c) ∅ w) as [w1 [[[stats rev] non]|e]]; [|done].
  destruct (generateMLBF _ _ _ _ _) as [w2 [[stats' mlbf]|e]]; [|done].
  done.
Qed.

(** The statistics a phase is given are only added to: what it does with
    more statistics [S] at hand is what it does without them, with [S]
    carried along. *)
Lemma generateMLBF_union (args : Args) (U S : Stats) (revoked nonrevoked : list string)
    (w : World) :
  generateMLBF args (U ∪ S) revoked nonrevoked w =
  match generateMLBF args U revoked nonrevoked w with
  | (w', Ok (U', mlbf)) => (w', Ok (U' ∪ S, mlbf))
  | (w', Raise e) => (w', Raise e)
  end.
Proof.
  unfold generateMLBF. run.
  destruct (getFPRs revoked nonrevoked) as [fprs|e]; [|done].
  destruct (diffMetaFile args) as [path|].
  - destruct (fs_files (w_fs w) !! path) as [meta|]; [|done].
    destruct (loadDiffMeta meta) as [c|]; [|done].
    destruct (initialize _ _ _); [|done]. by rewrite <- !insert_union_l.
  - destruct (int_of_float _) as [n|e]; [|done].
    destruct (cascade_with_characteristics n fprs) as [c|]; [|done].
    destruct (initialize _ _ _); [|done]. by rewrite <- !insert_union_l.
Qed.

Lemma saveMLBF_union (args : Args) (U S : Stats) (mlbf : cascade) (w : World) :
  saveMLBF args (U ∪ S) mlbf w =
  match saveMLBF args U mlbf w with
  | (w', Ok U') => (w', Ok (U' ∪ S))
  | (w', Raise e) => (w', Raise e)
  end.
Proof.
  unfold saveMLBF. run.
  destruct (diffBaseFile args) as [base|]; [|by rewrite <- !insert_union_l].
  destruct (fs_files _ !! base) as [old|]; [|done].
  destruct (fs_files _ !! outFile args) as [new|]; [|done].
  destruct (patchFile args); [|done].
  by rewrite <- !insert_union_l.
Qed.

Lemma not_mlbf_key (k : string) :
  k ∉ mlbf_keys →
  k ≠ "mlbf_fprs" ∧ k ≠ "mlbf_version" ∧ k ≠ "mlbf_layers" ∧ k ≠ "mlbf_bits" ∧
  k ≠ "mlbf_filesize" ∧ k ≠ "mlbf_metafilesize" ∧ k ≠ "mlbf_diffsize".
Proof.
  intros H. split_and!; intros ->; apply H; unfold mlbf_keys; repeat constructor.
Qed.

(** The filter phases assign no key but theirs. *)
Lemma generateMLBF_keys (args : Args) (U U' : Stats) (revoked nonrevoked : list string)
    (w w' : World) (mlbf : cascade) (k : string) :
  generateMLBF args U revoked nonrevoked w = (w', Ok (U', mlbf)) →
  k ∉ mlbf_keys → U' !! k = U !! k.
Proof.
  intros H (? & ? & ? & ? & _)%not_mlbf_key. revert H.
  unfold generateMLBF. run.
  destruct (getFPRs revoked nonrevoked) as [fprs|e]; [|done].
  destruct (diffMetaFile args) as [path|].
  - destruct (fs_files (w_fs w) !! path) as [meta|]; [|done].
    destruct (loadDiffMeta meta) as [c|]; [|done].
    destruct (initialize _ _ _); [|done]. intros ?; simplify_eq.
    by rewrite !lookup_insert_ne.
  - destruct (int_of_float _) as [n|e]; [|done].
    destruct (cascade_with_characteristics n fprs) as [c|]; [|done].
    destruct (initialize _ _ _); [|done]. intros ?; simplify_eq.
    by rewrite !lookup_insert_ne.
Qed.

Lemma saveMLBF_keys (args : Args) (U U' : Stats) (mlbf : cascade) (w w' : World)
    (k : string) :
  saveMLBF args U mlbf w = (w', Ok U') → k ∉ mlbf_keys → U' !! k = U !! k.
Proof.
  intros H (_ & _ & _ & _ & ? & ? & ?)%not_mlbf_key. revert H.
  unfold saveMLBF. run.
  destruct (diffBaseFile args) as [base|].
  - destruct (fs_files _ !! base) as [old|]; [|done].
    destruct (fs_files _ !! outFile args) as [new|]; [|done].
    destruct (patchFile args); [|done]. intros ?; simplify_eq.
    by rewrite !lookup_insert_ne.
  - intros ?; simplify_eq. by rewrite !lookup_insert_ne.
Qed.

Lemma diff_setup_stats_path (args : Args) (fs : FileSystem) :
  stats_path (diff_setup args fs) = stats_path args.
Proof.
  unfold diff_setup. destruct (previd args); [|done].
  by destruct (isfile _ _ && isfile _ _).
Qed.

Lemma after_certs_union (args : Args) (U S : Stats) (revoked nonrevoked : list string)
    (w : World) :
  match after_certs args U revoked nonrevoked w with
  | (wA, Ok sA) =>
      ∃ w', wA = written (stats_path args) (json_dumps sA) w' ∧
            after_certs args (U ∪ S) revoked nonrevoked w =
              (written (stats_path args) (json_dumps (sA ∪ S)) w', Ok (sA ∪ S)) ∧
            ∀ k, k ∉ mlbf_keys → sA !! k = U !! k
  | (wA, Raise e) => after_certs args (U ∪ S) revoked nonrevoked w = (wA, Raise e)
  end.
Proof.
  unfold after_certs, saveStats. run. rewrite diff_setup_stats_path, generateMLBF_union.
  destruct (generateMLBF _ U _ _ _) as [w1 [[U1 mlbf]|e]] eqn:Hg; [|done].
  destruct (0 <? bitCount mlbf).
  - unfold verifyMLBF. run.
    assert (∀ w2, match saveMLBF (diff_setup args (w_fs w)) U1 mlbf w2 with
                  | (w3, Ok U2) =>
                      saveMLBF (diff_setup args (w_fs w)) (U1 ∪ S) mlbf w2 = (w3, Ok (U2 ∪ S)) ∧
                      ∀ k, k ∉ mlbf_keys → U2 !! k = U !! k
                  | (w3, Raise e) =>
                      saveMLBF (diff_setup args (w_fs w)) (U1 ∪ S) mlbf w2 = (w3, Raise e)
                  end) as Hsave.
    { intros w2. rewrite saveMLBF_union.
      destruct (saveMLBF _ U1 _ _) as [w3 [U2|e]] eqn:Hs; [|done].
      split; [done|]. intros k Hk.
      rewrite (saveMLBF_keys _ _ _ _ _ _ _ Hs Hk). by eapply generateMLBF_keys. }
    destruct (noVerify _).
    + specialize (Hsave w1). destruct (saveMLBF _ U1 _ _) as [w3 [U2|e]]; [|by rewrite Hsave].
      destruct Hsave as [-> Hk]. by exists w3.
    + destruct (check _ _ _); [|done].
      match goal with |- context [saveMLBF _ U1 _ ?w2] => specialize (Hsave w2) end.
      destruct (saveMLBF _ U1 _ _) as [w3 [U2|e]]; [|by rewrite Hsave].
      destruct Hsave as [-> Hk]. by exists w3.
  - exists w1. split_and!; [done|done|]. intros k Hk. by eapply generateMLBF_keys.
Qed.

Lemma after_certs_uncached (args : Args) (stats : Stats) (revoked nonrevoked : list string)
    (w : World) :
  after_certs (uncached args) stats revoked nonrevoked w =
  after_certs args stats revoked nonrevoked w.
Proof.
  unfold after_certs. run. unfold diff_setup. cbn [previd uncached].
  destruct (previd args); [|done]. by destruct (isfile _ _ && isfile _ _).
Qed.

Lemma certs_phase_cached (args : Args) (stats : Stats) (w : World) (revtext validtext : string) :
  cachekeys args = true →
  fs_files (w_fs w) !! revokedKeys args = Some revtext →
  fs_files (w_fs w) !! validKeys args = Some validtext →
  certs_phase args stats w = (w, Ok (stats, text_keys revtext, text_keys validtext)).
Proof.
  intros Hc Hr Hv. unfold certs_phase, loadCertLists, isfile. run.
  rewrite Hc, Hr, Hv, !bool_decide_eq_true_2 by done.
  cbv beta iota delta [andb]. by rewrite Hr, Hv.
Qed.

Lemma certs_phase_uncached (args : Args) (stats : Stats) (w : World) :
  let st := genCertLists json_serials args (w_fs w) stats [] [] in
  certs_phase (uncached args) stats w =
  (w, Ok (stats_of st, revoked_certs st, nonrevoked_certs st)).
Proof. reflexivity. Qed.

Lemma stat_add_is_Some (k k' : string) (n : Z) (stats : Stats) :
  is_Some (stats !! k) → is_Some (stat_add k' n stats !! k).
Proof.
  intros H. unfold stat_add. apply lookup_insert_is_Some.
  destruct (decide (k' = k)); auto.
Qed.

Lemma aki_update_is_Some (k aki : string) (f : AKIStats → AKIStats) (stats : Stats) :
  is_Some (stats !! k) → is_Some (aki_update aki f stats !! k).
Proof.
  intros H. unfold aki_update. apply lookup_insert_is_Some.
  destruct (decide ("AKIs" = k)); auto.
Qed.

Lemma initAKIStats_is_Some (k aki : string) (stats : Stats) :
  is_Some (stats !! k) → is_Some (initAKIStats stats aki !! k).
Proof.
  intros H. unfold initAKIStats. apply lookup_insert_is_Some.
  destruct (decide ("AKIs" = k)); auto.
Qed.

Lemma known_file_is_Some (args : Args) (fs : FileSystem) (path filename k : string)
    (st : CertLists) :
  is_Some (stats_of st !! k) →
  is_Some (stats_of (known_file json_serials args fs path filename st) !! k).
Proof.
  intros H. unfold known_file. case_bool_decide; [done|]. cbn [stats_of].
  repeat first [apply stat_add_is_Some | apply aki_update_is_Some].
  destruct (truthy (getCertList _ _ (path_join (revokedPath args) _) _));
    repeat first [apply stat_add_is_Some | apply aki_update_is_Some];
    destruct (truthy _);
    repeat first [apply stat_add_is_Some | apply aki_update_is_Some];
    by apply initAKIStats_is_Some.
Qed.

Lemma revoked_file_is_Some (args : Args) (fs : FileSystem) (path filename k : string)
    (st : CertLists) :
  is_Some (stats_of st !! k) →
  is_Some (stats_of (revoked_file json_serials args fs path filename st) !! k).
Proof.
  intros H. unfold revoked_file. repeat case_bool_decide; try done.
  destruct (getCertList _ _ _ _); cbn [stats_of];
    repeat first [apply stat_add_is_Some | apply aki_update_is_Some];
    by apply initAKIStats_is_Some.
Qed.

Lemma walk_loop_is_Some (body : string → string → CertLists → CertLists)
    (walk : list (string * list string)) (k : string) :
  (∀ path filename st,
     is_Some (stats_of st !! k) → is_Some (stats_of (body path filename st) !! k)) →
  ∀ st, is_Some (stats_of st !! k) → is_Some (stats_of (walk_loop body walk st) !! k).
Proof.
  intros Hbody st. rewrite walk_loop_files. revert st.
  induction (walk_files walk) as [|file files IH]; intros st H; [done|].
  cbn [foldl]. by apply IH, Hbody.
Qed.

Lemma genCertLists_keys (args : Args) (fs : FileSystem) (stats : Stats)
    (revoked nonrevoked : list string) (k : string) :
  k ∈ reconcile_keys →
  is_Some (stats_of (genCertLists json_serials args fs stats revoked nonrevoked) !! k).
Proof.
  intros Hk. unfold genCertLists.
  apply walk_loop_is_Some; [intros; by apply revoked_file_is_Some|].
  apply walk_loop_is_Some; [intros; by apply known_file_is_Some|].
  cbn [stats_of]. unfold init_stats, reconcile_keys in *.
  repeat (apply elem_of_cons in Hk as [->|Hk];
          [rewrite !lookup_insert_is_Some'; auto 10|]).
  by apply elem_of_nil in Hk.
Qed.

(** C10, as the code has it: let the cache files hold the key lists that
    reconciling the store gives, each key on a line of its own. Then the run
    that loads them and the run without [-cachekeys], which reconciles, end
    alike: with the same error at the same world, or in worlds that are one
    world [w'] up to the last write, that of the statistics file. Every
    other file and the log are the same. The statistics differ. Those of the
    reconciling run are those of the cached run together with what
    [genCertLists] counted; the cached run has none of the reconciliation
    counters, only [mlbf_*] keys. *)
Theorem cached_run_same_but_stats (c : Cli) (w : World) :
  let args := parseArgs c in
  let st := genCertLists json_serials args (w_fs w) ∅ [] [] in
  cli_cachekeys c = true →
  fs_files (w_fs w) !! revokedKeys args = Some (keys_text (revoked_certs st)) →
  fs_files (w_fs w) !! validKeys args = Some (keys_text (nonrevoked_certs st)) →
  Forall one_line (revoked_certs st) →
  Forall one_line (nonrevoked_certs st) →
  match main c w, main (no_cache c) w with
  | (wA, Ok statsA), (wB, Ok statsB) =>
      (∃ w', wA = written (stats_path args) (json_dumps statsA) w' ∧
             wB = written (stats_path args) (json_dumps statsB) w') ∧
      statsB = statsA ∪ stats_of st ∧
      (∀ k, k ∉ mlbf_keys → statsA !! k = None) ∧
      (∀ k, k ∈ reconcile_keys → statsA !! k = None ∧ is_Some (statsB !! k))
  | (wA, Raise eA), (wB, Raise eB) => wA = wB ∧ eA = eB
  | _, _ => False
  end.
Proof.
  cbn zeta. intros Hc Hr Hv Hrl Hvl. rewrite !main_after_certs.
  change (parseArgs (no_cache c)) with (uncached (parseArgs c)).
  rewrite certs_phase_uncached, (certs_phase_cached (parseArgs c) _ _ _ _ Hc Hr Hv).
  rewrite !text_keys_keys_text, after_certs_uncached by done.
  set (args := parseArgs c). set (st := genCertLists json_serials args (w_fs w) ∅ [] []).
  pose proof (after_certs_union args ∅ (stats_of st) (revoked_certs st)
                (nonrevoked_certs st) w) as H.
  rewrite (left_id_L ∅ (∪)) in H.
  destruct (after_certs args ∅ _ _ w) as [wA [statsA|e]].
  - destruct H as (w' & -> & -> & Hkeys). split_and!.
    + by exists w'.
    + done.
    + intros k Hk. by rewrite Hkeys.
    + intros k Hk.
      assert (statsA !! k = None) as HA.
      { rewrite Hkeys; [done|]. unfold reconcile_keys, mlbf_keys in *.
        repeat (apply elem_of_cons in Hk as [->|Hk];
                [rewrite !elem_of_cons, elem_of_nil; intros H; by repeat destruct H as [H|H]|]).
        by apply elem_of_nil in Hk. }
      split; [done|]. rewrite lookup_union_r by done. by apply genCertLists_keys.
  - by rewrite H.
Qed.

End Driver.

(** *** Concrete runs of [main] *)

(** On [store_all_revoked] no key is left unrevoked: the run ends in a
    division by zero and leaves no statistics file. So does a run over an
    empty store. *)
Example main_all_revoked :
  let r := main (E := toy_externals) (example_cli false) (mkWorld store_all_revoked []) in
  r.2 = Raise ZeroDivisionError ∧
  fs_files (w_fs r.1) !! "./run/mlbf/stats.json" = None.
Proof. by vm_compute. Qed.

Example main_empty_store :
  (main (E := toy_externals) (example_cli false) (mkWorld (store [] [] []) [])).2 =
  Raise ZeroDivisionError.
Proof. by vm_compute. Qed.

Lemma main_empty_filter_witness :
  main (E := toy_externals) (example_cli false) (mkWorld store_known_only []) =
  (written "./run/mlbf/stats.json" (print_stats empty_filter_stats)
     (mkWorld store_known_only []), Ok empty_filter_stats).
Proof.
  refine (proj1 (main_empty_filter (E := toy_externals) (example_cli false)
                   (mkWorld store_known_only []) (mkWorld store_known_only [])
                   example_args empty_filter_stats [] ["A1"; "A2"] empty_filter _ _)).
  - reflexivity.
  - vm_compute. discriminate.
Defined.

Lemma Forall_one_line (keys : list string) :
  forallb (λ key, negb (has_char LF key) && negb (has_char CR key)) keys = true →
  Forall one_line keys.
Proof.
  rewrite forallb_forall, Forall_forall. intros H key Hin.
  apply list_elem_of_In, H, andb_prop in Hin as [H1 H2].
  split; by apply negb_true_iff.
Qed.

Lemma cached_run_same_but_stats_witness :
  let args := parseArgs (example_cli true) in
  let st := genCertLists (json_serials (Externals := toy_externals)) args
              (w_fs world_cached) ∅ [] [] in
  match main (E := toy_externals) (example_cli true) world_cached,
        main (E := toy_externals) (no_cache (example_cli true)) world_cached with
  | (wA, Ok statsA), (wB, Ok statsB) =>
      (∃ w', wA = written (stats_path args) (json_dumps (Externals := toy_externals) statsA) w' ∧
             wB = written (stats_path args) (json_dumps (Externals := toy_externals) statsB) w') ∧
      statsB = statsA ∪ stats_of st ∧
      (∀ k, k ∉ mlbf_keys → statsA !! k = None) ∧
      (∀ k, k ∈ reconcile_keys → statsA !! k = None ∧ is_Some (statsB !! k))
  | (wA, Raise eA), (wB, Raise eB) => wA = wB ∧ eA = eB
  | _, _ => False
  end.
Proof.
  refine (cached_run_same_but_stats (E := toy_externals) (example_cli true) world_cached
            _ _ _ _ _).
  - reflexivity.
  - vm_compute. reflexivity.
  - vm_compute. reflexivity.
  - apply Forall_one_line. vm_compute. reflexivity.
  - apply Forall_one_line. vm_compute. reflexivity.
Defined.

(** C10 fails as stated: started from [world_cached], the run that loads the
    cache and the run that reconciles write different statistics files. *)
Lemma cached_run_different_stats :
  ¬ (∀ (E : Externals) (c : Cli) (w : World),
       let args := parseArgs c in
       let st := genCertLists json_serials args (w_fs w) ∅ [] [] in
       cli_cachekeys c = true →
       fs_files (w_fs w) !! revokedKeys args = Some (keys_text (revoked_certs st)) →
       fs_files (w_fs w) !! validKeys args = Some (keys_text (nonrevoked_certs st)) →
       Forall one_line (revoked_certs st) →
       Forall one_line (nonrevoked_certs st) →
       fs_files (w_fs (main c w).1) !! stats_path args =
       fs_files (w_fs (main (no_cache c) w).1) !! stats_path args).
Proof.
  intros H.
  assert (fs_files (w_fs (main (E := toy_externals) (example_cli true) world_cached).1)
            !! stats_path (parseArgs (example_cli true)) =
          fs_files (w_fs (main (E := toy_externals) (no_cache (example_cli true))
                            world_cached).1)
            !! stats_path (parseArgs (example_cli true))) as Heq.
  { refine (H toy_externals (example_cli true) world_cached _ _ _ _ _).
    - reflexivity.
    - vm_compute. reflexivity.
    - vm_compute. reflexivity.
    - apply Forall_one_line. vm_compute. reflexivity.
    - apply Forall_one_line. vm_compute. reflexivity. }
  vm_compute in Heq. discriminate Heq.
Qed.

(** The cached run has no [known] counter; the reconciling run has. *)
Example cached_run_stats_keys :
  final_stat "known" (main (E := toy_externals) (example_cli true) world_cached) =
    Some None ∧
  final_stat "known" (main (E := toy_externals) (no_cache (example_cli true)) world_cached) =
    Some (Some (VInt 3)).
Proof. split; vm_compute; reflexivity. Qed.
(** * Further properties of the reconciliation *)

Lemma size_difference_intersection (K R : gset string) :
  size K = (size (K ∖ R) + size (K ∩ R))%nat.
Proof.
  rewrite <- size_union.
  - by rewrite difference_union_intersection_L.
  - intros x [_ Hx]%elem_of_difference [_ Hx']%elem_of_intersection. done.
Qed.

Section ReconcileStats.
Variable json_serials : string → option (list string).
Variables (args : Args) (fs : FileSystem).

Lemma truthy_or_empty (certlist : option (gset string)) :
  truthy certlist = negb (bool_decide (or_empty certlist = ∅)).
Proof. by destruct certlist. Qed.

Lemma or_empty_falsy (certlist : option (gset string)) :
  truthy certlist = false → or_empty certlist = ∅.
Proof. destruct certlist as [s|]; [|done]. cbn. by case_bool_decide. Qed.

(** The per-issuer map after one file of the known directory. *)
Lemma known_file_akis (path filename : string) (st : CertLists) :
  splitext_root filename ∉ excludeaki args →
  stat_akis (stats_of (known_file json_serials args fs path filename st)) =
  <[splitext_root filename := known_entry json_serials args fs (path, filename)]>
    (stat_akis (stats_of st)).
Proof.
  intros Hex. unfold known_file, known_entry, known_of, revoked_of, file_aki.
  cbn [fst snd]. rewrite bool_decide_eq_false_2 by done. cbn zeta. cbn [stats_of].
  rewrite (truthy_or_empty (getCertList _ _ (path_join (revokedPath args) _) _)).
  destruct (truthy (getCertList _ _ (path_join path filename) _));
    destruct (bool_decide (or_empty _ = ∅)); cbn [negb];
    repeat first
      [ rewrite stat_akis_aki_update | rewrite stat_akis_stat_add by discriminate
      | rewrite stat_akis_initAKIStats ];
    by rewrite !alter_insert_eq.
Qed.

Lemma known_file_excluded (path filename : string) (st : CertLists) :
  splitext_root filename ∈ excludeaki args →
  known_file json_serials args fs path filename st = st.
Proof. intros H. unfold known_file. by rewrite bool_decide_eq_true_2. Qed.

Lemma known_file_processed (path filename : string) (st : CertLists) :
  splitext_root filename ∉ excludeaki args →
  processedAKIs (known_file json_serials args fs path filename st) =
  {[splitext_root filename]} ∪ processedAKIs st.
Proof. intros H. unfold known_file. by rewrite bool_decide_eq_false_2. Qed.

(** The per-issuer map after one file of the revoked directory. *)
Lemma revoked_file_akis (path filename : string) (st : CertLists) :
  splitext_root filename ∉ excludeaki args →
  splitext_root filename ∉ processedAKIs st →
  stat_akis (stats_of (revoked_file json_serials args fs path filename st)) =
  <[splitext_root filename := revoked_entry json_serials fs (path, filename)]>
    (stat_akis (stats_of st)).
Proof.
  intros Hex Hproc. unfold revoked_file, revoked_entry, file_aki. cbn [fst snd].
  rewrite !bool_decide_eq_false_2 by done. cbn zeta.
  destruct (getCertList _ _ _ _); cbn [stats_of];
    repeat first
      [ rewrite stat_akis_aki_update | rewrite stat_akis_stat_add by discriminate
      | rewrite stat_akis_initAKIStats ];
    by rewrite ?alter_insert_eq.
Qed.

Lemma revoked_file_skipped (path filename : string) (st : CertLists) :
  splitext_root filename ∈ excludeaki args ∨ splitext_root filename ∈ processedAKIs st →
  revoked_file json_serials args fs path filename st = st.
Proof.
  intros H. unfold revoked_file. case_bool_decide; [done|].
  destruct H as [H|H]; [done|]. by rewrite bool_decide_eq_true_2.
Qed.

Lemma revoked_file_processed (path filename : string) (st : CertLists) :
  processedAKIs (revoked_file json_serials args fs path filename st) = processedAKIs st.
Proof.
  unfold revoked_file. repeat case_bool_decide; try done. by destruct (getCertList _ _ _ _).
Qed.

Lemma known_entry_consistent (file : string * string) :
  aki_consistent (known_entry json_serials args fs file).
Proof.
  unfold known_entry, aki_consistent. cbn.
  set (K := known_of json_serials fs file). set (R := revoked_of json_serials args fs file).
  pose proof (size_difference_intersection K R) as Hsize.
  pose proof (subseteq_size (K ∩ R) R (intersection_subseteq_r K R)).
  split_and!; try lia.
  case_bool_decide as HR; [|done]. intros _. by rewrite HR, size_empty.
Qed.

Lemma revoked_entry_consistent (file : string * string) :
  aki_consistent (revoked_entry json_serials fs file).
Proof.
  unfold revoked_entry, aki_consistent.
  destruct (getCertList _ _ _ _); cbn; split_and!; lia || done.
Qed.

End ReconcileStats.

Section ReconcileLoops.
Variable json_serials : string → option (list string).
Variables (args : Args) (fs : FileSystem).

Let known_step (st : CertLists) (file : string * string) : CertLists :=
  known_file json_serials args fs file.1 file.2 st.
Let revoked_step (st : CertLists) (file : string * string) : CertLists :=
  revoked_file json_serials args fs file.1 file.2 st.

Lemma excluded_false (file : string * string) :
  excluded args file = false ↔ file_aki file ∉ excludeaki args.
Proof. unfold excluded. by rewrite bool_decide_eq_false. Qed.

(** After the first loop the issuers with a record are the ones it found
    and those that had one before; the processed ones grow alike. *)
Lemma known_loop_dom (files : list (string * string)) (st : CertLists) :
  let st' := foldl known_step st files in
  let found : gset string :=
    list_to_set (file_aki <$> filter (λ file, excluded args file = false) files) in
  dom (stat_akis (stats_of st')) = dom (stat_akis (stats_of st)) ∪ found ∧
  processedAKIs st' = processedAKIs st ∪ found.
Proof.
  cbn zeta. revert st. induction files as [|[path filename] files IH]; intros st.
  { cbn. by rewrite !(right_id_L ∅ (∪)). }
  cbn [foldl]. destruct (IH (known_step st (path, filename))) as [-> ->].
  subst known_step. cbn [fst snd]. rewrite filter_cons.
  destruct (decide (excluded args (path, filename) = false)) as [Hex|Hex].
  - apply excluded_false in Hex. cbn [file_aki snd] in Hex.
    rewrite known_file_akis, known_file_processed, dom_insert_L by done.
    rewrite fmap_cons, list_to_set_cons. cbn [file_aki snd].
    split; by rewrite !(assoc_L (∪)), (comm_L (∪) {[_]}).
  - rewrite known_file_excluded; [done|].
    apply dec_stable. intros H. by apply Hex, excluded_false.
Qed.

Lemma revoked_loop_dom (files : list (string * string)) (st : CertLists) :
  let st' := foldl revoked_step st files in
  let found : gset string :=
    list_to_set (file_aki <$> filter (λ file, excluded args file = false) files) in
  processedAKIs st ⊆ dom (stat_akis (stats_of st)) →
  dom (stat_akis (stats_of st')) = dom (stat_akis (stats_of st)) ∪ found.
Proof.
  cbn zeta. revert st. induction files as [|[path filename] files IH]; intros st Hsub.
  { cbn. by rewrite (right_id_L ∅ (∪)). }
  cbn [foldl]. subst revoked_step. cbn [fst snd]. rewrite filter_cons.
  destruct (decide (excluded args (path, filename) = false)) as [Hex|Hex].
  - apply excluded_false in Hex. cbn [file_aki snd] in Hex.
    rewrite fmap_cons, list_to_set_cons. cbn [file_aki snd].
    destruct (decide (splitext_root filename ∈ processedAKIs st)) as [Hproc|Hproc].
    + rewrite revoked_file_skipped in * by auto. rewrite IH by done.
      apply Hsub in Hproc. rewrite (assoc_L (∪)). f_equal.
      symmetry. rewrite (comm_L (∪)). apply subseteq_union_1_L. by apply singleton_subseteq_l.
    + rewrite IH.
      * rewrite revoked_file_akis, dom_insert_L by done.
        by rewrite (assoc_L (∪)), (comm_L (∪) _ {[_]}).
      * rewrite revoked_file_processed, revoked_file_akis, dom_insert_L by done.
        etrans; [exact Hsub|apply union_subseteq_r].
  - rewrite revoked_file_skipped; [by apply IH|].
    left. apply dec_stable. intros H. by apply Hex, excluded_false.
Qed.

Lemma known_loop_consistent (files : list (string * string)) (st : CertLists) :
  map_Forall (λ _, aki_consistent) (stat_akis (stats_of st)) →
  map_Forall (λ _, aki_consistent) (stat_akis (stats_of (foldl known_step st files))).
Proof.
  revert st. induction files as [|[path filename] files IH]; intros st H; [done|].
  cbn [foldl]. apply IH. subst known_step. cbn [fst snd].
  destruct (decide (splitext_root filename ∈ excludeaki args)).
  - by rewrite known_file_excluded.
  - rewrite known_file_akis by done.
    apply map_Forall_insert_2; [apply known_entry_consistent|done].
Qed.

Lemma revoked_loop_consistent (files : list (string * string)) (st : CertLists) :
  map_Forall (λ _, aki_consistent) (stat_akis (stats_of st)) →
  map_Forall (λ _, aki_consistent) (stat_akis (stats_of (foldl revoked_step st files))).
Proof.
  revert st. induction files as [|[path filename] files IH]; intros st H; [done|].
  cbn [foldl]. apply IH. subst revoked_step. cbn [fst snd].
  destruct (decide (splitext_root filename ∈ excludeaki args)).
  { rewrite revoked_file_skipped; auto. }
  destruct (decide (splitext_root filename ∈ processedAKIs st)).
  { rewrite revoked_file_skipped; auto. }
  rewrite revoked_file_akis by done.
  apply map_Forall_insert_2; [apply revoked_entry_consistent|done].
Qed.

End ReconcileLoops.

(** X2: every record of [stats['AKIs']] that [genCertLists] leaves has
    consistent counts: known = knownnotrevoked + knownrevoked, no count is
    negative, knownrevoked is at most revoked, and an issuer recorded
    without a CRL has no revocation counted. *)
Theorem genCertLists_akis_consistent
    (json_serials : string → option (list string)) (args : Args) (fs : FileSystem)
    (stats : Stats) (revoked nonrevoked : list string) (aki : string) (a : AKIStats) :
  stat_akis (stats_of (genCertLists json_serials args fs stats revoked nonrevoked)) !! aki
    = Some a →
  aki_consistent a.
Proof.
  unfold genCertLists. rewrite !walk_loop_files.
  apply (revoked_loop_consistent json_serials args fs), known_loop_consistent.
  cbn [stats_of]. unfold init_stats, stat_akis. rewrite lookup_insert_eq.
  apply map_Forall_empty.
Qed.

(** X3: the issuers with a record in [stats['AKIs']] are exactly the issuers
    of the files of the known and of the revoked directory that are not
    excluded; an excluded issuer has none. *)
Theorem genCertLists_akis_dom
    (json_serials : string → option (list string)) (args : Args) (fs : FileSystem)
    (stats : Stats) (revoked nonrevoked : list string) :
  let akis := stat_akis (stats_of (genCertLists json_serials args fs stats revoked nonrevoked)) in
  dom akis =
    list_to_set (file_aki <$> known_issuers args fs) ∪
    list_to_set (file_aki <$> revoked_issuers args fs) ∧
  ∀ aki, aki ∈ excludeaki args → akis !! aki = None.
Proof.
  cbn zeta. unfold genCertLists. rewrite !walk_loop_files.
  match goal with
  | |- context [foldl _ (foldl _ ?st0 ?kfiles) ?rfiles] =>
      destruct (known_loop_dom json_serials args fs kfiles st0) as [Hdom Hproc];
      pose proof (revoked_loop_dom json_serials args fs rfiles
                    (foldl (λ st file, known_file json_serials args fs file.1 file.2 st)
                       st0 kfiles)) as Hrev
  end.
  cbn zeta in Hrev. rewrite Hdom, Hproc in Hrev. cbn [stats_of processedAKIs] in Hrev.
  assert (stat_akis (init_stats stats) = ∅) as Hinit.
  { unfold init_stats, stat_akis. by rewrite lookup_insert_eq. }
  rewrite Hinit, dom_empty_L, !(left_id_L ∅ (∪)) in Hrev.
  specialize (Hrev ltac:(done)).
  assert (dom (stat_akis (stats_of
            (foldl (λ st file, revoked_file json_serials args fs file.1 file.2 st)
               (foldl (λ st file, known_file json_serials args fs file.1 file.2 st)
                  (mkCertLists (init_stats stats) revoked nonrevoked ∅)
                  (walk_files (fs_walk fs (knownPath args))))
               (walk_files (fs_walk fs (revokedPath args)))))) =
          list_to_set (file_aki <$> known_issuers args fs) ∪
          list_to_set (file_aki <$> revoked_issuers args fs)) as Hfinal by exact Hrev.
  split; [exact Hfinal|].
  intros aki Hex. apply not_elem_of_dom. rewrite Hfinal.
  rewrite elem_of_union, !elem_of_list_to_set, !list_elem_of_fmap.
  unfold known_issuers, revoked_issuers.
  intros [(file & -> & [Hf _]%list_elem_of_filter)|(file & -> & [Hf _]%list_elem_of_filter)];
    by apply excluded_false in Hf.
Qed.

(** ** The counters of a reconciliation *)

Section Counters.
Implicit Types (stats : Stats) (k aki : string) (f : AKIStats → AKIStats).

Lemma stat_int_stat_add_eq stats k n : stat_int k (stat_add k n stats) = stat_int k stats + n.
Proof. unfold stat_add. unfold stat_int at 1. by rewrite lookup_insert_eq. Qed.

Lemma stat_int_stat_add_ne stats k k' n :
  k' ≠ k → stat_int k (stat_add k' n stats) = stat_int k stats.
Proof. intros H. unfold stat_int. by rewrite lookup_stat_add_ne. Qed.

Lemma stat_int_aki_update stats k aki f :
  k ≠ "AKIs" → stat_int k (aki_update aki f stats) = stat_int k stats.
Proof. intros H. unfold stat_int. by rewrite lookup_aki_update_ne. Qed.

Lemma stat_int_initAKIStats stats k aki :
  k ≠ "AKIs" → stat_int k (initAKIStats stats aki) = stat_int k stats.
Proof. intros H. unfold stat_int. by rewrite lookup_initAKIStats_ne. Qed.

Lemma stat_int_init_stats stats k : k ∈ reconcile_keys → stat_int k (init_stats stats) = 0.
Proof.
  intros Hk. unfold reconcile_keys in Hk. unfold stat_int, init_stats.
  repeat (apply elem_of_cons in Hk as [->|Hk];
          [by rewrite ?lookup_insert_ne, lookup_insert_eq by discriminate|]).
  by apply elem_of_nil in Hk.
Qed.
End Counters.

(** Pushes the reading of a counter through the updates of a loop body. *)
Ltac counters_simpl :=
  repeat first
    [ rewrite stat_int_stat_add_eq
    | rewrite stat_int_stat_add_ne by discriminate
    | rewrite stat_int_aki_update by discriminate
    | rewrite stat_int_initAKIStats by discriminate ].

Lemma length_elements (X : gset string) : length (elements X) = size X.
Proof. reflexivity. Qed.

Section CounterLoops.
Variable json_serials : string → option (list string).
Variables (args : Args) (fs : FileSystem).

Lemma known_file_totals (path filename : string) (st : CertLists) :
  splitext_root filename ∉ excludeaki args →
  totals (known_file json_serials args fs path filename st) =
  add_entry (known_entry json_serials args fs (path, filename)) (totals st).
Proof.
  intros Hex. unfold known_file, known_entry, known_of, revoked_of, file_aki, totals, add_entry.
  cbn [fst snd]. rewrite bool_decide_eq_false_2 by done. cbn zeta.
  cbn [stats_of revoked_certs nonrevoked_certs aki_known aki_revoked aki_knownnotrevoked
       aki_knownrevoked aki_crl].
  rewrite !length_app, !Nat2Z.inj_add, !length_elements.
  rewrite (truthy_or_empty (getCertList _ _ (path_join (revokedPath args) _) _)).
  rewrite (truthy_or_empty (getCertList _ _ (path_join path filename) _)).
  generalize (or_empty (getCertList json_serials fs (path_join path filename)
                          (splitext_root filename))).
  generalize (or_empty (getCertList json_serials fs
                          (path_join (revokedPath args) (splitext_root filename +:+ ".revoked"))
                          (splitext_root filename))).
  intros R K.
  assert (Z.of_nat (size K) = Z.of_nat (size (K ∖ R)) + Z.of_nat (size (K ∩ R))) as Hsize.
  { rewrite (size_difference_intersection K R). lia. }
  cbn [t_known t_revoked t_knownnotrevoked t_knownrevoked t_nocrl t_revoked_certs
       t_nonrevoked_certs].
  repeat case_bool_decide; subst; cbn [negb]; counters_simpl; rewrite ?size_empty in *;
    f_equal; lia.
Qed.

Lemma revoked_file_totals (path filename : string) (st : CertLists) :
  splitext_root filename ∉ excludeaki args →
  splitext_root filename ∉ processedAKIs st →
  totals (revoked_file json_serials args fs path filename st) =
  add_entry (revoked_entry json_serials fs (path, filename)) (totals st).
Proof.
  intros Hex Hproc. unfold revoked_file, revoked_entry, file_aki, totals, add_entry.
  cbn [fst snd]. rewrite !bool_decide_eq_false_2 by done. cbn zeta.
  destruct (getCertList _ _ _ _);
    cbn [stats_of revoked_certs nonrevoked_certs aki_known aki_revoked aki_knownnotrevoked
         aki_knownrevoked aki_crl t_known t_revoked t_knownnotrevoked t_knownrevoked t_nocrl
         t_revoked_certs t_nonrevoked_certs];
    counters_simpl; f_equal; lia.
Qed.

End CounterLoops.

(** ** The per-issuer map and the counters as folds over the files *)

Section EntryLoops.
Variable json_serials : string → option (list string).
Variables (args : Args) (fs : FileSystem).

Let known_rec (file : string * string) : string * AKIStats :=
  (file_aki file, known_entry json_serials args fs file).
Let revoked_rec (file : string * string) : string * AKIStats :=
  (file_aki file, revoked_entry json_serials fs file).

Lemma known_loop_entries (files : list (string * string)) (st : CertLists) :
  let st' := foldl (λ st file, known_file json_serials args fs file.1 file.2 st) st files in
  let recs := known_rec <$> filter (λ file, excluded args file = false) files in
  stat_akis (stats_of st') = foldl assign (stat_akis (stats_of st)) recs ∧
  totals st' = foldl (λ t e, add_entry e.2 t) (totals st) recs.
Proof.
  cbn zeta. revert st. induction files as [|[path filename] files IH]; intros st; [done|].
  cbn [foldl fst snd]. destruct (IH (known_file json_serials args fs path filename st)) as [-> ->].
  rewrite filter_cons.
  destruct (decide (excluded args (path, filename) = false)) as [Hex|Hex].
  - apply excluded_false in Hex. cbn [file_aki snd] in Hex.
    by rewrite fmap_cons, known_file_akis, known_file_totals.
  - rewrite known_file_excluded; [done|].
    apply dec_stable. intros H. by apply Hex, excluded_false.
Qed.

Lemma revoked_loop_entries (files : list (string * string)) (st : CertLists) :
  let st' := foldl (λ st file, revoked_file json_serials args fs file.1 file.2 st) st files in
  let recs := revoked_rec <$>
                filter (λ file, file_aki file ∉ processedAKIs st)
                  (filter (λ file, excluded args file = false) files) in
  stat_akis (stats_of st') = foldl assign (stat_akis (stats_of st)) recs ∧
  totals st' = foldl (λ t e, add_entry e.2 t) (totals st) recs.
Proof.
  cbn zeta. revert st. induction files as [|[path filename] files IH]; intros st; [done|].
  cbn [foldl fst snd].
  destruct (IH (revoked_file json_serials args fs path filename st)) as [-> ->].
  rewrite revoked_file_processed, filter_cons.
  destruct (decide (excluded args (path, filename) = false)) as [Hex|Hex].
  - apply excluded_false in Hex. cbn [file_aki snd] in Hex. rewrite filter_cons.
    destruct (decide (file_aki (path, filename) ∉ processedAKIs st)) as [Hproc|Hproc].
    + by rewrite fmap_cons, revoked_file_akis, revoked_file_totals.
    + rewrite revoked_file_skipped; [done|]. right. by apply dec_stable.
  - rewrite revoked_file_skipped; [done|].
    left. apply dec_stable. intros H. by apply Hex, excluded_false.
Qed.

End EntryLoops.

(** The per-issuer map and the totals that [genCertLists] leaves, as folds
    over the records it assigns. *)
Lemma genCertLists_entries
    (json_serials : string → option (list string)) (args : Args) (fs : FileSystem)
    (stats : Stats) (revoked nonrevoked : list string) :
  let st := genCertLists json_serials args fs stats revoked nonrevoked in
  let recs := aki_entries json_serials args fs in
  stat_akis (stats_of st) = foldl assign ∅ recs ∧
  totals st =
    foldl (λ t e, add_entry e.2 t)
      (mkTotals 0 0 0 0 0 (Z.of_nat (length revoked)) (Z.of_nat (length nonrevoked))) recs.
Proof.
  cbn zeta. unfold genCertLists, aki_entries. rewrite !walk_loop_files, !foldl_app.
  set (st0 := mkCertLists (init_stats stats) revoked nonrevoked ∅).
  set (st1 := foldl _ st0 _).
  destruct (revoked_loop_entries json_serials args fs
              (walk_files (fs_walk fs (revokedPath args))) st1) as [-> ->].
  destruct (known_loop_dom json_serials args fs
              (walk_files (fs_walk fs (knownPath args))) st0) as [_ Hproc].
  destruct (known_loop_entries json_serials args fs
              (walk_files (fs_walk fs (knownPath args))) st0) as [Hakis Htot].
  fold st1 in Hproc, Hakis, Htot. rewrite Hakis, Htot.
  assert (filter (λ file, file_aki file ∉ processedAKIs st1)
            (filter (λ file, excluded args file = false)
               (walk_files (fs_walk fs (revokedPath args)))) = revoked_only args fs) as ->.
  { unfold revoked_only, revoked_issuers. apply list_filter_iff. intros file.
    rewrite Hproc. cbn. rewrite (left_id_L ∅ (∪)).
    by rewrite elem_of_list_to_set. }
  assert (stat_akis (stats_of st0) = ∅) as ->.
  { subst st0. unfold init_stats, stat_akis. cbn [stats_of]. by rewrite lookup_insert_eq. }
  assert (totals st0 =
          mkTotals 0 0 0 0 0 (Z.of_nat (length revoked)) (Z.of_nat (length nonrevoked))) as ->.
  { subst st0. unfold totals. cbn [stats_of revoked_certs nonrevoked_certs].
    by rewrite !stat_int_init_stats by (unfold reconcile_keys; repeat constructor). }
  done.
Qed.

(** ** What the records say about the counters *)

Lemma aki_entries_consistent
    (json_serials : string → option (list string)) (args : Args) (fs : FileSystem) :
  Forall (λ e, aki_consistent e.2) (aki_entries json_serials args fs).
Proof.
  unfold aki_entries. rewrite Forall_app, !Forall_fmap. split; apply Forall_forall; intros file _.
  - apply known_entry_consistent.
  - apply revoked_entry_consistent.
Qed.

Lemma add_entries_consistent (r0 n0 : Z) (recs : list (string * AKIStats)) (t : Totals) :
  Forall (λ e, aki_consistent e.2) recs →
  totals_consistent r0 n0 t →
  totals_consistent r0 n0 (foldl (λ t e, add_entry e.2 t) t recs).
Proof.
  intros Hrecs. revert t. induction Hrecs as [|e recs He _ IH]; intros t Ht; [done|].
  cbn [foldl]. apply IH. destruct He as (? & ? & ? & _), Ht as (? & ? & ? & ? & ? & ?).
  unfold totals_consistent, add_entry. cbn. destruct (aki_crl e.2); lia.
Qed.

(** X1: the counters [genCertLists] leaves in [stats] agree with one another
    and with the two lists: the revoked list has grown by [knownrevoked]
    keys and the non-revoked list by [knownnotrevoked];
    [known = knownnotrevoked + knownrevoked]; [knownrevoked] is at most
    [revoked]; no counter is negative. *)
Theorem genCertLists_counters
    (json_serials : string → option (list string)) (args : Args) (fs : FileSystem)
    (stats : Stats) (revoked nonrevoked : list string) :
  let st := genCertLists json_serials args fs stats revoked nonrevoked in
  let n k := stat_int k (stats_of st) in
  Z.of_nat (length (revoked_certs st)) = Z.of_nat (length revoked) + n "knownrevoked" ∧
  Z.of_nat (length (nonrevoked_certs st)) = Z.of_nat (length nonrevoked) + n "knownnotrevoked" ∧
  n "known" = n "knownnotrevoked" + n "knownrevoked" ∧
  0 <= n "knownrevoked" <= n "revoked" ∧
  0 <= n "knownnotrevoked" ∧
  0 <= n "nocrl".
Proof.
  cbn zeta.
  destruct (genCertLists_entries json_serials args fs stats revoked nonrevoked) as [_ Htot].
  pose proof (add_entries_consistent (Z.of_nat (length revoked)) (Z.of_nat (length nonrevoked))
                _ (mkTotals 0 0 0 0 0 (Z.of_nat (length revoked)) (Z.of_nat (length nonrevoked)))
                (aki_entries_consistent json_serials args fs)) as H.
  rewrite <- Htot in H. unfold totals_consistent, totals in H. cbn in H. lia.
Qed.

(** ** The record of one issuer *)

Lemma foldl_assign_lookup_ne (recs : list (string * AKIStats)) (akis : gmap string AKIStats)
    (aki : string) :
  aki ∉ recs.*1 → foldl assign akis recs !! aki = akis !! aki.
Proof.
  revert akis. induction recs as [|e recs IH]; intros akis Hne; [done|].
  rewrite fmap_cons, not_elem_of_cons in Hne. destruct Hne as [Hne Hrecs].
  cbn [foldl]. rewrite IH by done. unfold assign. by rewrite lookup_insert_ne.
Qed.

Lemma foldl_assign_lookup (before after : list (string * AKIStats)) (e : string * AKIStats)
    (akis : gmap string AKIStats) :
  e.1 ∉ after.*1 → foldl assign akis (before ++ e :: after) !! e.1 = Some e.2.
Proof.
  intros Hne. rewrite foldl_app. cbn [foldl]. rewrite foldl_assign_lookup_ne by done.
  unfold assign. apply lookup_insert_eq.
Qed.

(** X4: the record [stats['AKIs']] holds for an issuer is the one of the
    last file that [genCertLists] processes for it. For a file of the known
    directory the counts are the sizes of the issuer's known set, of its
    revoked set, of their difference and of their intersection, and [crl]
    says whether the revoked set is not empty; no file of the revoked
    directory changes that record afterwards. *)
Theorem genCertLists_known_record
    (json_serials : string → option (list string)) (args : Args) (fs : FileSystem)
    (stats : Stats) (revoked nonrevoked : list string)
    (before after : list (string * string)) (file : string * string) :
  known_issuers args fs = before ++ file :: after →
  file_aki file ∉ file_aki <$> after →
  let known := known_of json_serials fs file in
  let rev := revoked_of json_serials args fs file in
  stat_akis (stats_of (genCertLists json_serials args fs stats revoked nonrevoked))
    !! file_aki file =
  Some (mkAKIStats (Z.of_nat (size known)) (Z.of_nat (size rev))
          (Z.of_nat (size (known ∖ rev))) (Z.of_nat (size (known ∩ rev)))
          (negb (bool_decide (rev = ∅)))).
Proof.
  intros Hfiles Hlast. cbn zeta.
  destruct (genCertLists_entries json_serials args fs stats revoked nonrevoked) as [-> _].
  unfold aki_entries. rewrite Hfiles, fmap_app, fmap_cons, <- app_assoc, <- app_comm_cons.
  apply (foldl_assign_lookup _ _ (file_aki file, known_entry json_serials args fs file)).
  cbn [fst]. rewrite fmap_app, <- !list_fmap_compose, not_elem_of_app. split; [done|].
  unfold revoked_only. intros (file' & Heq & [Hfile' _]%list_elem_of_filter)%list_elem_of_fmap.
  apply Hfile'. cbn in Heq. rewrite <- Heq, Hfiles.
  apply list_elem_of_fmap. exists file. split; [done|].
  apply elem_of_app. right. apply elem_of_cons. by left.
Qed.

(** X5: an issuer that has no file in the known directory gets the record of
    the last of its files in the revoked directory: all known counts are 0;
    when the file loads, [revoked] is the number of its serials and [crl] is
    true, also for an empty list; when it does not load, [revoked] is 0 and
    [crl] false. *)
Theorem genCertLists_revoked_record
    (json_serials : string → option (list string)) (args : Args) (fs : FileSystem)
    (stats : Stats) (revoked nonrevoked : list string)
    (before after : list (string * string)) (file : string * string) :
  revoked_issuers args fs = before ++ file :: after →
  file_aki file ∉ file_aki <$> after →
  file_aki file ∉ file_aki <$> known_issuers args fs →
  stat_akis (stats_of (genCertLists json_serials args fs stats revoked nonrevoked))
    !! file_aki file =
  Some (match getCertList json_serials fs (path_join file.1 file.2) (file_aki file) with
        | Some revlist => mkAKIStats 0 (Z.of_nat (size revlist)) 0 0 true
        | None => mkAKIStats 0 0 0 0 false
        end).
Proof.
  intros Hfiles Hlast Hknown.
  destruct (genCertLists_entries json_serials args fs stats revoked nonrevoked) as [-> _].
  unfold aki_entries, revoked_only. rewrite Hfiles, filter_app, filter_cons_True by done.
  rewrite fmap_app, fmap_cons, app_assoc.
  apply (foldl_assign_lookup _ _ (file_aki file, revoked_entry json_serials fs file)).
  cbn [fst]. rewrite <- list_fmap_compose.
  intros (file' & Heq & [_ Hfile']%list_elem_of_filter)%list_elem_of_fmap.
  apply Hlast. cbn in Heq. rewrite Heq. apply list_elem_of_fmap. by exists file'.
Qed.

(** ** The counters as sums over the records *)

Lemma add_entry_comm (a b : AKIStats) (t : Totals) :
  add_entry a (add_entry b t) = add_entry b (add_entry a t).
Proof. unfold add_entry. cbn. f_equal; lia. Qed.

Lemma sum_entries_insert (t : Totals) (akis : gmap string AKIStats) (aki : string)
    (a : AKIStats) :
  akis !! aki = None → sum_entries t (<[aki := a]> akis) = add_entry a (sum_entries t akis).
Proof.
  intros H. unfold sum_entries. rewrite map_fold_insert_L; [done| |done].
  intros. apply add_entry_comm.
Qed.

Lemma sum_entries_foldl (t : Totals) (recs : list (string * AKIStats)) :
  NoDup recs.*1 →
  sum_entries t (foldl assign ∅ recs) = foldl (λ t e, add_entry e.2 t) t recs.
Proof.
  induction recs as [|e recs IH] using rev_ind; intros Hnodup; [done|].
  rewrite fmap_app, NoDup_app in Hnodup. destruct Hnodup as (Hrecs & Hne & _).
  rewrite !foldl_snoc. unfold assign at 1. rewrite sum_entries_insert, IH; [done|done|].
  rewrite foldl_assign_lookup_ne; [done|].
  intros He. apply (Hne _ He). cbn. by left.
Qed.

(** A field of the totals of a map is the sum of the field of the records. *)
Lemma sum_entries_field (p : Totals → Z) (f : AKIStats → Z) (t : Totals)
    (akis : gmap string AKIStats) :
  (∀ a t', p (add_entry a t') = p t' + f a) →
  p (sum_entries t akis) = p t + sum_akis f akis.
Proof.
  intros Hp. induction akis as [|aki a akis Hnone IH] using map_ind.
  - unfold sum_entries, sum_akis. rewrite !map_fold_empty. lia.
  - rewrite sum_entries_insert, Hp, IH by done. unfold sum_akis.
    rewrite (map_fold_insert_L (λ _ a acc, acc + f a)); [lia| |done].
    intros. lia.
Qed.

Lemma aki_entries_NoDup
    (json_serials : string → option (list string)) (args : Args) (fs : FileSystem) :
  NoDup (file_aki <$> known_issuers args fs) →
  NoDup (file_aki <$> revoked_only args fs) →
  NoDup (aki_entries json_serials args fs).*1.
Proof.
  intros Hk Hr. unfold aki_entries. rewrite fmap_app, <- !list_fmap_compose.
  apply NoDup_app. split_and!; [done| |done].
  intros aki Haki (file & -> & [Hfile _]%list_elem_of_filter)%list_elem_of_fmap.
  by apply Hfile.
Qed.

(** X6: when no issuer has two files in the known directory, and no issuer
    without a known file has two files in the revoked directory, every
    counter of [stats] is the sum of its field over the records of
    [stats['AKIs']], and [nocrl] is the number of records whose [crl] is
    false. *)
Theorem genCertLists_counters_sum
    (json_serials : string → option (list string)) (args : Args) (fs : FileSystem)
    (stats : Stats) (revoked nonrevoked : list string) :
  NoDup (file_aki <$> known_issuers args fs) →
  NoDup (file_aki <$> revoked_only args fs) →
  let st := genCertLists json_serials args fs stats revoked nonrevoked in
  let akis := stat_akis (stats_of st) in
  stat_int "known" (stats_of st) = sum_akis aki_known akis ∧
  stat_int "revoked" (stats_of st) = sum_akis aki_revoked akis ∧
  stat_int "knownnotrevoked" (stats_of st) = sum_akis aki_knownnotrevoked akis ∧
  stat_int "knownrevoked" (stats_of st) = sum_akis aki_knownrevoked akis ∧
  stat_int "nocrl" (stats_of st) = sum_akis (λ a, if aki_crl a then 0 else 1) akis.
Proof.
  intros Hk Hr. cbn zeta.
  destruct (genCertLists_entries json_serials args fs stats revoked nonrevoked) as [Hakis Htot].
  rewrite Hakis.
  rewrite <- (sum_entries_foldl _ _ (aki_entries_NoDup json_serials args fs Hk Hr)) in Htot.
  rewrite <- Hakis in *.
  split_and!.
  - change (t_known (totals (genCertLists json_serials args fs stats revoked nonrevoked)) = 
            sum_akis aki_known
              (stat_akis (stats_of (genCertLists json_serials args fs stats revoked nonrevoked)))).
    rewrite Htot. by rewrite (sum_entries_field t_known aki_known).
  - change (t_revoked (totals (genCertLists json_serials args fs stats revoked nonrevoked)) = 
            sum_akis aki_revoked
              (stat_akis (stats_of (genCertLists json_serials args fs stats revoked nonrevoked)))).
    rewrite Htot. by rewrite (sum_entries_field t_revoked aki_revoked).
  - change (t_knownnotrevoked
              (totals (genCertLists json_serials args fs stats revoked nonrevoked)) = 
            sum_akis aki_knownnotrevoked
              (stat_akis (stats_of (genCertLists json_serials args fs stats revoked nonrevoked)))).
    rewrite Htot. by rewrite (sum_entries_field t_knownnotrevoked aki_knownnotrevoked).
  - change (t_knownrevoked (totals (genCertLists json_serials args fs stats revoked nonrevoked)) = 
            sum_akis aki_knownrevoked
              (stat_akis (stats_of (genCertLists json_serials args fs stats revoked nonrevoked)))).
    rewrite Htot. by rewrite (sum_entries_field t_knownrevoked aki_knownrevoked).
  - change (t_nocrl (totals (genCertLists json_serials args fs stats revoked nonrevoked)) = 
            sum_akis (λ a, if aki_crl a then 0 else 1)
              (stat_akis (stats_of (genCertLists json_serials args fs stats revoked nonrevoked)))).
    rewrite Htot. by rewrite (sum_entries_field t_nocrl (λ a, if aki_crl a then 0 else 1)).
Qed.

(** ** Exclusion *)

Section Exclusion.
Variable json_serials : string → option (list string).
Variables (args : Args) (fs : FileSystem).

Lemma walk_files_prune (top : string) :
  walk_files (fs_walk (prune args fs) top) =
  filter (λ file, excluded args file = false) (walk_files (fs_walk fs top)).
Proof.
  unfold prune, walk_files. cbn [fs_walk].
  induction (fs_walk fs top) as [|[path files] walk IH]; [done|].
  rewrite fmap_cons. cbn [mbind list_bind fst snd]. rewrite filter_app, IH. f_equal.
  clear IH. induction files as [|filename files IH]; [done|].
  rewrite fmap_cons, !filter_cons. cbn [fst snd].
  destruct (decide (splitext_root filename ∉ excludeaki args)) as [Hex|Hex].
  - rewrite decide_True by (by apply excluded_false). by rewrite fmap_cons, IH.
  - rewrite decide_False by (by rewrite excluded_false). apply IH.
Qed.

Lemma known_file_include_all (path filename : string) (st : CertLists) :
  splitext_root filename ∉ excludeaki args →
  known_file json_serials (include_all args) (prune args fs) path filename st =
  known_file json_serials args fs path filename st.
Proof.
  intros Hex. unfold known_file. cbn [excludeaki include_all revokedPath].
  rewrite (bool_decide_eq_false_2 (_ ∈ excludeaki args)) by done.
  by rewrite bool_decide_eq_false_2 by apply not_elem_of_nil.
Qed.

Lemma revoked_file_include_all (path filename : string) (st : CertLists) :
  splitext_root filename ∉ excludeaki args →
  revoked_file json_serials (include_all args) (prune args fs) path filename st =
  revoked_file json_serials args fs path filename st.
Proof.
  intros Hex. unfold revoked_file. cbn [excludeaki include_all].
  rewrite (bool_decide_eq_false_2 (_ ∈ excludeaki args)) by done.
  by rewrite bool_decide_eq_false_2 by apply not_elem_of_nil.
Qed.

Lemma foldl_excluded (body body' : string → string → CertLists → CertLists)
    (files : list (string * string)) (st : CertLists) :
  (∀ path filename st, splitext_root filename ∈ excludeaki args → body path filename st = st) →
  (∀ path filename st,
     splitext_root filename ∉ excludeaki args → body' path filename st = body path filename st) →
  foldl (λ st file, body' file.1 file.2 st) st
    (filter (λ file, excluded args file = false) files) =
  foldl (λ st file, body file.1 file.2 st) st files.
Proof.
  intros Hskip Hsame. revert st. induction files as [|[path filename] files IH]; intros st; [done|].
  rewrite filter_cons. cbn [foldl fst snd].
  destruct (decide (excluded args (path, filename) = false)) as [Hex|Hex].
  - apply excluded_false in Hex. cbn [foldl fst snd]. by rewrite Hsame, IH.
  - rewrite IH, (Hskip path filename); [done|].
    apply dec_stable. intros H. by apply Hex, excluded_false.
Qed.

End Exclusion.

(** X7: excluding issuers gives what the run without exclusions gives on a
    store whose directory listings leave out the files of these issuers: the
    same statistics, the same two lists and the same processed issuers. *)
Theorem genCertLists_exclusion
    (json_serials : string → option (list string)) (args : Args) (fs : FileSystem)
    (stats : Stats) (revoked nonrevoked : list string) :
  genCertLists json_serials args fs stats revoked nonrevoked =
  genCertLists json_serials (include_all args) (prune args fs) stats revoked nonrevoked.
Proof.
  unfold genCertLists. rewrite !walk_loop_files.
  cbn [knownPath revokedPath include_all]. rewrite !walk_files_prune.
  rewrite (foldl_excluded args (revoked_file json_serials args fs)).
  - rewrite (foldl_excluded args (known_file json_serials args fs)); [done| |].
    + intros. by apply known_file_excluded.
    + intros. by apply known_file_include_all.
  - intros. apply revoked_file_skipped. by left.
  - intros. by apply revoked_file_include_all.
Qed.

(** ** The fingerprints of one file *)

(** X8: a file that is there and parses gives the set of the fingerprints
    [aki + serial] of its serials, one for every serial that is listed: a
    serial that is listed twice counts once, so the size of the set is the
    number of different serials, at most the length of the list. *)
Theorem getCertList_fingerprints
    (json_serials : string → option (list string)) (fs : FileSystem)
    (certpath aki text : string) (serials : list string) :
  fs_files fs !! certpath = Some text →
  json_serials text = Some serials →
  ∃ certlist,
    getCertList json_serials fs certpath aki = Some certlist ∧
    (∀ x, x ∈ certlist ↔ ∃ serial, serial ∈ serials ∧ x = aki +:+ serial) ∧
    size certlist = size (list_to_set (C := gset string) serials) ∧
    (size certlist <= length serials)%nat ∧
    (NoDup serials → size certlist = length serials).
Proof.
  intros Hfile Hparse. unfold getCertList. rewrite Hfile, Hparse.
  eexists. split; [done|].
  assert (∀ l : list string,
            size (list_to_set (C := gset string) ((λ s, aki +:+ s) <$> l)) =
            size (list_to_set (C := gset string) l)) as Hsize.
  { induction l as [|s l IH]; [done|]. rewrite fmap_cons, !list_to_set_cons.
    destruct (decide (s ∈ l)) as [Hin|Hin].
    - rewrite !subseteq_union_1_L; [done| |].
      + apply singleton_subseteq_l. by apply elem_of_list_to_set.
      + apply singleton_subseteq_l. apply elem_of_list_to_set, list_elem_of_fmap. by exists s.
    - rewrite !size_union, !size_singleton, IH; [done| |].
      + apply disjoint_singleton_l. by rewrite elem_of_list_to_set.
      + apply disjoint_singleton_l. rewrite elem_of_list_to_set, list_elem_of_fmap.
        intros (s' & Heq & Hs'). apply append_inv_head in Heq. by subst. }
  assert (∀ l : list string, (size (list_to_set (C := gset string) l) <= length l)%nat ∧
            (NoDup l → size (list_to_set (C := gset string) l) = length l)) as Hlen.
  { induction l as [|s l [IHle IHeq]]; [done|]. rewrite list_to_set_cons. cbn [length]. split.
    - rewrite size_union_alt, size_singleton.
      pose proof (subseteq_size (list_to_set (C := gset string) l ∖ {[s]}) (list_to_set l)
                    ltac:(apply subseteq_difference_l; reflexivity)). lia.
    - intros [Hs Hl]%NoDup_cons. rewrite size_union, size_singleton, IHeq; [done|done|].
      apply disjoint_singleton_l. by rewrite elem_of_list_to_set. }
  split_and!.
  - intros x. rewrite elem_of_list_to_set, list_elem_of_fmap.
    split; [intros (s & -> & Hs)|intros (s & Hs & ->)]; by exists s.
  - apply Hsize.
  - rewrite Hsize. apply Hlen.
  - rewrite Hsize. apply Hlen.
Qed.

Lemma getCertList_fingerprints_witness :
  ∃ certlist,
    getCertList parse_serials
      (store [("known/A.known", json_array ["1"; "2"; "1"])] ["A.known"] [])
      "known/A.known" "A" = Some certlist ∧
    (∀ x, x ∈ certlist ↔ ∃ serial, serial ∈ ["1"; "2"; "1"] ∧ x = "A" +:+ serial) ∧
    size certlist = size (list_to_set (C := gset string) ["1"; "2"; "1"]) ∧
    (size certlist <= length ["1"; "2"; "1"])%nat ∧
    (NoDup ["1"; "2"; "1"] → size certlist = length ["1"; "2"; "1"]).
Proof.
  refine (getCertList_fingerprints parse_serials
            (store [("known/A.known", json_array ["1"; "2"; "1"])] ["A.known"] [])
            "known/A.known" "A" (json_array ["1"; "2"; "1"]) ["1"; "2"; "1"] _ _).
  - reflexivity.
  - reflexivity.
Defined.

(** A serial that is listed twice is counted once. *)
Example getCertList_repeated_serial :
  size <$> getCertList parse_serials
             (store [("known/A.known", json_array ["1"; "2"; "1"])] ["A.known"] [])
             "known/A.known" "A" = Some 2%nat.
Proof. by vm_compute. Qed.

(** *** Concrete reconciliations *)

Lemma genCertLists_akis_consistent_witness :
  aki_consistent (mkAKIStats 3 1 2 1 true).
Proof.
  refine (genCertLists_akis_consistent parse_serials example_args store_two_issuers ∅ [] []
            "A" (mkAKIStats 3 1 2 1 true) _).
  vm_compute. reflexivity.
Defined.

Lemma genCertLists_known_record_witness :
  stat_akis (stats_of (genCertLists parse_serials example_args store_two_issuers ∅ [] []))
    !! "A" = Some (mkAKIStats 3 1 2 1 true).
Proof.
  refine (eq_trans (genCertLists_known_record parse_serials example_args store_two_issuers
                      ∅ [] [] [] [] ("known", "A.known") _ _) _).
  - reflexivity.
  - apply not_elem_of_nil.
  - vm_compute. reflexivity.
Defined.

Lemma genCertLists_revoked_record_witness :
  stat_akis (stats_of (genCertLists parse_serials example_args store_two_issuers ∅ [] []))
    !! "A2" = Some (mkAKIStats 0 1 0 0 true).
Proof.
  refine (eq_trans (genCertLists_revoked_record parse_serials example_args store_two_issuers
                      ∅ [] [] [("revoked", "A.revoked")] [] ("revoked", "A2.revoked") _ _ _) _).
  - reflexivity.
  - apply not_elem_of_nil.
  - apply (bool_decide_unpack _). vm_compute. exact I.
  - vm_compute. reflexivity.
Defined.

Lemma genCertLists_counters_sum_witness :
  let st := genCertLists parse_serials example_args store_two_issuers ∅ [] [] in
  let akis := stat_akis (stats_of st) in
  stat_int "known" (stats_of st) = sum_akis aki_known akis ∧
  stat_int "revoked" (stats_of st) = sum_akis aki_revoked akis ∧
  stat_int "knownnotrevoked" (stats_of st) = sum_akis aki_knownnotrevoked akis ∧
  stat_int "knownrevoked" (stats_of st) = sum_akis aki_knownrevoked akis ∧
  stat_int "nocrl" (stats_of st) = sum_akis (λ a, if aki_crl a then 0 else 1) akis.
Proof.
  refine (genCertLists_counters_sum parse_serials example_args store_two_issuers ∅ [] [] _ _).
  - apply (bool_decide_unpack _). vm_compute. exact I.
  - apply (bool_decide_unpack _). vm_compute. exact I.
Defined.

(** An issuer with two known files is counted twice in [known] and once,
    by its last file, in its record. *)
Example genCertLists_issuer_counted_twice :
  let st := genCertLists parse_serials example_args store_two_dirs ∅ [] [] in
  stat_int "known" (stats_of st) = 3 ∧
  sum_akis aki_known (stat_akis (stats_of st)) = 2.
Proof. by vm_compute. Qed.

(** The totals of [store_two_issuers]. *)
Example genCertLists_two_issuers_counters :
  let st := genCertLists parse_serials example_args store_two_issuers ∅ [] [] in
  (λ k, stat_int k (stats_of st)) <$>
    ["known"; "revoked"; "knownnotrevoked"; "knownrevoked"; "nocrl"] = [3; 2; 2; 1; 0].
Proof. by vm_compute. Qed.

(** ** The key-list cache: what can be read back *)

Lemma has_char_append (c : ascii) (a b : string) :
  has_char c (a +:+ b) = has_char c a || has_char c b.
Proof.
  induction a as [|x a IH]; [done|]. rewrite append_cons. cbn. by rewrite IH, orb_assoc.
Qed.

Lemma has_char_substring_0 (c : ascii) (n : nat) (s : string) :
  has_char c s = false → has_char c (substring 0 n s) = false.
Proof.
  revert n. induction s as [|x s IH]; intros [|n] H; try done.
  cbn in H |- *. apply orb_false_elim in H as [-> H]. by apply IH.
Qed.

Lemma one_line_chop (key : string) : one_line key → one_line (chop key).
Proof. intros [H1 H2]. split; by apply has_char_substring_0. Qed.

Lemma one_line_snoc (cur : string) (c : ascii) :
  one_line cur → Ascii.eqb c LF = false → Ascii.eqb c CR = false →
  one_line (cur +:+ String c "").
Proof.
  intros [H1 H2] Hlf Hcr. split; rewrite has_char_append; cbn.
  - by rewrite H1, Hlf.
  - by rewrite H2, Hcr.
Qed.

(** Every line that text-mode reading hands over gives a key without a line
    terminator. *)
Lemma readlines_one_line (text cur : string) :
  one_line cur → Forall (λ line, one_line (chop line)) (readlines cur text).
Proof.
  assert (∀ cur, one_line cur → one_line (chop (cur +:+ String LF ""))) as Hline.
  { intros cur' H. by rewrite chop_line. }
  assert (one_line "") as Hnil by done.
  assert (∀ n text cur, (String.length text <= n)%nat → one_line cur →
            Forall (λ line, one_line (chop line)) (readlines cur text)) as Hlen;
    [|by apply (Hlen (String.length text))].
  clear text cur. intros n. induction n as [|n IH]; intros text cur Hn Hcur.
  { destruct text; [|cbn in Hn; lia]. cbn [readlines].
    destruct (String.eqb cur ""); [constructor|]. constructor; [|constructor].
    by apply one_line_chop. }
  destruct text as [|c text]; cbn [readlines].
  { destruct (String.eqb cur ""); [constructor|]. constructor; [|constructor].
    by apply one_line_chop. }
  cbn [String.length] in Hn.
  destruct (Ascii.eqb c LF) eqn:Hlf.
  { constructor; [by apply Hline|]. apply IH; [lia|done]. }
  destruct (Ascii.eqb c CR) eqn:Hcr.
  - destruct text as [|c' text'].
    + constructor; [by apply Hline|]. constructor.
    + cbn [String.length] in Hn. destruct (Ascii.eqb c' LF).
      * constructor; [by apply Hline|]. apply IH; [lia|done].
      * constructor; [by apply Hline|]. apply IH; [cbn [String.length]; lia|done].
  - apply IH; [lia|]. by apply one_line_snoc.
Qed.

Lemma text_keys_one_line (text : string) : Forall one_line (text_keys text).
Proof. unfold text_keys. rewrite Forall_fmap. by apply readlines_one_line. Qed.

(** X9: a list of keys is read back from its cache file as it was saved
    exactly when no key holds a line terminator (LF or CR); whatever file
    [loadCertLists] reads, no key it returns holds one. *)
Theorem cache_round_trip_iff (keys : list string) :
  (text_keys (keys_text keys) = keys ↔ Forall one_line keys) ∧
  ∀ text, Forall one_line (text_keys text).
Proof.
  split; [|apply text_keys_one_line].
  split; [|apply text_keys_keys_text].
  intros <-. apply text_keys_one_line.
Qed.

Lemma readlines_unterminated (cur text : string) :
  one_line text → cur +:+ text ≠ "" → readlines cur text = [cur +:+ text].
Proof.
  revert cur. induction text as [|c text IH]; intros cur [Hlf Hcr] Hne.
  - rewrite append_nil_r in *. cbn. by rewrite (proj2 (String.eqb_neq _ _) Hne).
  - cbn in Hlf, Hcr. apply orb_false_elim in Hlf as [Hc1 Hlf], Hcr as [Hc2 Hcr].
    cbn [readlines]. rewrite Hc1, Hc2.
    rewrite IH; [by rewrite append_assoc|done|].
    rewrite append_assoc, append_cons, append_nil_l. intros H.
    apply (f_equal String.length) in H.
    rewrite length_append in H. cbn [String.length] in H. lia.
Qed.

Lemma text_keys_app (keys : list string) (rest : string) :
  Forall one_line keys → text_keys (keys_text keys +:+ rest) = keys ++ text_keys rest.
Proof.
  unfold text_keys. induction 1 as [|key keys Hkey _ IH]; [by rewrite append_nil_l|].
  cbn [keys_text foldr]. rewrite append_assoc, append_cons.
  rewrite readlines_key by done.
  rewrite append_nil_l, fmap_cons, chop_line. cbn [app]. f_equal. apply IH.
Qed.

Lemma length_substring_0 (n : nat) (s : string) :
  (n <= String.length s)%nat → String.length (substring 0 n s) = n.
Proof.
  revert n. induction s as [|c s IH]; intros [|n] H; cbn in H |- *; try done; [lia|].
  rewrite IH; [done|lia].
Qed.

(** X10: [loadCertLists] takes the last character off every line, also off a
    last line that has no newline. A cache file that ends in a key without
    a newline gives the keys before it unchanged and this key without its
    last character. *)
Theorem loadCertLists_unterminated_key (keys : list string) (key : string) :
  Forall one_line keys → one_line key → key ≠ "" →
  text_keys (keys_text keys +:+ key) = keys ++ [chop key] ∧
  String.length (chop key) = (String.length key - 1)%nat.
Proof.
  intros Hkeys Hkey Hne. split.
  - rewrite text_keys_app by done. unfold text_keys.
    rewrite readlines_unterminated by (by rewrite ?append_nil_l).
    by rewrite append_nil_l.
  - unfold chop. apply length_substring_0. lia.
Qed.

Lemma loadCertLists_unterminated_key_witness :
  text_keys (keys_text ["A1"; "A2"] +:+ "A3") = ["A1"; "A2"; "A"].
Proof.
  refine (proj1 (loadCertLists_unterminated_key ["A1"; "A2"] "A3" _ _ _)).
  - apply Forall_one_line. reflexivity.
  - split; reflexivity.
  - discriminate.
Defined.

(** ** The false-positive policy with no revoked key *)

(** [math.sqrt(2) * n] is a positive number or the positive infinity. *)
Lemma sqrt2_times_sign (n : Z) :
  0 < n < 2 ^ 63 →
  (∃ m e, Prim2SF (PrimFloat.mul (PrimFloat.sqrt 2%float) (float_of_int n)) =
            S754_finite false m e) ∨
  Prim2SF (PrimFloat.mul (PrimFloat.sqrt 2%float) (float_of_int n)) = S754_infinity false.
Proof.
  intros Hn. rewrite FloatAxioms.mul_spec.
  change (Prim2SF (PrimFloat.sqrt 2%float)) with (S754_finite false 6369051672525773 (-52)).
  destruct (float_of_int_positive n Hn) as [(m & e & -> & He)| ->]; [|by right].
  unfold SF64mul, SFmul.
  destruct (binary_round_aux_positive prec emax eq_refl (xorb false false)
              (6369051672525773 * m) (-52 + e) loc_Exact)
    as [(m' & e' & -> & _)| ->]; [change (SpecFloat.emin prec emax) with (-1074); lia| |].
  - left. by exists m', e'.
  - by right.
Qed.

(** X11: with no revoked key and at least one non-revoked key (a length is
    below [2^63]) the first rate is exactly 0: [getFPRs] raises nothing and
    returns [[0.0, 0.5]]. *)
Theorem getFPRs_no_revoked (nonrevoked : list string) :
  (0 < length nonrevoked)%nat →
  Z.of_nat (length nonrevoked) < 2 ^ 63 →
  getFPRs [] nonrevoked = Ok [0%float; 0.5%float].
Proof.
  intros Hpos Hlt. unfold getFPRs, float_div. rewrite sqrt2_times_positive by lia.
  do 2 f_equal. apply Prim2SF_inj. rewrite FloatAxioms.div_spec.
  change (Prim2SF (float_of_int (Z.of_nat (length (@nil string))))) with (S754_zero false).
  change (Prim2SF 0%float) with (S754_zero false).
  by destruct (sqrt2_times_sign (Z.of_nat (length nonrevoked)) ltac:(lia))
    as [(m & e & ->)| ->].
Qed.

Lemma getFPRs_no_revoked_witness :
  getFPRs [] ["A1"; "A2"] = Ok [0%float; 0.5%float].
Proof.
  apply (getFPRs_no_revoked ["A1"; "A2"]).
  - cbn. lia.
  - by vm_compute.
Defined.

(** ** What a run does to the world *)

Lemma touches_refl (allowed : list event) (w : World) : touches allowed w w.
Proof.
  split_and!; try done. exists []. split; [by rewrite app_nil_r|]. by intros e ?%elem_of_nil.
Qed.

Lemma touches_trans (allowed : list event) (w1 w2 w3 : World) :
  touches allowed w1 w2 → touches allowed w2 w3 → touches allowed w1 w3.
Proof.
  intros (Hw1 & Hf1 & Hs1 & evs1 & Hl1 & He1) (Hw2 & Hf2 & Hs2 & evs2 & Hl2 & He2).
  split_and!.
  - by rewrite Hw2.
  - intros path Hp. by rewrite Hf2, Hf1.
  - intros path Hp. by apply Hs2, Hs1.
  - exists (evs1 ++ evs2). split; [by rewrite Hl2, Hl1, app_assoc|].
    intros e [?|?]%elem_of_app; auto.
Qed.

Lemma touches_mono (allowed allowed' : list event) (w w' : World) :
  (∀ e, e ∈ allowed → e ∈ allowed') → touches allowed w w' → touches allowed' w w'.
Proof.
  intros Hsub (Hw & Hf & Hs & evs & Hl & He). split_and!; try done.
  - intros path Hp. apply Hf. intros H. by apply Hp, Hsub.
  - exists evs. split; [done|]. intros e H. by apply Hsub, He.
Qed.

Lemma touches_written (allowed : list event) (path text : string) (w : World) :
  Wrote path ∈ allowed → touches allowed w (written path text w).
Proof.
  intros Hin. split_and!; cbn; try done.
  - intros path' Hp. apply lookup_insert_ne. by intros ->.
  - intros path' Hp. apply lookup_insert_is_Some. destruct (decide (path = path')); auto.
  - exists [Wrote path]. split; [done|]. by intros e ->%list_elem_of_singleton.
Qed.

Lemma touches_checked (allowed : list event) (w : World) :
  Checked ∈ allowed → touches allowed w (checked w).
Proof.
  intros Hin. split_and!; cbn; try done.
  exists [Checked]. split; [done|]. by intros e ->%list_elem_of_singleton.
Qed.

Section Run.
Context {E : Externals}.

(** The first part of [main] cannot fail, and it writes at most the two
    cache files. *)
Lemma certs_phase_total (args : Args) (stats : Stats) (w : World) :
  ∃ w1 x, certs_phase args stats w = (w1, Ok x) ∧
          touches [Wrote (revokedKeys args); Wrote (validKeys args)] w w1.
Proof.
  unfold certs_phase. run.
  destruct (cachekeys args && isfile (w_fs w) (revokedKeys args) &&
            isfile (w_fs w) (validKeys args)) eqn:Hc.
  - apply andb_prop in Hc as [[_ Hr]%andb_prop Hv]. unfold isfile in Hr, Hv.
    apply bool_decide_eq_true in Hr as [rt Hr], Hv as [vt Hv].
    unfold loadCertLists. run. rewrite Hr, Hv. eexists _, _. split; [done|apply touches_refl].
  - destruct (cachekeys args).
    + rewrite saveCertLists_run. eexists _, _. split; [done|].
      eapply touches_trans; apply touches_written; rewrite !elem_of_cons; auto.
    + eexists _, _. split; [done|apply touches_refl].
Qed.

(** The errors the construction of the filter can end with. *)
Lemma generateMLBF_errors (args : Args) (stats : Stats) (revoked nonrevoked : list string)
    (w w1 : World) (e : exn) :
  (∀ path, diffMetaFile args = Some path → is_Some (fs_files (w_fs w) !! path)) →
  generateMLBF args stats revoked nonrevoked w = (w1, Raise e) →
  e ∈ [ZeroDivisionError; OverflowError; ValueError; CascadeError].
Proof.
  intros Hmeta. unfold generateMLBF, getFPRs, float_div, int_of_float. run.
  destruct (PrimFloat.eqb _ _).
  { intros ?; simplify_eq. rewrite !elem_of_cons. auto. }
  destruct (diffMetaFile args) as [path|].
  - destruct (Hmeta path eq_refl) as [meta ->].
    destruct (loadDiffMeta meta) as [c|].
    + destruct (initialize _ _ _); intros ?; simplify_eq. rewrite !elem_of_cons. auto 10.
    + intros ?; simplify_eq. rewrite !elem_of_cons. auto 10.
  - destruct (Prim2SF _); try (intros ?; simplify_eq; rewrite !elem_of_cons; by auto 10).
    + destruct (cascade_with_characteristics _ _) as [c|].
      * destruct (initialize _ _ _); intros ?; simplify_eq. rewrite !elem_of_cons. auto 10.
      * intros ?; simplify_eq. rewrite !elem_of_cons. auto 10.
    + destruct (cascade_with_characteristics _ _) as [c|].
      * destruct (initialize _ _ _); intros ?; simplify_eq. rewrite !elem_of_cons. auto 10.
      * intros ?; simplify_eq. rewrite !elem_of_cons. auto 10.
Qed.

(** The filter that was built leaves its size under [mlbf_bits]. *)
Lemma generateMLBF_bits (args : Args) (stats stats1 : Stats) (revoked nonrevoked : list string)
    (w w1 : World) (mlbf : cascade) :
  generateMLBF args stats revoked nonrevoked w = (w1, Ok (stats1, mlbf)) →
  stats1 !! "mlbf_bits" = Some (VInt (bitCount mlbf)).
Proof.
  unfold generateMLBF. run.
  destruct (getFPRs revoked nonrevoked) as [fprs|e]; [|done].
  destruct (diffMetaFile args) as [path|].
  - destruct (fs_files (w_fs w) !! path) as [meta|]; [|done].
    destruct (loadDiffMeta meta) as [c|]; [|done].
    destruct (initialize _ _ _); [|done]. intros ?; simplify_eq. apply lookup_insert_eq.
  - destruct (int_of_float _) as [n|e]; [|done].
    destruct (cascade_with_characteristics n fprs) as [c|]; [|done].
    destruct (initialize _ _ _); [|done]. intros ?; simplify_eq. apply lookup_insert_eq.
Qed.

Lemma verifyMLBF_run (args : Args) (mlbf : cascade) (revoked nonrevoked : list string)
    (w : World) :
  verifyMLBF args mlbf revoked nonrevoked w =
  if noVerify args then (w, Ok ())
  else (checked w, if check revoked nonrevoked mlbf then Ok () else Raise VerificationError).
Proof.
  unfold verifyMLBF. run. destruct (noVerify args); [done|].
  by destruct (check revoked nonrevoked mlbf).
Qed.

(** [saveMLBF] when the base file of the patch, if one is set, is there and
    the path of the patch is set with it. *)
Lemma saveMLBF_run (args : Args) (stats : Stats) (mlbf : cascade) (w : World) :
  (∀ base, diffBaseFile args = Some base →
     is_Some (fs_files (w_fs w) !! base) ∧ is_Some (patchFile args)) →
  let w2 := written (metaFile args) (saveDiffMeta mlbf)
              (written (outFile args) (tofile mlbf) w) in
  let stats2 :=
    <["mlbf_metafilesize" := VInt (Z.of_nat (String.length (saveDiffMeta mlbf)))]>
      (<["mlbf_filesize" := VInt (Z.of_nat (String.length (tofile mlbf)))]> stats) in
  saveMLBF args stats mlbf w =
  match diffBaseFile args, patchFile args with
  | Some base, Some patch =>
      let text := file_diff (default "" (fs_files (w_fs w2) !! base))
                    (default "" (fs_files (w_fs w2) !! outFile args)) in
      (written patch text w2,
       Ok (<["mlbf_diffsize" := VInt (Z.of_nat (String.length text))]> stats2))
  | _, _ => (w2, Ok stats2)
  end.
Proof.
  intros Hbase. cbn zeta. unfold saveMLBF. run.
  destruct (diffBaseFile args) as [base|]; [|by destruct (patchFile args)].
  destruct (Hbase base eq_refl) as [Hold [patch ->]].
  assert (is_Some (fs_files (w_fs (written (metaFile args) (saveDiffMeta mlbf)
                     (written (outFile args) (tofile mlbf) w))) !! base)) as [old Hold'].
  { cbn. rewrite !lookup_insert_is_Some'. auto. }
  assert (is_Some (fs_files (w_fs (written (metaFile args) (saveDiffMeta mlbf)
                     (written (outFile args) (tofile mlbf) w))) !! outFile args)) as [new Hnew].
  { cbn. rewrite !lookup_insert_is_Some'. auto. }
  by rewrite Hold', Hnew.
Qed.

End Run.

(** ** The paths of a run *)

Lemma patch_name_ne (prev name : string) :
  (String.length name < 13)%nat → "filter." +:+ prev +:+ ".patch" ≠ name.
Proof.
  intros Hlen H. apply (f_equal String.length) in H.
  rewrite !length_append in H. cbn [String.length] in H. lia.
Qed.

Lemma output_names_NoDup (c : Cli) : NoDup (output_names c).
Proof.
  unfold output_names. apply NoDup_app. split_and!.
  - apply (bool_decide_unpack _). by vm_compute.
  - intros name Hname. destruct (cli_previd c) as [prev|]; [|apply not_elem_of_nil].
    intros ->%list_elem_of_singleton. revert Hname.
    rewrite !elem_of_cons, elem_of_nil.
    intros [H|[H|[H|[H|[H|[]]]]]]; (eapply patch_name_ne; [|exact H]); cbn; lia.
  - destruct (cli_previd c); [apply NoDup_singleton|apply NoDup_nil_2].
Qed.

Lemma output_names_relative (c : Cli) (name : string) :
  name ∈ output_names c → startswith_char slash name = false.
Proof.
  unfold output_names. rewrite elem_of_app, !elem_of_cons, elem_of_nil.
  intros [[->|[->|[->|[->|[->|[]]]]]]|H]; try done.
  destruct (cli_previd c); [|by apply elem_of_nil in H].
  by apply list_elem_of_singleton in H as ->.
Qed.

Lemma outputs_paths (c : Cli) :
  let args := parseArgs c in
  outputs c =
    [revokedKeys args; validKeys args; outFile args; metaFile args; stats_path args] ++
    match cli_previd c with
    | Some prev => [path_join (out_dir c) ("filter." +:+ prev +:+ ".patch")]
    | None => []
    end.
Proof.
  cbn zeta. unfold outputs, output_names. rewrite fmap_app. f_equal.
  by destruct (cli_previd c).
Qed.

(** X12: the files a run may write (the two key lists, the filter, its
    metadata, the statistics and the patch) have pairwise different paths,
    whatever the identifiers and directory names are: no output of a run
    overwrites another one. *)
Theorem outputs_NoDup (c : Cli) :
  NoDup (outputs c) ∧
  let args := parseArgs c in
  outputs c =
    [revokedKeys args; validKeys args; outFile args; metaFile args; stats_path args] ++
    match cli_previd c with
    | Some prev => [path_join (out_dir c) ("filter." +:+ prev +:+ ".patch")]
    | None => []
    end.
Proof.
  split; [|apply outputs_paths].
  unfold outputs. apply NoDup_fmap_2_strong; [|apply output_names_NoDup].
  intros a b Ha Hb Heq. destruct (decide (a = b)) as [|Hne]; [done|].
  by destruct (path_join_ne (out_dir c) a b (output_names_relative c a Ha)
                 (output_names_relative c b Hb) Hne).
Qed.

Lemma diff_setup_files (c : Cli) (fs : FileSystem) :
  let args := diff_setup (parseArgs c) fs in
  (∀ path, diffMetaFile args = Some path → is_Some (fs_files fs !! path)) ∧
  (∀ base, diffBaseFile args = Some base →
     is_Some (fs_files fs !! base) ∧ is_Some (patchFile args)) ∧
  (∀ path, patchFile args = Some path →
     ∃ prev, cli_previd c = Some prev ∧
             path = path_join (out_dir c) ("filter." +:+ prev +:+ ".patch")) ∧
  noVerify args = cli_noVerify c.
Proof.
  cbn zeta. unfold diff_setup, out_dir, isfile. cbn [previd parseArgs].
  destruct (cli_previd c) as [prev|]; [|by split_and!].
  destruct (bool_decide _ && bool_decide _) eqn:Hfiles; [|by split_and!].
  apply andb_prop in Hfiles as [Hm%bool_decide_eq_true Hb%bool_decide_eq_true].
  cbn. split_and!; try done.
  - by intros path [= <-].
  - intros base [= <-]. split; [done|eauto].
  - intros path [= <-]. by exists prev.
Qed.


(** ** The course of a run *)

Section RunMain.
Context {E : Externals}.

(** [main] by cases: the key lists are always obtained; the run then ends
    with an error of the construction of the filter, with a failed
    verification, or with the statistics file written last. *)
Lemma main_run (c : Cli) (w : World) :
  ∃ w1 stats0 revoked nonrevoked,
    certs_phase (parseArgs c) ∅ w = (w1, Ok (stats0, revoked, nonrevoked)) ∧
    touches [Wrote (revokedKeys (parseArgs c)); Wrote (validKeys (parseArgs c))] w w1 ∧
    let args := diff_setup (parseArgs c) (w_fs w1) in
    match generateMLBF args stats0 revoked nonrevoked w1 with
    | (_, Raise e) =>
        main c w = (w1, Raise e) ∧
        e ∈ [ZeroDivisionError; OverflowError; ValueError; CascadeError]
    | (_, Ok (stats1, mlbf)) =>
        stats1 !! "mlbf_bits" = Some (VInt (bitCount mlbf)) ∧
        if 0 <? bitCount mlbf then
          let w2 := if noVerify args then w1 else checked w1 in
          if noVerify args || check revoked nonrevoked mlbf then
            ∃ w3 stats2,
              saveMLBF args stats1 mlbf w2 = (w3, Ok stats2) ∧
              main c w = (written (stats_path args) (json_dumps stats2) w3, Ok stats2)
          else main c w = (w2, Raise VerificationError)
        else main c w = (written (stats_path args) (json_dumps stats1) w1, Ok stats1)
    end.
Proof.
  destruct (certs_phase_total (parseArgs c) ∅ w)
    as (w1 & [[stats0 revoked] nonrevoked] & Hc & Ht).
  exists w1, stats0, revoked, nonrevoked. split_and!; [done|done|]. cbn zeta.
  rewrite main_after_certs, Hc. unfold after_certs, saveStats. run.
  destruct (diff_setup_files c (w_fs w1)) as (Hmeta & Hbase & _ & _).
  destruct (generateMLBF _ _ _ _ w1) as [wg [[stats1 mlbf]|e]] eqn:Hg.
  - pose proof (generateMLBF_world _ _ _ _ _ _ _ Hg) as ->.
    split; [by eapply generateMLBF_bits|].
    destruct (0 <? bitCount mlbf); [|done].
    rewrite verifyMLBF_run.
    destruct (noVerify _); cbn [orb].
    + destruct (saveMLBF _ stats1 mlbf w1) as [w3 [stats2|e]] eqn:Hs.
      * by exists w3, stats2.
      * rewrite saveMLBF_run in Hs by done.
        destruct (diffBaseFile _), (patchFile _); done.
    + destruct (check revoked nonrevoked mlbf); [|done].
      destruct (saveMLBF _ stats1 mlbf (checked w1)) as [w3 [stats2|e]] eqn:Hs.
      * by exists w3, stats2.
      * rewrite saveMLBF_run in Hs by done.
        destruct (diffBaseFile _), (patchFile _); done.
  - pose proof (generateMLBF_world _ _ _ _ _ _ _ Hg) as ->.
    split; [done|]. by eapply generateMLBF_errors.
Qed.

End RunMain.

(** ** What a run leaves behind *)

Section RunProps.
Context {E : Externals}.

Lemma saveMLBF_touches (args : Args) (stats stats2 : Stats) (mlbf : cascade) (w w3 : World) :
  (∀ base, diffBaseFile args = Some base →
     is_Some (fs_files (w_fs w) !! base) ∧ is_Some (patchFile args)) →
  saveMLBF args stats mlbf w = (w3, Ok stats2) →
  touches (Wrote <$> (outFile args :: metaFile args :: option_list (patchFile args))) w w3.
Proof.
  intros Hbase. rewrite saveMLBF_run by done. cbn zeta.
  assert (touches (Wrote <$> (outFile args :: metaFile args :: option_list (patchFile args))) w
            (written (metaFile args) (saveDiffMeta mlbf)
               (written (outFile args) (tofile mlbf) w))) as H2.
  { eapply touches_trans; apply touches_written; rewrite !fmap_cons, !elem_of_cons; auto. }
  destruct (diffBaseFile args) as [base|]; [|by intros ?; simplify_eq].
  destruct (patchFile args) as [patch|]; [|by intros ?; simplify_eq].
  intros ?; simplify_eq. eapply touches_trans; [exact H2|].
  apply touches_written. cbn. rewrite !elem_of_cons. auto.
Qed.




(** X13: a run that ends with an error has written nothing but, possibly,
    the two cache files: every other file is as it was, the statistics file
    included, and no file was removed. The error is one of the
    construction of the filter (a division by zero, a capacity that is not a
    finite number, an error of the cascade) or the failed verification,
    which [-noVerify] rules out; no file is opened that is not there. *)
Theorem main_failure (c : Cli) (w w' : World) (e : exn) :
  main c w = (w', Raise e) →
  let args := parseArgs c in
  e ∈ [ZeroDivisionError; OverflowError; ValueError; CascadeError; VerificationError] ∧
  (cli_noVerify c = true → e ≠ VerificationError) ∧
  touches [Wrote (revokedKeys args); Wrote (validKeys args); Checked] w w'.
Proof.
  intros Hmain. cbn zeta.
  destruct (main_run c w) as (w1 & stats0 & revoked & nonrevoked & _ & Ht & Hrun).
  cbn zeta in Hrun.
  assert (touches [Wrote (revokedKeys (parseArgs c)); Wrote (validKeys (parseArgs c)); Checked]
            w w1) as Ht'.
  { eapply touches_mono; [|exact Ht]. intros e'. rewrite !elem_of_cons. tauto. }
  destruct (diff_setup_files c (w_fs w1)) as (_ & _ & _ & Hnv).
  destruct (generateMLBF _ _ _ _ w1) as [wg [[stats1 mlbf]|e']].
  - destruct Hrun as [_ Hrun]. destruct (0 <? bitCount mlbf).
    + cbn zeta in Hrun. rewrite Hnv in Hrun. destruct (cli_noVerify c); cbn [orb] in Hrun.
      * destruct Hrun as (w3 & stats2 & _ & Hrun). by rewrite Hrun in Hmain.
      * destruct (check revoked nonrevoked mlbf).
        { destruct Hrun as (w3 & stats2 & _ & Hrun). by rewrite Hrun in Hmain. }
        rewrite Hrun in Hmain. simplify_eq. split_and!.
        -- rewrite !elem_of_cons. auto 10.
        -- done.
        -- eapply touches_trans; [exact Ht'|]. apply touches_checked.
           rewrite !elem_of_cons. auto.
    + by rewrite Hrun in Hmain.
  - destruct Hrun as [Hrun He]. rewrite Hrun in Hmain. simplify_eq. split_and!.
    + revert He. rewrite !elem_of_cons, !elem_of_nil. tauto.
    + intros _ ->. revert He. rewrite !elem_of_cons, elem_of_nil.
      intros [?|[?|[?|[?|[]]]]]; discriminate.
    + done.
Qed.


End RunProps.

Section RunSuccess.
Context {E : Externals}.

Lemma diff_setup_previous (c : Cli) (fs : FileSystem) (prev : string) :
  cli_previd c = Some prev →
  let dir := path_join (path_join (cli_certPath c) prev) (cli_outDirName c) in
  is_Some (fs_files fs !! path_join dir "filter.meta") →
  is_Some (fs_files fs !! path_join dir "filter") →
  let args := diff_setup (parseArgs c) fs in
  diffMetaFile args = Some (path_join dir "filter.meta") ∧
  diffBaseFile args = Some (path_join dir "filter") ∧
  patchFile args = Some (path_join (out_dir c) ("filter." +:+ prev +:+ ".patch")).
Proof.
  intros Hprev. cbn zeta. intros Hm Hb. unfold diff_setup, isfile.
  cbn [previd parseArgs certPath outDirName].
  rewrite Hprev, !bool_decide_eq_true_2 by done. by cbn.
Qed.

Lemma output_paths_differ (c : Cli) (fs : FileSystem) :
  let args := diff_setup (parseArgs c) fs in
  outFile args = outFile (parseArgs c) ∧
  metaFile args = metaFile (parseArgs c) ∧
  outFile args ≠ metaFile args ∧
  outFile args ≠ stats_path args ∧
  metaFile args ≠ stats_path args ∧
  ∀ patch, patchFile args = Some patch →
    patch ≠ outFile args ∧ patch ≠ metaFile args ∧ patch ≠ stats_path args ∧
    patch ≠ revokedKeys args ∧ patch ≠ validKeys args.
Proof.
  cbn zeta. destruct (diff_setup_paths c fs) as (Hrk & Hvk & Hsp & Hout & Hmeta & Hpatch).
  rewrite Hrk, Hvk, Hsp, Hout, Hmeta. split_and!; try done; try by apply path_join_ne.
  intros patch (prev & ->)%Hpatch.
  split_and!; (apply path_join_ne; [done|done|]); apply patch_name_ne; cbn; lia.
Qed.

(** X15: a run that ends well has written the statistics file once, as its
    last action, and the file holds [json.dumps] of the statistics the run
    ends with. *)
Theorem main_stats_last (c : Cli) (w w' : World) (stats : Stats) :
  main c w = (w', Ok stats) →
  let path := stats_path (parseArgs c) in
  fs_files (w_fs w') !! path = Some (json_dumps stats) ∧
  ∃ evs, w_log w' = w_log w ++ evs ++ [Wrote path] ∧ (Wrote path ∉ evs).
Proof.
  intros Hmain. cbn zeta.
  destruct (main_run c w) as (w1 & stats0 & revoked & nonrevoked & _ & Ht & Hrun).
  cbn zeta in Hrun.
  set (args := diff_setup (parseArgs c) (w_fs w1)) in *.
  set (allowed := [Wrote (revokedKeys args); Wrote (validKeys args); Checked] ++
                  (Wrote <$> (outFile args :: metaFile args :: option_list (patchFile args)))).
  assert (Wrote (stats_path (parseArgs c)) ∉ allowed) as Hnot.
  { subst allowed args. rewrite <- (diff_setup_stats_path (parseArgs c) (w_fs w1)).
    destruct (output_paths_differ c (w_fs w1)) as (_ & _ & _ & H1 & H2 & Hp).
    destruct (diff_setup_paths c (w_fs w1)) as (Hrk & Hvk & Hsp & _).
    rewrite elem_of_app, !elem_of_cons, elem_of_nil, !fmap_cons, !elem_of_cons.
    intros [[H|[H|[H|[]]]]|[H|[H|H]]]; simplify_eq.
    - rewrite Hrk, Hsp in H. revert H. by apply path_join_ne.
    - rewrite Hvk, Hsp in H. revert H. by apply path_join_ne.
    - destruct (patchFile _) as [patch|]; [|by apply elem_of_nil in H].
      apply list_elem_of_singleton in H. simplify_eq.
      by destruct (Hp _ eq_refl) as (_ & _ & ? & _). }
  assert (touches allowed w w1) as Ht1.
  { eapply touches_mono; [|exact Ht]. intros e. subst allowed args.
    destruct (diff_setup_paths c (w_fs w1)) as (-> & -> & _).
    cbn [parseArgs revokedKeys validKeys].
    fold (out_dir c). rewrite elem_of_app, !elem_of_cons. tauto. }
  assert (∀ w3, touches allowed w w3 →
            let w4 := written (stats_path args) (json_dumps stats) w3 in
            fs_files (w_fs w4) !! stats_path (parseArgs c) = Some (json_dumps stats) ∧
            ∃ evs, w_log w4 = w_log w ++ evs ++ [Wrote (stats_path (parseArgs c))] ∧
                   (Wrote (stats_path (parseArgs c)) ∉ evs)) as Hlast.
  { intros w3 (_ & _ & _ & evs & Hlog & Hevs). cbn zeta. subst args.
    rewrite diff_setup_stats_path. split; [apply lookup_insert_eq|].
    exists evs. cbn [written w_log]. rewrite Hlog, <- app_assoc. split; [done|].
    intros H. by apply Hnot, Hevs. }
  destruct (diff_setup_files c (w_fs w1)) as (_ & Hbase & _ & _). fold args in Hbase.
  destruct (generateMLBF _ _ _ _ w1) as [wg [[stats1 mlbf]|e']].
  - destruct Hrun as [_ Hrun]. destruct (0 <? bitCount mlbf).
    + cbn zeta in Hrun.
      assert (touches allowed w (if noVerify args then w1 else checked w1)) as H2.
      { destruct (noVerify args); [done|].
        eapply touches_trans; [exact Ht1|]. apply touches_checked.
        subst allowed. rewrite elem_of_app, !elem_of_cons. auto. }
      destruct (noVerify args || check revoked nonrevoked mlbf).
      * destruct Hrun as (w3 & stats2 & Hs & Hrun). rewrite Hrun in Hmain. simplify_eq.
        apply Hlast. eapply touches_trans; [exact H2|].
        eapply touches_mono; [|eapply saveMLBF_touches; [|exact Hs]].
        -- intros e He. subst allowed. apply elem_of_app. by right.
        -- intros base Hb. destruct (Hbase base Hb) as [Hsome Hpatch].
           split; [|done]. by destruct (noVerify args).
      * by rewrite Hrun in Hmain.
    + rewrite Hrun in Hmain. simplify_eq. by apply Hlast.
  - destruct Hrun as [Hrun _]. by rewrite Hrun in Hmain.
Qed.

(** X17: [saveMLBF] computes the patch from the base file as it is after
    the new filter is written: from the previous filter when the base is
    another file, and from the new filter to itself when the base is the
    output file (as for [-previd] equal to the identifier of the run). The
    size it records is that of the patch. *)
Theorem saveMLBF_patch_base (args : Args) (stats : Stats) (mlbf : cascade) (w : World)
    (base patch old : string) :
  diffBaseFile args = Some base →
  patchFile args = Some patch →
  fs_files (w_fs w) !! base = Some old →
  outFile args ≠ metaFile args →
  base ≠ metaFile args →
  let new := tofile mlbf in
  let text := file_diff (if bool_decide (base = outFile args) then new else old) new in
  ∃ w' stats',
    saveMLBF args stats mlbf w = (w', Ok stats') ∧
    fs_files (w_fs w') !! patch = Some text ∧
    stats' !! "mlbf_diffsize" = Some (VInt (Z.of_nat (String.length text))).
Proof.
  intros Hbase Hpatch Hold Hom Hbm. cbn zeta.
  rewrite saveMLBF_run.
  2:{ intros base' Hb. rewrite Hbase in Hb. simplify_eq. rewrite Hold, Hpatch. eauto. }
  rewrite Hbase, Hpatch. cbn zeta. eexists _, _. split; [done|].
  cbn [written w_fs fs_files].
  assert (<[metaFile args:=saveDiffMeta mlbf]> (<[outFile args:=tofile mlbf]> (fs_files (w_fs w)))
            !! outFile args = Some (tofile mlbf)) as ->.
  { rewrite lookup_insert_ne by done. apply lookup_insert_eq. }
  assert (<[metaFile args:=saveDiffMeta mlbf]> (<[outFile args:=tofile mlbf]> (fs_files (w_fs w)))
            !! base = Some (if bool_decide (base = outFile args) then tofile mlbf else old)) as ->.
  { rewrite lookup_insert_ne by done. case_bool_decide as Hb.
    - rewrite Hb. apply lookup_insert_eq.
    - by rewrite lookup_insert_ne. }
  cbn [default]. split; apply lookup_insert_eq.
Qed.

End RunSuccess.

Section RunSizes.
Context {E : Externals}.

Lemma saveMLBF_sizes (c : Cli) (fs : FileSystem) (stats1 stats2 : Stats) (mlbf : cascade)
    (w2 w3 : World) (text : string) :
  let args := diff_setup (parseArgs c) fs in
  (∀ base, diffBaseFile args = Some base →
     is_Some (fs_files (w_fs w2) !! base) ∧ is_Some (patchFile args)) →
  saveMLBF args stats1 mlbf w2 = (w3, Ok stats2) →
  let files := fs_files (w_fs (written (stats_path args) text w3)) in
  stats2 !! "mlbf_bits" = stats1 !! "mlbf_bits" ∧
  (∃ filter meta,
     files !! outFile args = Some filter ∧
     files !! metaFile args = Some meta ∧
     stats2 !! "mlbf_filesize" = Some (VInt (Z.of_nat (String.length filter))) ∧
     stats2 !! "mlbf_metafilesize" = Some (VInt (Z.of_nat (String.length meta)))) ∧
  (∀ path, patchFile args = Some path → is_Some (diffBaseFile args) →
     ∃ patch, files !! path = Some patch ∧
              stats2 !! "mlbf_diffsize" = Some (VInt (Z.of_nat (String.length patch)))).
Proof.
  cbn zeta. intros Hbase. rewrite saveMLBF_run by done. cbn zeta.
  destruct (output_paths_differ c fs) as (_ & _ & Hom & Hos & Hms & Hpatch).
  destruct (diffBaseFile _) as [base|] eqn:Hb.
  - destruct (Hbase base eq_refl) as [_ [path Hp]]. rewrite Hp.
    destruct (Hpatch path Hp) as (Hpo & Hpm & Hps & _).
    intros ?; simplify_eq. cbn [written w_fs fs_files]. split_and!.
    + by rewrite !lookup_insert_ne.
    + exists (tofile mlbf), (saveDiffMeta mlbf). split_and!.
      * rewrite !lookup_insert_ne by done. apply lookup_insert_eq.
      * rewrite !lookup_insert_ne by done. apply lookup_insert_eq.
      * rewrite !lookup_insert_ne by done. apply lookup_insert_eq.
      * rewrite lookup_insert_ne by done. apply lookup_insert_eq.
    + intros path' [= <-] _. eexists. split.
      * rewrite lookup_insert_ne by done. apply lookup_insert_eq.
      * apply lookup_insert_eq.
  - intros ?; simplify_eq. cbn [written w_fs fs_files]. split_and!.
    + by rewrite !lookup_insert_ne.
    + exists (tofile mlbf), (saveDiffMeta mlbf). split_and!.
      * rewrite !lookup_insert_ne by done. apply lookup_insert_eq.
      * rewrite !lookup_insert_ne by done. apply lookup_insert_eq.
      * rewrite !lookup_insert_ne by done. apply lookup_insert_eq.
      * apply lookup_insert_eq.
    + by intros path _ [? ?].
Qed.

(** X16: after a run that ends well with a filter that has bits, the filter
    file and the metadata file are there and [mlbf_filesize] and
    [mlbf_metafilesize] are their sizes: no later write of the run touches
    them. When [-previd] names a build whose filter and metadata files were
    there at the start, the patch file is there as well and [mlbf_diffsize]
    is its size. *)
Theorem main_sizes (c : Cli) (w w' : World) (stats : Stats) (bits : Z) :
  main c w = (w', Ok stats) →
  stats !! "mlbf_bits" = Some (VInt bits) →
  0 < bits →
  let args := parseArgs c in
  let files := fs_files (w_fs w') in
  (∃ filter meta,
     files !! outFile args = Some filter ∧
     files !! metaFile args = Some meta ∧
     stats !! "mlbf_filesize" = Some (VInt (Z.of_nat (String.length filter))) ∧
     stats !! "mlbf_metafilesize" = Some (VInt (Z.of_nat (String.length meta)))) ∧
  ∀ prev, cli_previd c = Some prev →
    let dir := path_join (path_join (cli_certPath c) prev) (cli_outDirName c) in
    is_Some (fs_files (w_fs w) !! path_join dir "filter.meta") →
    is_Some (fs_files (w_fs w) !! path_join dir "filter") →
    ∃ patch,
      files !! path_join (out_dir c) ("filter." +:+ prev +:+ ".patch") = Some patch ∧
      stats !! "mlbf_diffsize" = Some (VInt (Z.of_nat (String.length patch))).
Proof.
  intros Hmain Hbits Hpos. cbn zeta.
  destruct (main_run c w) as (w1 & stats0 & revoked & nonrevoked & _ & Ht & Hrun).
  cbn zeta in Hrun.
  destruct (diff_setup_files c (w_fs w1)) as (_ & Hbase & _ & _).
  destruct (output_paths_differ c (w_fs w1)) as (Hout & Hmeta & _).
  destruct (generateMLBF _ _ _ _ w1) as [wg [[stats1 mlbf]|e']].
  2:{ destruct Hrun as [Hrun _]. by rewrite Hrun in Hmain. }
  destruct Hrun as [Hb1 Hrun]. destruct (0 <? bitCount mlbf) eqn:Hbc.
  2:{ rewrite Hrun in Hmain. simplify_eq. apply Z.ltb_ge in Hbc. lia. }
  cbn zeta in Hrun. destruct (noVerify _ || check revoked nonrevoked mlbf).
  2:{ by rewrite Hrun in Hmain. }
  destruct Hrun as (w3 & stats2 & Hs & Hrun). rewrite Hrun in Hmain. simplify_eq.
  eapply (saveMLBF_sizes c (w_fs w1) _ _ _ _ _ (json_dumps stats)) in Hs.
  2:{ intros base Hb. destruct (Hbase base Hb). split; [|done]. by destruct (noVerify _). }
  cbn zeta in Hs. destruct Hs as (_ & Hsizes & Hpatch).
  rewrite Hout, Hmeta in Hsizes. split; [exact Hsizes|].
  intros prev Hprev Hm Hb. destruct Ht as (_ & _ & Hkeep & _).
  destruct (diff_setup_previous c (w_fs w1) prev Hprev (Hkeep _ Hm) (Hkeep _ Hb))
    as (_ & Hbf & Hpf).
  apply Hpatch; [done|]. by rewrite Hbf.
Qed.

End RunSizes.

(** *** Concrete runs *)

Lemma final_error_run (run : World * Result Stats) (e : exn) :
  final_error run = Some e → run = (run.1, Raise e).
Proof. destruct run as [w [stats|e']]; cbn; intros ?; by simplify_eq. Qed.

Lemma final_stats_run (run : World * Result Stats) :
  final_error run = None → run = (run.1, Ok (final_stats run)).
Proof. by destruct run as [w [stats|e']]. Qed.

Lemma main_failure_witness :
  touches [Wrote "./run/mlbf/keys-revoked"; Wrote "./run/mlbf/keys-valid"; Checked]
    (mkWorld store_all_revoked []) run_all_revoked.1.
Proof.
  refine (proj2 (proj2 (main_failure (E := toy_externals) (example_cli true)
                          (mkWorld store_all_revoked []) run_all_revoked.1
                          ZeroDivisionError _))).
  apply (final_error_run run_all_revoked). vm_compute. reflexivity.
Defined.

(** The failed run has left its two cache files and no statistics file. *)
Example main_failure_cache :
  final_error run_all_revoked = Some ZeroDivisionError ∧
  w_log run_all_revoked.1 = [Wrote "./run/mlbf/keys-revoked"; Wrote "./run/mlbf/keys-valid"] ∧
  fs_files (w_fs run_all_revoked.1) !! "./run/mlbf/stats.json" = None.
Proof. by vm_compute. Qed.

Lemma main_stats_last_witness :
  fs_files (w_fs run_two_issuers.1) !! "./run/mlbf/stats.json" =
  Some (print_stats (final_stats run_two_issuers)).
Proof.
  refine (proj1 (main_stats_last (E := toy_externals) (example_cli false)
                   (mkWorld store_two_issuers []) run_two_issuers.1
                   (final_stats run_two_issuers) _)).
  apply (final_stats_run run_two_issuers). vm_compute. reflexivity.
Defined.

Lemma main_sizes_witness :
  ∃ filter meta,
    fs_files (w_fs run_two_issuers.1) !! "./run/mlbf/filter" = Some filter ∧
    fs_files (w_fs run_two_issuers.1) !! "./run/mlbf/filter.meta" = Some meta ∧
    final_stats run_two_issuers !! "mlbf_filesize" =
      Some (VInt (Z.of_nat (String.length filter))) ∧
    final_stats run_two_issuers !! "mlbf_metafilesize" =
      Some (VInt (Z.of_nat (String.length meta))).
Proof.
  refine (proj1 (main_sizes (E := toy_externals) (example_cli false)
                   (mkWorld store_two_issuers []) run_two_issuers.1
                   (final_stats run_two_issuers) 8 _ _ _)).
  - apply (final_stats_run run_two_issuers). vm_compute. reflexivity.
  - vm_compute. reflexivity.
  - lia.
Defined.

Lemma saveMLBF_patch_base_witness :
  ∃ w' stats',
    saveMLBF (E := toy_externals) (diff_setup (parseArgs example_cli_rebuild) store_rebuild)
      ∅ (mkToy 1 [] 1 ["A2"] ["A1"; "A3"]) (mkWorld store_rebuild []) = (w', Ok stats') ∧
    fs_files (w_fs w') !! "./run/mlbf/filter.run.patch" = Some (keys_text ["A2"]) ∧
    stats' !! "mlbf_diffsize" = Some (VInt 3).
Proof.
  refine (saveMLBF_patch_base (E := toy_externals)
            (diff_setup (parseArgs example_cli_rebuild) store_rebuild)
            ∅ (mkToy 1 [] 1 ["A2"] ["A1"; "A3"]) (mkWorld store_rebuild [])
            "./run/mlbf/filter" "./run/mlbf/filter.run.patch" "old filter" _ _ _ _ _).
  - reflexivity.
  - reflexivity.
  - reflexivity.
  - discriminate.
  - discriminate.
Defined.

(** With [-previd] equal to the identifier of the run the patch is made
    from the new filter to itself; the old filter is gone by then. *)
Example main_rebuild_patch :
  fs_files (w_fs run_rebuild.1) !! "./run/mlbf/filter" = Some (keys_text ["A2"]) ∧
  fs_files (w_fs run_rebuild.1) !! "./run/mlbf/filter.run.patch" = Some (keys_text ["A2"]) ∧
  w_log run_rebuild.1 =
    [Checked; Wrote "./run/mlbf/filter"; Wrote "./run/mlbf/filter.meta";
     Wrote "./run/mlbf/filter.run.patch"; Wrote "./run/mlbf/stats.json"].
Proof. by vm_compute. Qed.

(** ** The capacity when the previous metadata are used *)

Section Capacity.
Context {E : Externals}.

Lemma certs_phase_capacity (x : float) (args : Args) (stats : Stats) (w : World) :
  certs_phase (args_capacity x args) stats w = certs_phase args stats w.
Proof. reflexivity. Qed.

Lemma diff_setup_capacity (x : float) (args : Args) (fs : FileSystem) :
  diff_setup (args_capacity x args) fs = args_capacity x (diff_setup args fs).
Proof.
  unfold diff_setup. cbn [previd args_capacity]. destruct (previd args); [|done].
  cbn [certPath outDirName args_capacity]. by destruct (isfile _ _ && isfile _ _).
Qed.

Lemma generateMLBF_capacity (x : float) (args : Args) (stats : Stats)
    (revoked nonrevoked : list string) (w : World) :
  is_Some (diffMetaFile args) →
  generateMLBF (args_capacity x args) stats revoked nonrevoked w =
  generateMLBF args stats revoked nonrevoked w.
Proof.
  intros [path Hpath]. unfold generateMLBF. cbn [diffMetaFile args_capacity]. by rewrite Hpath.
Qed.

Lemma after_certs_capacity (x : float) (args : Args) (stats : Stats)
    (revoked nonrevoked : list string) (w : World) :
  is_Some (diffMetaFile (diff_setup args (w_fs w))) →
  after_certs (args_capacity x args) stats revoked nonrevoked w =
  after_certs args stats revoked nonrevoked w.
Proof.
  intros Hmeta. unfold after_certs. run.
  rewrite diff_setup_capacity, generateMLBF_capacity by done. reflexivity.
Qed.

(** X18: when [-previd] names a build whose filter and metadata files are
    there, the filter is built with the characteristics of that build and
    [-capacity] has no effect: the run with any other capacity ends in the
    same world with the same outcome. *)
Theorem main_capacity_ignored (c : Cli) (w : World) (prev : string) (x : float) :
  cli_previd c = Some prev →
  let dir := path_join (path_join (cli_certPath c) prev) (cli_outDirName c) in
  is_Some (fs_files (w_fs w) !! path_join dir "filter.meta") →
  is_Some (fs_files (w_fs w) !! path_join dir "filter") →
  main (set_capacity x c) w = main c w.
Proof.
  intros Hprev. cbn zeta. intros Hm Hb. rewrite !main_after_certs.
  change (parseArgs (set_capacity x c)) with (args_capacity x (parseArgs c)).
  rewrite certs_phase_capacity.
  destruct (certs_phase_total (parseArgs c) ∅ w)
    as (w1 & [[stats0 revoked] nonrevoked] & -> & (_ & _ & Hkeep & _)).
  apply after_certs_capacity.
  destruct (diff_setup_previous c (w_fs w1) prev Hprev (Hkeep _ Hm) (Hkeep _ Hb)) as (-> & _).
  done.
Qed.

End Capacity.

Lemma main_capacity_ignored_witness :
  main (E := toy_externals) (set_capacity 7%float example_cli_rebuild) (mkWorld store_rebuild []) =
  main (E := toy_externals) example_cli_rebuild (mkWorld store_rebuild []).
Proof.
  refine (main_capacity_ignored (E := toy_externals) example_cli_rebuild
            (mkWorld store_rebuild []) "run" 7%float _ _ _).
  - reflexivity.
  - apply (bool_decide_unpack _). vm_compute. exact I.
  - apply (bool_decide_unpack _). vm_compute. exact I.
Defined.

(** ** Runs that read the same *)

Lemma sync_refl (w w' : World) : sync w w' w w'.
Proof.
  split; [done|]. exists []. rewrite !app_nil_r. split_and!; try done.
  by intros path ?%elem_of_nil.
Qed.

Lemma sync_written (w w' w1 w1' : World) (path text : string) :
  sync w w' w1 w1' → sync w w' (written path text w1) (written path text w1').
Proof.
  intros (Hkeep & evs & Hl & Hl' & Hevs). split.
  - intros p Hp. cbn. destruct (decide (path = p)) as [->|Hne].
    + by rewrite !lookup_insert_eq.
    + rewrite !lookup_insert_ne by done. by apply Hkeep.
  - exists (evs ++ [Wrote path]). cbn. rewrite Hl, Hl', <- !app_assoc. split_and!; try done.
    intros p Hp. destruct (decide (path = p)) as [->|Hne].
    + by rewrite !lookup_insert_eq.
    + rewrite !lookup_insert_ne by done. apply Hevs.
      apply elem_of_app in Hp as [Hp|Hp%list_elem_of_singleton]; [done|]. by simplify_eq.
Qed.

Lemma sync_checked (w w' w1 w1' : World) :
  sync w w' w1 w1' → sync w w' (checked w1) (checked w1').
Proof.
  intros (Hkeep & evs & Hl & Hl' & Hevs). split; [done|].
  exists (evs ++ [Checked]). cbn. rewrite Hl, Hl', <- !app_assoc. split_and!; try done.
  intros p Hp. apply Hevs.
  apply elem_of_app in Hp as [Hp|Hp%list_elem_of_singleton]; [done|discriminate].
Qed.

Section Agree.
Context {E : Externals}.

Lemma generateMLBF_agree (args : Args) (stats : Stats) (revoked nonrevoked : list string)
    (w w' : World) :
  (∀ path, diffMetaFile args = Some path →
     fs_files (w_fs w) !! path = fs_files (w_fs w') !! path) →
  (generateMLBF args stats revoked nonrevoked w).2 =
  (generateMLBF args stats revoked nonrevoked w').2.
Proof.
  intros Hmeta. unfold generateMLBF. run.
  destruct (getFPRs revoked nonrevoked) as [fprs|e]; [|done].
  destruct (diffMetaFile args) as [path|].
  - rewrite <- (Hmeta path eq_refl).
    destruct (fs_files (w_fs w) !! path) as [meta|]; [|done].
    destruct (loadDiffMeta meta) as [c|]; [|done].
    by destruct (initialize _ _ _).
  - destruct (int_of_float _) as [n|e]; [|done].
    destruct (cascade_with_characteristics n fprs) as [c|]; [|done].
    by destruct (initialize _ _ _).
Qed.

Lemma diff_setup_agree (c : Cli) (fs fs' : FileSystem) :
  (∀ path, path ∈ cache_reads c → fs_files fs !! path = fs_files fs' !! path) →
  diff_setup (parseArgs c) fs = diff_setup (parseArgs c) fs'.
Proof.
  intros Hagree. unfold diff_setup, isfile. cbn [previd parseArgs certPath outDirName].
  unfold cache_reads in Hagree. destruct (cli_previd c) as [prev|]; [|done].
  cbn zeta in Hagree.
  rewrite !Hagree; [done|rewrite elem_of_app, !elem_of_cons; auto..].
Qed.

(** [main] after the key lists are there, in two worlds that hold the same
    files of the previous build. *)
Lemma after_certs_agree (c : Cli) (stats : Stats) (revoked nonrevoked : list string)
    (w w' : World) :
  (∀ path, path ∈ cache_reads c →
     fs_files (w_fs w) !! path = fs_files (w_fs w') !! path) →
  let run := after_certs (parseArgs c) stats revoked nonrevoked w in
  let run' := after_certs (parseArgs c) stats revoked nonrevoked w' in
  run.2 = run'.2 ∧ sync w w' run.1 run'.1.
Proof.
  intros Hagree. cbn zeta. unfold after_certs, saveStats. run.
  rewrite <- (diff_setup_agree c (w_fs w) (w_fs w') Hagree).
  destruct (diff_setup_files c (w_fs w)) as (Hmeta & Hbase & _ & _).
  set (args := diff_setup (parseArgs c) (w_fs w)) in *.
  assert (∀ path, diffMetaFile args = Some path ∨ diffBaseFile args = Some path →
            path ∈ cache_reads c) as Hreads.
  { subst args. unfold diff_setup, isfile, cache_reads.
    cbn [previd parseArgs certPath outDirName]. destruct (cli_previd c) as [prev|].
    - destruct (bool_decide _ && bool_decide _); cbn; intros path [H|H]; simplify_eq;
        rewrite !elem_of_cons; auto.
    - cbn. by intros path [H|H]. }
  pose proof (generateMLBF_agree args stats revoked nonrevoked w w'
                (λ path H, Hagree path (Hreads path (or_introl H)))) as Hgen.
  destruct (generateMLBF args stats revoked nonrevoked w) as [wg [[stats1 mlbf]|e]] eqn:Hg;
    destruct (generateMLBF args stats revoked nonrevoked w') as [wg' [[stats1' mlbf']|e']] eqn:Hg';
    cbn [snd] in Hgen; simplify_eq.
  2:{ apply generateMLBF_world in Hg as ->, Hg' as ->. split; [done|apply sync_refl]. }
  apply generateMLBF_world in Hg as ->, Hg' as ->.
  destruct (0 <? bitCount mlbf').
  2:{ split; [done|]. apply sync_written, sync_refl. }
  rewrite !verifyMLBF_run.
  assert (∀ w1 w1', sync w w' w1 w1' →
            fs_files (w_fs w1) = fs_files (w_fs w) ∨ w1 = checked w →
            fs_files (w_fs w1') = fs_files (w_fs w') ∨ w1' = checked w' →
            match saveMLBF args stats1' mlbf' w1, saveMLBF args stats1' mlbf' w1' with
            | (w3, Ok stats2), (w3', Ok stats2') => stats2 = stats2' ∧ sync w w' w3 w3'
            | _, _ => False
            end) as Hsave.
  { intros w1 w1' Hsync Hw1 Hw1'.
    assert (fs_files (w_fs w1) = fs_files (w_fs w)) as Hf by (by destruct Hw1 as [?| ->]).
    assert (fs_files (w_fs w1') = fs_files (w_fs w')) as Hf' by (by destruct Hw1' as [?| ->]).
    rewrite !saveMLBF_run.
    2:{ intros base Hb. destruct (Hbase base Hb) as [Hsome ?]. split; [|done].
        rewrite Hf', <- (Hagree base); [done|]. apply Hreads. by right. }
    2:{ intros base Hb. destruct (Hbase base Hb) as [Hsome ?]. split; [|done]. by rewrite Hf. }
    cbn zeta.
    pose proof (sync_written _ _ _ _ (metaFile args) (saveDiffMeta mlbf')
                  (sync_written _ _ _ _ (outFile args) (tofile mlbf') Hsync)) as Hsync2.
    destruct (diffBaseFile args) as [base|] eqn:Hb; [|done].
    destruct (patchFile args) as [patch|]; [|done].
    destruct Hsync2 as [Hkeep2 Hevs2].
    assert (fs_files (w_fs (written (metaFile args) (saveDiffMeta mlbf')
                              (written (outFile args) (tofile mlbf') w1))) !! base =
            fs_files (w_fs (written (metaFile args) (saveDiffMeta mlbf')
                              (written (outFile args) (tofile mlbf') w1'))) !! base) as <-.
    { apply Hkeep2, Hagree, Hreads. by right. }
    assert (fs_files (w_fs (written (metaFile args) (saveDiffMeta mlbf')
                              (written (outFile args) (tofile mlbf') w1))) !! outFile args =
            fs_files (w_fs (written (metaFile args) (saveDiffMeta mlbf')
                              (written (outFile args) (tofile mlbf') w1'))) !! outFile args) as <-.
    { cbn. destruct (decide (metaFile args = outFile args)) as [->|Hne].
      - by rewrite !lookup_insert_eq.
      - rewrite !(lookup_insert_ne _ (metaFile args)) by done. by rewrite !lookup_insert_eq. }
    split; [done|]. by apply sync_written. }
  destruct (noVerify args).
  - specialize (Hsave w w' (sync_refl w w') (or_introl eq_refl) (or_introl eq_refl)).
    destruct (saveMLBF args stats1' mlbf' w) as [w3 [stats2|e]]; [|done].
    destruct (saveMLBF args stats1' mlbf' w') as [w3' [stats2'|e']]; [|done].
    destruct Hsave as [<- Hsync]. split; [done|]. by apply sync_written.
  - destruct (check revoked nonrevoked mlbf').
    + specialize (Hsave (checked w) (checked w') (sync_checked _ _ _ _ (sync_refl w w'))
                    (or_intror eq_refl) (or_intror eq_refl)).
      destruct (saveMLBF args stats1' mlbf' (checked w)) as [w3 [stats2|e]]; [|done].
      destruct (saveMLBF args stats1' mlbf' (checked w')) as [w3' [stats2'|e']]; [|done].
      destruct Hsave as [<- Hsync]. split; [done|]. by apply sync_written.
    + split; [done|]. apply sync_checked, sync_refl.
Qed.

(** X19: with [-cachekeys] and both cache files there, a run consults
    nothing but the two cache files and, with [-previd], the two files of
    that build: in any other world that holds the same in these files the
    run has the same outcome, leaves the same events and writes the same
    into every file it writes. The known and the revoked directory are not
    looked at, so a cache that is out of date is used as it is. *)
Theorem main_cached_inputs_ignored (c : Cli) (w w' : World) :
  cli_cachekeys c = true →
  is_Some (fs_files (w_fs w) !! revokedKeys (parseArgs c)) →
  is_Some (fs_files (w_fs w) !! validKeys (parseArgs c)) →
  (∀ path, path ∈ cache_reads c →
     fs_files (w_fs w) !! path = fs_files (w_fs w') !! path) →
  (main c w).2 = (main c w').2 ∧
  ∃ evs, w_log (main c w).1 = w_log w ++ evs ∧
         w_log (main c w').1 = w_log w' ++ evs ∧
         ∀ path, Wrote path ∈ evs →
           fs_files (w_fs (main c w).1) !! path = fs_files (w_fs (main c w').1) !! path.
Proof.
  intros Hc [revtext Hr] [validtext Hv] Hagree.
  rewrite !main_after_certs.
  rewrite (certs_phase_cached (parseArgs c) ∅ w revtext validtext Hc Hr Hv).
  rewrite (certs_phase_cached (parseArgs c) ∅ w' revtext validtext Hc).
  2:{ rewrite <- Hagree; [done|]. unfold cache_reads. rewrite elem_of_app, !elem_of_cons. auto. }
  2:{ rewrite <- Hagree; [done|]. unfold cache_reads. rewrite elem_of_app, !elem_of_cons. auto. }
  destruct (after_certs_agree c ∅ (text_keys revtext) (text_keys validtext) w w' Hagree)
    as [Hres [_ Hsync]].
  done.
Qed.

End Agree.

Lemma main_cached_inputs_ignored_witness :
  (main (E := toy_externals) (example_cli true) world_cached).2 =
  (main (E := toy_externals) (example_cli true) world_cached_no_inputs).2.
Proof.
  refine (proj1 (main_cached_inputs_ignored (E := toy_externals) (example_cli true)
                   world_cached world_cached_no_inputs _ _ _ _)).
  - reflexivity.
  - apply (bool_decide_unpack _). vm_compute. exact I.
  - apply (bool_decide_unpack _). vm_compute. exact I.
  - intros path [->|[->|[]%elem_of_nil]%elem_of_cons]%elem_of_cons; vm_compute; reflexivity.
Defined.

(** The run that reconciles fails on the second world, in which no key is
    known; the run that loads the cache does not notice. *)
Example main_cached_stale :
  final_error (main (E := toy_externals) (example_cli true) world_cached_no_inputs) = None ∧
  final_error (main (E := toy_externals) (example_cli false) world_cached_no_inputs) =
    Some ZeroDivisionError.
Proof. by vm_compute. Qed.

(** ** A filter with bits, and the cache from one run to the next *)

Section RunFilter.
Context {E : Externals}.

(** X20: when the filter that was built has bits, [main] verifies it first
    (unless [-noVerify] is given). If the verification fails the run ends
    there with an error and nothing more is written. Otherwise the filter
    file, the metadata file, the patch file if one is due and the
    statistics file are written, in this order and with nothing in between;
    the filter file holds the serialized filter and the metadata file its
    metadata. *)
Theorem main_filter_with_bits (c : Cli) (w w1 : World) (args : Args) (stats : Stats)
    (revoked nonrevoked : list string) (mlbf : cascade) :
  build c w = (w1, Ok (args, stats, revoked, nonrevoked, mlbf)) →
  0 < bitCount mlbf →
  let verified := if noVerify args then [] else [Checked] in
  if noVerify args || check revoked nonrevoked mlbf then
    ∃ w' stats',
      main c w = (w', Ok stats') ∧
      w_log w' = w_log w1 ++ verified ++
                   [Wrote (outFile args); Wrote (metaFile args)] ++
                   (Wrote <$> option_list (patchFile args)) ++ [Wrote (stats_path args)] ∧
      fs_files (w_fs w') !! outFile args = Some (tofile mlbf) ∧
      fs_files (w_fs w') !! metaFile args = Some (saveDiffMeta mlbf)
  else
    main c w = (checked w1, Raise VerificationError).
Proof.
  intros Hbuild Hbits. cbn zeta.
  destruct (build_inv _ _ _ _ _ _ _ _ Hbuild) as (stats0 & _ & Hargs & _).
  unfold main. rewrite (bind_ok _ _ _ _ _ Hbuild).
  assert ((0 <? bitCount mlbf) = true) as -> by (apply Z.ltb_lt; lia).
  destruct (diff_setup_files c (w_fs w1)) as (_ & Hbase & _ & _).
  destruct (output_paths_differ c (w_fs w1)) as (_ & _ & Hom & Hos & Hms & Hpatch).
  assert (diffBaseFile args = None → patchFile args = None) as Hnone.
  { subst args. unfold diff_setup. cbn [previd parseArgs]. destruct (cli_previd c); [|done].
    by destruct (isfile _ _ && isfile _ _). }
  rewrite <- Hargs in Hbase, Hom, Hos, Hms, Hpatch. clear Hargs Hbuild.
  unfold saveStats. run. rewrite verifyMLBF_run.
  assert (∀ w2, fs_files (w_fs w2) = fs_files (w_fs w1) →
            ∃ w3 stats2,
              saveMLBF args stats mlbf w2 = (w3, Ok stats2) ∧
              w_log w3 = w_log w2 ++ [Wrote (outFile args); Wrote (metaFile args)] ++
                           (Wrote <$> option_list (patchFile args)) ∧
              fs_files (w_fs w3) !! outFile args = Some (tofile mlbf) ∧
              fs_files (w_fs w3) !! metaFile args = Some (saveDiffMeta mlbf)) as Hsave.
  { intros w2 Hw2. rewrite saveMLBF_run.
    2:{ intros base Hb. rewrite Hw2. by apply Hbase. }
    cbn zeta. destruct (diffBaseFile args) as [base|] eqn:Hb.
    - destruct (Hbase base eq_refl) as [_ [patch Hp]]. rewrite Hp.
      destruct (Hpatch patch Hp) as (Hpo & Hpm & _).
      eexists _, _. split; [done|]. cbn. rewrite <- !app_assoc. split_and!; [done| |].
      + rewrite !lookup_insert_ne by done. apply lookup_insert_eq.
      + rewrite lookup_insert_ne by done. apply lookup_insert_eq.
    - rewrite (Hnone eq_refl). eexists _, _. split; [done|].
      cbn. rewrite <- !app_assoc. split_and!; [done| |].
      + rewrite lookup_insert_ne by done. apply lookup_insert_eq.
      + apply lookup_insert_eq. }
  destruct (noVerify args); cbn [orb].
  - destruct (Hsave w1 eq_refl) as (w3 & stats2 & -> & Hlog & Hout & Hmeta).
    eexists _, _. split; [done|]. cbn [written w_fs fs_files w_log].
    rewrite Hlog, !lookup_insert_ne, <- !app_assoc by done. done.
  - destruct (check revoked nonrevoked mlbf); [|done].
    destruct (Hsave (checked w1) eq_refl) as (w3 & stats2 & -> & Hlog & Hout & Hmeta).
    eexists _, _. split; [done|]. cbn [written w_fs fs_files w_log].
    rewrite Hlog, !lookup_insert_ne by done. cbn [checked w_log]. rewrite <- !app_assoc. done.
Qed.

(** X21: a run with [-cachekeys] that does not find both cache files
    reconciles and leaves both, each holding its list one key to a line. The
    first part of a following run with [-cachekeys] finds them and returns
    the same two lists (for keys without a line terminator), with the
    statistics it was given: it counts nothing. *)
Theorem certs_phase_cache_reused (c : Cli) (stats stats' : Stats) (w : World) :
  let args := parseArgs c in
  let st := genCertLists json_serials args (w_fs w) stats [] [] in
  cli_cachekeys c = true →
  isfile (w_fs w) (revokedKeys args) && isfile (w_fs w) (validKeys args) = false →
  ∃ w1,
    certs_phase args stats w = (w1, Ok (stats_of st, revoked_certs st, nonrevoked_certs st)) ∧
    fs_files (w_fs w1) !! revokedKeys args = Some (keys_text (revoked_certs st)) ∧
    fs_files (w_fs w1) !! validKeys args = Some (keys_text (nonrevoked_certs st)) ∧
    (Forall one_line (revoked_certs st) → Forall one_line (nonrevoked_certs st) →
     certs_phase args stats' w1 = (w1, Ok (stats', revoked_certs st, nonrevoked_certs st))).
Proof.
  cbn zeta. intros Hc Hfiles.
  set (args := parseArgs c) in *.
  set (st := genCertLists json_serials args (w_fs w) stats [] []).
  exists (written (validKeys args) (keys_text (nonrevoked_certs st))
            (written (revokedKeys args) (keys_text (revoked_certs st)) w)).
  assert (cachekeys args = true) as Hca by done.
  split_and!.
  - unfold certs_phase. run. fold args. rewrite Hca. cbn [andb]. rewrite Hfiles.
    fold st. by rewrite saveCertLists_run.
  - cbn. rewrite lookup_insert_ne by (symmetry; apply keys_paths_differ).
    apply lookup_insert_eq.
  - cbn. apply lookup_insert_eq.
  - intros Hr Hn.
    erewrite (certs_phase_cached args stats' _ _ _ Hca).
    + by rewrite !text_keys_keys_text.
    + cbn. rewrite lookup_insert_ne by (symmetry; apply keys_paths_differ).
      apply lookup_insert_eq.
    + cbn. apply lookup_insert_eq.
Qed.

End RunFilter.

Lemma main_filter_with_bits_witness :
  ∃ w' stats',
    run_two_issuers = (w', Ok stats') ∧
    w_log w' = [Checked; Wrote "./run/mlbf/filter"; Wrote "./run/mlbf/filter.meta";
                Wrote "./run/mlbf/stats.json"] ∧
    fs_files (w_fs w') !! "./run/mlbf/filter" = Some (keys_text ["A2"]) ∧
    fs_files (w_fs w') !! "./run/mlbf/filter.meta" = Some (keys_text ["A3"; "A1"]).
Proof.
  exact (main_filter_with_bits (E := toy_externals) (example_cli false)
           (mkWorld store_two_issuers []) (mkWorld store_two_issuers [])
           example_args stats_two_issuers ["A2"] ["A3"; "A1"] filter_two_issuers
           eq_refl eq_refl).
Defined.

Lemma certs_phase_cache_reused_witness :
  let args := parseArgs (example_cli true) in
  let st := genCertLists parse_serials args store_half_cached ∅ [] [] in
  ∃ w1,
    certs_phase (E := toy_externals) args ∅ (mkWorld store_half_cached []) =
      (w1, Ok (stats_of st, revoked_certs st, nonrevoked_certs st)) ∧
    fs_files (w_fs w1) !! revokedKeys args = Some (keys_text (revoked_certs st)) ∧
    fs_files (w_fs w1) !! validKeys args = Some (keys_text (nonrevoked_certs st)) ∧
    (Forall one_line (revoked_certs st) → Forall one_line (nonrevoked_certs st) →
     certs_phase (E := toy_externals) args ∅ w1 =
       (w1, Ok (∅, revoked_certs st, nonrevoked_certs st))).
Proof.
  exact (certs_phase_cache_reused (E := toy_externals) (example_cli true) ∅ ∅
           (mkWorld store_half_cached []) eq_refl eq_refl).
Defined.

(** The stale cache file of [store_half_cached] is replaced. *)
Example certs_phase_half_cached :
  let run := certs_phase (E := toy_externals) (parseArgs (example_cli true)) ∅
               (mkWorld store_half_cached []) in
  fs_files (w_fs run.1) !! "./run/mlbf/keys-revoked" = Some (keys_text ["A2"]) ∧
  w_log run.1 = [Wrote "./run/mlbf/keys-revoked"; Wrote "./run/mlbf/keys-valid"].
Proof. by vm_compute. Qed.
